(** * Voice habit tracker: speech-output dispatcher, check-in session and
      goals session

    A shallow embedding of three browser-side classes of the repository:

    - [TTSService] (the multi-provider text-to-speech dispatcher),
    - [DailyHabitTracker] (the daily check-in state machine),
    - [VoiceGoalsInput] (the spoken-goals session and its transcript
      segmentation heuristic).

    Mutable object fields become record fields threaded through the
    functions; callbacks and calls to collaborators (providers, speech
    recognition, network) are recorded in an append-only trace, and what the
    collaborators answer is supplied by an explicit environment.

    JavaScript strings are modelled by [string] whose characters stand for the
    code units below 256. *)

From Stdlib Require Import ZArith Lia Bool Ascii DecimalString.
From stdpp Require Import gmap strings list.

Local Open Scope nat_scope.

(** ** JavaScript string operations used by the sessions *)

Module Js.

(** White space and line terminators ([\s] and [trim]) below code unit 256. *)
Definition isSpace (c : ascii) : bool :=
  match c with
  | "009" | "010" | "011" | "012" | "013" | " " | "160" => true
  | _ => false
  end%char.

(** [\d] *)
Definition isDigit (c : ascii) : bool :=
  let n := N_of_ascii c in ((48 <=? n) && (n <=? 57))%N.

Definition toLower (c : ascii) : ascii :=
  let n := N_of_ascii c in
  if ((65 <=? n) && (n <=? 90))%N then ascii_of_N (n + 32)
  else if ((192 <=? n) && (n <=? 222) && negb (n =? 215))%N
       then ascii_of_N (n + 32)
  else c.

Fixpoint toLowerCase (s : string) : string :=
  match s with
  | EmptyString => EmptyString
  | String c r => String (toLower c) (toLowerCase r)
  end.

Fixpoint dropWhile (p : ascii -> bool) (s : string) : string :=
  match s with
  | EmptyString => EmptyString
  | String c r => if p c then dropWhile p r else s
  end.

Fixpoint takeWhile (p : ascii -> bool) (s : string) : string :=
  match s with
  | EmptyString => EmptyString
  | String c r => if p c then String c (takeWhile p r) else EmptyString
  end.

Fixpoint rev (s : string) : string :=
  match s with
  | EmptyString => EmptyString
  | String c r => rev r +:+ String c EmptyString
  end.

Definition trimStart (s : string) : string := dropWhile isSpace s.
Definition trimEnd (s : string) : string := rev (dropWhile isSpace (rev s)).
Definition trim (s : string) : string := trimEnd (trimStart s).

(** [s.includes(needle)] *)
Fixpoint includes (s needle : string) : bool :=
  String.prefix needle s
  || match s with
     | EmptyString => false
     | String _ r => includes r needle
     end.

(** [String.prototype.split] for a separator that never matches the empty
    string. [matchLen s] is the length of the separator match starting at
    the first character of [s], if there is one. The walk keeps the
    fragment read so far ([cur]) and the number of characters of the
    current match still to be skipped. *)
Fixpoint splitWalk (matchLen : string -> option nat) (skip : nat)
    (cur : string) (s : string) : list string :=
  match s with
  | EmptyString => [cur]
  | String c r =>
      match skip with
      | S k => splitWalk matchLen k cur r
      | O =>
          match matchLen s with
          | Some (S k) => cur :: splitWalk matchLen k EmptyString r
          | _ => splitWalk matchLen 0 (cur +:+ String c EmptyString) r
          end
      end
  end.

Definition splitBy (matchLen : string -> option nat) (s : string) : list string :=
  splitWalk matchLen 0 EmptyString s.

(** [s.split(sep)] for a non-empty string [sep]. *)
Definition split (s sep : string) : list string :=
  splitBy (λ t, if String.prefix sep t then Some (String.length sep) else None) s.

(** [.filter(Boolean)] on strings: drop the empty ones. *)
Definition nonEmpty (s : string) : bool :=
  match s with EmptyString => false | _ => true end.

(** [Array.prototype.join] *)
Fixpoint join (l : list string) (sep : string) : string :=
  match l with
  | [] => EmptyString
  | [x] => x
  | x :: l' => x +:+ sep +:+ join l' sep
  end.

(** [Array.prototype.slice(0, n)] for an integer [n]. *)
Definition slice0 {A} (l : list A) (n : Z) : list A :=
  if (n <? 0)%Z then take (Z.to_nat (Z.max (Z.of_nat (length l) + n) 0)) l
  else take (Z.to_nat n) l.

(** Decimal rendering of a number in a template string. *)
Definition ofNat (n : nat) : string := NilEmpty.string_of_uint (Nat.to_uint n).

End Js.

(** ** The text-to-speech dispatcher ([TTSService]) *)

Module TTS.

(** [provider.getAudioElement] present (the provider hands back an audio
    element) or absent (the provider runs its own completion callbacks). *)
Inductive Capability := HandleBased | SelfManaged.

Record Provider := {
  name : string;
  capability : Capability;
  hasStop : bool
}.

(** An [Error] object is identified by its message, an audio element by a
    handle. *)
Definition Error := string.
Definition Audio := nat.

(** Callbacks a self-managed provider may run on the options object it is
    given. *)
Inductive Callback := CbComplete | CbError (e : Error).

(** What one call of [provider.speak] does: the callbacks it runs, then the
    settlement of its promise. *)
Inductive Outcome :=
| Resolves (audio : option Audio) (cbs : list Callback)
| Rejects (e : Error) (cbs : list Callback).

(** The providers' behaviour: provider name, text and the number of
    [provider.speak] calls the service made before this one. *)
Definition World := string -> string -> nat -> Outcome.

Inductive Effect :=
| ProviderSpeak (p : string) (text : string)
| ProviderStop (p : string)
| AudioPause (a : Audio)
| AudioPlay (a : Audio)
| ProviderChanged (prev next : option string)
| OnComplete
| OnError (e : Error).

Record TTSService := {
  providers : gmap string Provider;
  providerNames : list string;
  currentProviderIndex : nat;
  isPlaying : bool;
  currentAudio : option Audio;
  trace : list Effect
}.

Definition emit (ev : Effect) (s : TTSService) : TTSService :=
  {| providers := providers s; providerNames := providerNames s;
     currentProviderIndex := currentProviderIndex s;
     isPlaying := isPlaying s; currentAudio := currentAudio s;
     trace := trace s ++ [ev] |}.

Definition setPlaying (b : bool) (s : TTSService) : TTSService :=
  {| providers := providers s; providerNames := providerNames s;
     currentProviderIndex := currentProviderIndex s;
     isPlaying := b; currentAudio := currentAudio s;
     trace := trace s |}.

Definition setAudio (a : option Audio) (s : TTSService) : TTSService :=
  {| providers := providers s; providerNames := providerNames s;
     currentProviderIndex := currentProviderIndex s;
     isPlaying := isPlaying s; currentAudio := a;
     trace := trace s |}.

Definition setIndex (i : nat) (s : TTSService) : TTSService :=
  {| providers := providers s; providerNames := providerNames s;
     currentProviderIndex := i;
     isPlaying := isPlaying s; currentAudio := currentAudio s;
     trace := trace s |}.

(** [Array.prototype.indexOf] on the list of names. *)
Fixpoint indexOf (x : string) (l : list string) : option nat :=
  match l with
  | [] => None
  | y :: l' => if decide (x = y) then Some 0 else S <$> indexOf x l'
  end.

(** One round of the constructor's [forEach]: a provider without a (truthy)
    name is skipped. *)
Definition register (s : TTSService) (p : Provider) : TTSService :=
  if decide (name p = "") then s
  else {| providers := <[name p := p]> (providers s);
          providerNames := providerNames s ++ [name p];
          currentProviderIndex := currentProviderIndex s;
          isPlaying := isPlaying s; currentAudio := currentAudio s;
          trace := trace s |}.

Definition empty : TTSService :=
  {| providers := ∅; providerNames := []; currentProviderIndex := 0;
     isPlaying := false; currentAudio := None; trace := [] |}.

Definition constructor (ps : list Provider) (defaultProvider : option string)
  : TTSService :=
  let s := foldl register empty ps in
  match defaultProvider with
  | Some d =>
      if decide (d = "") then s
      else match indexOf d (providerNames s) with
           | Some i => setIndex i s
           | None => s
           end
  | None => s
  end.

Definition getCurrentProvider (s : TTSService) : option Provider :=
  match providerNames s with
  | [] => None
  | _ => providerNames s !! currentProviderIndex s ≫= λ n, providers s !! n
  end.

Definition hasProviders (s : TTSService) : bool :=
  negb (length (providerNames s) =? 0).

Definition switchToNextProvider (s : TTSService) : bool * TTSService :=
  if length (providerNames s) <=? 1 then (false, s)
  else
    let prevProvider := getCurrentProvider s in
    let s1 :=
      setIndex ((currentProviderIndex s + 1) mod length (providerNames s)) s in
    let newProvider := getCurrentProvider s1 in
    (true, emit (ProviderChanged (name <$> prevProvider) (name <$> newProvider)) s1).

Definition stop (s : TTSService) : TTSService :=
  match getCurrentProvider s with
  | Some provider =>
      if isPlaying s then
        let s1 := match currentAudio s with
                  | Some a => setAudio None (emit (AudioPause a) s)
                  | None => s
                  end in
        let s2 := if hasStop provider
                  then emit (ProviderStop (name provider)) s1 else s1 in
        setPlaying false s2
      else s
  | None => s
  end.

(** The names of the providers whose [speak] was called, in order. *)
Fixpoint attempts (l : list Effect) : list string :=
  match l with
  | [] => []
  | ProviderSpeak p _ :: l' => p :: attempts l'
  | _ :: l' => attempts l'
  end.

Definition handleAudioElement (audioElement : option Audio) (s : TTSService)
  : TTSService :=
  match audioElement with
  | None => emit (OnError "No audio element returned from provider") s
  | Some a => emit (AudioPlay a) (setAudio (Some a) s)
  end.

(** The wrappers [tryCurrentProvider] passes to a self-managed provider. *)
Definition runCallback (s : TTSService) (cb : Callback) : TTSService :=
  match cb with
  | CbComplete => emit OnComplete (setPlaying false s)
  | CbError e => emit (OnError e) (setPlaying false s)
  end.

(** [tryCurrentProvider]: [Some e] when it throws [e]. *)
Definition tryCurrentProvider (w : World) (text : string) (s : TTSService)
  : option Error * TTSService :=
  match getCurrentProvider s with
  | None => (Some "No TTS provider available", s)
  | Some provider =>
      let outcome := w (name provider) text (length (attempts (trace s))) in
      let s1 := emit (ProviderSpeak (name provider) text) s in
      match capability provider with
      | HandleBased =>
          match outcome with
          | Resolves audioElement _ => (None, handleAudioElement audioElement s1)
          | Rejects e _ => (Some e, s1)
          end
      | SelfManaged =>
          match outcome with
          | Resolves _ cbs => (None, foldl runCallback s1 cbs)
          | Rejects e cbs => (Some e, foldl runCallback s1 cbs)
          end
      end
  end.

(** Settlement of the promise returned by [speak]. *)
Inductive Settled := Fulfilled | Rejected (e : Error).

Definition speak (w : World) (text : string) (s : TTSService)
  : Settled * TTSService :=
  if decide (text = "") then (Rejected "No text provided for speech", s)
  else if negb (hasProviders s) then (Rejected "No TTS providers available", s)
  else
    let s1 := setPlaying true (stop s) in
    match tryCurrentProvider w text s1 with
    | (None, s2) => (Fulfilled, s2)
    | (Some error, s2) =>
        match switchToNextProvider s2 with
        | (true, s3) =>
            match tryCurrentProvider w text s3 with
            | (None, s4) => (Fulfilled, s4)
            | (Some secondError, s4) =>
                (Fulfilled, emit (OnError secondError) (setPlaying false s4))
            end
        | (false, s3) =>
            (Fulfilled, emit (OnError error) (setPlaying false s3))
        end
    end.

(** The outcome of the first [provider.speak] of a [speak] call made in
    state [s]: that of the current provider. *)
Definition firstOutcome (w : World) (text : string) (s : TTSService)
  : option Outcome :=
  (λ p, w (name p) text (length (attempts (trace s)))) <$> getCurrentProvider s.

(** The outcome of the second [provider.speak] of that call, when there is
    one: that of the provider after the current one. *)
Definition secondOutcome (w : World) (text : string) (s : TTSService)
  : option Outcome :=
  providerNames s
    !! ((currentProviderIndex s + 1) mod length (providerNames s))
  ≫= λ n, (λ p, w (name p) text (S (length (attempts (trace s)))))
            <$> providers s !! n.

(** The two providers of the repository, and the service [initTTS] builds
    from them. *)
Definition webSpeechProvider : Provider :=
  {| name := "WebSpeech"; capability := SelfManaged; hasStop := true |}.

Definition fishAudioProvider : Provider :=
  {| name := "FishAudio"; capability := HandleBased; hasStop := true |}.

Definition trackerService : TTSService :=
  constructor [webSpeechProvider; fishAudioProvider] (Some "WebSpeech").

(** A world in which every provider is down. *)
Definition allDown : World := λ p _ _, Rejects (p +:+ " is down") [].

(** A world in which only the provider named [p] is down. *)
Definition onlyDown (p : string) : World :=
  λ q _ _, if decide (q = p) then Rejects (p +:+ " is down") []
           else Resolves (Some 0) [CbComplete].

(** Every registered name has its provider, and the index is in range. *)
Definition wf (s : TTSService) : Prop :=
  (providerNames s = [] ∨ currentProviderIndex s < length (providerNames s)) ∧
  ∀ n, n ∈ providerNames s → ∃ p, providers s !! n = Some p ∧ name p = n.

End TTS.

(** ** The daily check-in session ([DailyHabitTracker])

    The tracker is taken with its text-to-speech service initialised, no DOM
    elements configured and the default [onAuthRequired] callback. An event
    handler, together with the asynchronous continuations it starts, runs as
    one step up to the next wait for a speech-recognition event. *)

Module Tracker.

Record Habit := { key : string; text : string }.

(** [this.recognitionContext] *)
Inductive Context := HabitContext (habit : Habit) | ReflectionContext.

Record ErrorInfo := { message : string; technicalDetails : string }.

Record Payload := {
  user_id : string;
  date : string;
  p_responses : gmap string string;
  p_reflection : string
}.

Record Completion := {
  c_responses : gmap string string;
  c_reflection : string;
  success : bool;
  error : option string
}.

Inductive Effect :=
| OnStart
| OnStatusUpdate (msg : string)
| OnHabitRead (h : Habit)
| OnHabitResponse (h : Habit) (response : string)
| OnError (info : ErrorInfo)
| OnComplete (c : Completion)
| Speak (text : string)
| RecognitionStart
| GetHabitStack (userId formattedDate : string)
| PostDailyLog (payload : Payload).

(** A settled [fetch]: a transport failure, or an HTTP response. *)
Inductive Body :=
| Unparsable
| Json (success : option bool) (error : string)
       (habit_stack : option (gmap string string)).

Inductive FetchResult :=
| Aborted
| Failed (msg : string)
| Response (status : nat) (statusText : string) (errorField : string) (body : Body).

(** The collaborators' answers. [speakResult k] settles the [k]-th call of
    [ttsService.speak] and [startResult k] the [k]-th call of
    [recognition.start] ([Some msg]: an error with that message). *)
Record Env := {
  speakResult : nat -> option string;
  startResult : nat -> option string;
  stackResult : FetchResult;
  logResult : FetchResult
}.

Record DailyHabitTracker := {
  userId : option string;
  recognition : bool;
  habitStack : option (gmap string string);
  responses : gmap string string;
  currentHabitIndex : nat;
  isProcessing : bool;
  reflection : string;
  formattedDate : string;
  recognitionContext : option Context;
  trace : list Effect
}.

Definition emit (ev : Effect) (s : DailyHabitTracker) : DailyHabitTracker :=
  {| userId := userId s; recognition := recognition s;
     habitStack := habitStack s; responses := responses s;
     currentHabitIndex := currentHabitIndex s; isProcessing := isProcessing s;
     reflection := reflection s; formattedDate := formattedDate s;
     recognitionContext := recognitionContext s; trace := trace s ++ [ev] |}.

Definition setHabitStack (st : option (gmap string string))
    (s : DailyHabitTracker) : DailyHabitTracker :=
  {| userId := userId s; recognition := recognition s;
     habitStack := st; responses := responses s;
     currentHabitIndex := currentHabitIndex s; isProcessing := isProcessing s;
     reflection := reflection s; formattedDate := formattedDate s;
     recognitionContext := recognitionContext s; trace := trace s |}.

Definition setResponses (r : gmap string string)
    (s : DailyHabitTracker) : DailyHabitTracker :=
  {| userId := userId s; recognition := recognition s;
     habitStack := habitStack s; responses := r;
     currentHabitIndex := currentHabitIndex s; isProcessing := isProcessing s;
     reflection := reflection s; formattedDate := formattedDate s;
     recognitionContext := recognitionContext s; trace := trace s |}.

Definition setIndex (i : nat) (s : DailyHabitTracker) : DailyHabitTracker :=
  {| userId := userId s; recognition := recognition s;
     habitStack := habitStack s; responses := responses s;
     currentHabitIndex := i; isProcessing := isProcessing s;
     reflection := reflection s; formattedDate := formattedDate s;
     recognitionContext := recognitionContext s; trace := trace s |}.

Definition setProcessing (b : bool) (s : DailyHabitTracker) : DailyHabitTracker :=
  {| userId := userId s; recognition := recognition s;
     habitStack := habitStack s; responses := responses s;
     currentHabitIndex := currentHabitIndex s; isProcessing := b;
     reflection := reflection s; formattedDate := formattedDate s;
     recognitionContext := recognitionContext s; trace := trace s |}.

Definition setReflection (r : string) (s : DailyHabitTracker) : DailyHabitTracker :=
  {| userId := userId s; recognition := recognition s;
     habitStack := habitStack s; responses := responses s;
     currentHabitIndex := currentHabitIndex s; isProcessing := isProcessing s;
     reflection := r; formattedDate := formattedDate s;
     recognitionContext := recognitionContext s; trace := trace s |}.

Definition setContext (c : Context) (s : DailyHabitTracker) : DailyHabitTracker :=
  {| userId := userId s; recognition := recognition s;
     habitStack := habitStack s; responses := responses s;
     currentHabitIndex := currentHabitIndex s; isProcessing := isProcessing s;
     reflection := reflection s; formattedDate := formattedDate s;
     recognitionContext := Some c; trace := trace s |}.

(** The state the constructor leaves, for a user id and today's date. *)
Definition constructor (uid : option string) (today : string) : DailyHabitTracker :=
  {| userId := uid; recognition := true; habitStack := None; responses := ∅;
     currentHabitIndex := 0; isProcessing := false; reflection := "";
     formattedDate := today; recognitionContext := None; trace := [] |}.

Definition isSpeak (ev : Effect) : bool :=
  match ev with Speak _ => true | _ => false end.

Definition isStart (ev : Effect) : bool :=
  match ev with RecognitionStart => true | _ => false end.

Definition speakCount (l : list Effect) : nat := length (List.filter isSpeak l).
Definition startCount (l : list Effect) : nat := length (List.filter isStart l).

Definition updateStatus (msg : string) (s : DailyHabitTracker) : DailyHabitTracker :=
  emit (OnStatusUpdate msg) s.

Definition userMessageOf (errorMessage : string) : string :=
  if Js.includes errorMessage "NetworkError"
     || Js.includes errorMessage "Failed to fetch"
     || Js.includes errorMessage "ECONNREFUSED"
     || Js.includes errorMessage "network error"
  then "Network connection issue. Please check your internet connection and try again."
  else if Js.includes errorMessage "timeout" || Js.includes errorMessage "AbortError"
  then "Request timed out. The server is taking too long to respond. Please try again later."
  else if Js.includes errorMessage "500" || Js.includes errorMessage "Internal server error"
  then "Server error. Our system is having issues. Please try again later."
  else if Js.includes errorMessage "404" || Js.includes errorMessage "Not found"
  then "The resource was not found. This might be because you need to create goals first."
  else if Js.includes errorMessage "403" || Js.includes errorMessage "401"
          || Js.includes errorMessage "Authentication"
  then "Authentication error. Please log in again or contact support."
  else if Js.includes errorMessage "parse" || Js.includes errorMessage "JSON"
  then "Received an invalid response from the server. Please try again."
  else if Js.includes errorMessage "rate limit" || Js.includes errorMessage "429"
  then "Too many requests. Please wait a moment and try again."
  else errorMessage.

Definition handleError (errorMessage : string) (s : DailyHabitTracker)
  : DailyHabitTracker :=
  let userMessage := userMessageOf errorMessage in
  emit (OnError {| message := userMessage; technicalDetails := errorMessage |})
       (updateStatus ("Error: " +:+ userMessage) s).

Definition getUserId (s : DailyHabitTracker) : option string :=
  match userId s with
  | Some "" => None
  | u => u
  end.

Definition onAuthRequired (s : DailyHabitTracker) : DailyHabitTracker :=
  handleError "Authentication required. Please login first." s.

Definition checkAuthentication (s : DailyHabitTracker) : bool * DailyHabitTracker :=
  match getUserId s with
  | None => (false, onAuthRequired s)
  | Some _ => (true, s)
  end.

(** [speakText]: [Some msg] when it rejects. *)
Definition speakText (env : Env) (txt : string) (s : DailyHabitTracker)
  : option string * DailyHabitTracker :=
  if decide (txt = "") then (None, s)
  else
    let s1 := emit (Speak txt) s in
    match speakResult env (speakCount (trace s)) with
    | None => (None, s1)
    | Some msg => (Some msg, handleError ("Failed to speak text: " +:+ msg) s1)
    end.

(** [this.recognition.start()]: [Some msg] when it throws. *)
Definition recognitionStart (env : Env) (s : DailyHabitTracker)
  : option string * DailyHabitTracker :=
  if recognition s then
    (startResult env (startCount (trace s)), emit RecognitionStart s)
  else (Some "Cannot read properties of null (reading 'start')", s).

(** The handler of a failed [fetch] body: what the [catch (networkError)]
    block rethrows for an error with message [msg]. *)
Definition rethrown (msg : string) : string :=
  if Js.includes msg "NetworkError" || Js.includes msg "Failed to fetch"
  then "Network error. Please check your connection and try again."
  else msg.

Definition orElse (s d : string) : string := if decide (s = "") then d else s.

Definition isOk (status : nat) : bool := (200 <=? status) && (status <=? 299).

(** The habits present in the stack, in slot order. *)
Definition habitsOf (stack : gmap string string) : list Habit :=
  omap (λ i, let habitKey := "habit_" +:+ Js.ofNat i in
             match stack !! habitKey with
             | Some "" | None => None
             | Some t => Some {| key := habitKey; text := t |}
             end) [1; 2; 3; 4; 5].

Definition REFLECTION_PROMPT : string :=
  "All habits are done for today. Would you like to add any reflection on your progress? If so, please speak after the beep. Otherwise, say skip.".

Definition SORRY_PROMPT : string :=
  "Sorry, I didn't understand. Please say yes, no, or skip.".

Definition habitPrompt (h : Habit) : string :=
  "Did you complete this habit today: " +:+ text h
    +:+ "? Please respond with yes, no, or skip.".

(** [fetchHabitStack]: [Some msg] when it rejects. *)
Definition fetchHabitStack (env : Env) (s : DailyHabitTracker)
  : option string * DailyHabitTracker :=
  let fail (msg : string) (st : DailyHabitTracker) :=
    (Some msg, updateStatus ("Error: " +:+ msg)
                 (handleError ("Error fetching habit stack: " +:+ msg) st)) in
  let s1 := updateStatus "Fetching your habits for today..." s in
  match getUserId s1 with
  | None => fail "User ID is not set. Please login first." s1
  | Some uid =>
      let s2 := emit (GetHabitStack uid (formattedDate s1)) s1 in
      match stackResult env with
      | Aborted =>
          fail "Request timed out. Please check your connection and try again." s2
      | Failed msg => fail (rethrown msg) s2
      | Response status statusText errorField body =>
          if negb (isOk status) then
            if status =? 401 then
              fail (rethrown "Authentication required. Please log in first.")
                   (onAuthRequired s2)
            else if status =? 400 then
              fail (rethrown ("Invalid request: "
                                +:+ orElse errorField "Missing required parameters")) s2
            else if status =? 404 then
              fail (rethrown "No habit stack found for today. Please create goals first.") s2
            else if status =? 429 then
              fail (rethrown "Server is busy. Please try again later.") s2
            else if 500 <=? status then
              fail (rethrown ("Server error: "
                                +:+ orElse errorField "Internal server error")) s2
            else
              fail (rethrown ("API error (" +:+ Js.ofNat status +:+ "): "
                                +:+ orElse errorField statusText)) s2
          else
            match body with
            | Unparsable => fail (rethrown "Invalid response format from server") s2
            | Json (Some false) err _ =>
                fail (rethrown (orElse err "Unknown API error")) s2
            | Json _ _ None =>
                fail (rethrown "No habit stack found for today. Please create goals first.") s2
            | Json _ _ (Some stack) =>
                (None, updateStatus "Habits loaded for today."
                         (setHabitStack (Some stack) s2))
            end
      end
  end.

(** [submitDailyLog]; its callers do not look at the promise it returns. *)
Definition submitDailyLog (env : Env) (s : DailyHabitTracker) : DailyHabitTracker :=
  let fail (msg : string) (st : DailyHabitTracker) :=
    let st1 := updateStatus ("Error: " +:+ msg)
                 (handleError ("Error submitting daily log: " +:+ msg) st) in
    setProcessing false
      (emit (OnComplete {| c_responses := responses st1;
                           c_reflection := reflection st1;
                           success := false; error := Some msg |}) st1) in
  match checkAuthentication s with
  | (false, s1) => s1
  | (true, s1) =>
      let s2 := updateStatus "Submitting your daily log..." s1 in
      match getUserId s2 with
      | None => fail "User ID is not set. Please login first." s2
      | Some uid =>
          if decide (size (responses s2) = 0) then
            fail "No habit responses to submit" s2
          else
            let payload := {| user_id := uid; date := formattedDate s2;
                              p_responses := responses s2;
                              p_reflection := orElse (reflection s2) "" |} in
            let s3 := emit (PostDailyLog payload) s2 in
            match logResult env with
            | Aborted =>
                fail "Request timed out. Please check your connection and try again." s3
            | Failed msg => fail (rethrown msg) s3
            | Response status statusText errorField body =>
                if negb (isOk status) then
                  if status =? 401 then
                    fail (rethrown "Authentication required. Please log in first.")
                         (onAuthRequired s3)
                  else if status =? 400 then
                    fail (rethrown ("Invalid request: "
                                      +:+ orElse errorField "Missing required parameters")) s3
                  else if status =? 429 then
                    fail (rethrown "Server is busy. Please try again later.") s3
                  else if 500 <=? status then
                    fail (rethrown ("Server error: "
                                      +:+ orElse errorField "Internal server error")) s3
                  else
                    fail (rethrown ("API error (" +:+ Js.ofNat status +:+ "): "
                                      +:+ orElse errorField statusText)) s3
                else
                  match body with
                  | Unparsable =>
                      fail (rethrown "Invalid response format from server") s3
                  | Json (Some false) err _ =>
                      fail (rethrown (orElse err "Unknown API error")) s3
                  | Json _ _ _ =>
                      let s4 := updateStatus "Daily log submitted successfully!" s3 in
                      match speakText env "Thank you! Your daily log has been saved." s4 with
                      | (Some msg, s5) => fail (rethrown msg) s5
                      | (None, s5) =>
                          setProcessing false
                            (emit (OnComplete {| c_responses := responses s5;
                                                 c_reflection := reflection s5;
                                                 success := true; error := None |}) s5)
                      end
                  end
            end
      end
  end.

Definition askForReflection (env : Env) (s : DailyHabitTracker) : DailyHabitTracker :=
  let s1 :=
    updateStatus "All habits processed. Would you like to add a reflection?" s in
  let failed (msg : string) (st : DailyHabitTracker) :=
    submitDailyLog env (handleError ("Error asking for reflection: " +:+ msg) st) in
  match speakText env REFLECTION_PROMPT s1 with
  | (Some msg, s2) => failed msg s2
  | (None, s2) =>
      match recognitionStart env (setContext ReflectionContext s2) with
      | (Some msg, s3) => failed msg s3
      | (None, s3) => s3
      end
  end.

(** [listenForResponse], with [next] standing for [this.processNextHabit()]. *)
Definition listenForResponseWith (next : DailyHabitTracker -> option DailyHabitTracker)
    (env : Env) (currentHabit : Habit) (s : DailyHabitTracker)
  : option DailyHabitTracker :=
  if negb (recognition s) then
    Some (handleError "Speech recognition not initialized" s)
  else
    let s1 := updateStatus "Listening for your response..." s in
    match recognitionStart env (setContext (HabitContext currentHabit) s1) with
    | (None, s2) => Some s2
    | (Some msg, s2) =>
        let s3 := handleError ("Error starting speech recognition: " +:+ msg) s2 in
        next (setIndex (currentHabitIndex s3 + 1) s3)
    end.

(** [processNextHabit]; [None] when the given number of nested calls is
    exceeded. *)
Fixpoint processNextHabitWithin (depth : nat) (env : Env) (s : DailyHabitTracker)
  : option DailyHabitTracker :=
  match depth with
  | O => None
  | S depth' =>
      match habitStack s with
      | None =>
          Some (setProcessing false (updateStatus "No habit stack available." s))
      | Some stack =>
          let habits := habitsOf stack in
          match habits !! currentHabitIndex s with
          | None => Some (askForReflection env s)
          | Some currentHabit =>
              let s1 :=
                updateStatus ("Habit " +:+ Js.ofNat (currentHabitIndex s + 1)
                                +:+ ": " +:+ text currentHabit) s in
              let s2 := emit (OnHabitRead currentHabit) s1 in
              match speakText env (habitPrompt currentHabit) s2 with
              | (None, s3) =>
                  listenForResponseWith (processNextHabitWithin depth' env)
                    env currentHabit s3
              | (Some msg, s3) =>
                  let s4 := handleError ("Error processing habit: " +:+ msg) s3 in
                  processNextHabitWithin depth' env
                    (setIndex (currentHabitIndex s4 + 1) s4)
              end
          end
      end
  end.

(** A stack has five slots, so a call nests at most five further calls. *)
Definition processNextHabit (env : Env) (s : DailyHabitTracker)
  : option DailyHabitTracker :=
  processNextHabitWithin 6 env s.

Definition listenForResponse (env : Env) (currentHabit : Habit)
    (s : DailyHabitTracker) : option DailyHabitTracker :=
  listenForResponseWith (processNextHabit env) env currentHabit s.

(** The if-chain of [handleSpeechResult] on the trimmed, lower-cased
    transcript: the response, or [None] for its final [else]. *)
Definition classify (transcript : string) : option string :=
  if Js.includes transcript "yes" || Js.includes transcript "yeah"
     || Js.includes transcript "yep" then Some "yes"
  else if Js.includes transcript "no" || Js.includes transcript "nope"
          || Js.includes transcript "nah" then Some "no"
  else if Js.includes transcript "skip" then Some "skip"
  else None.

(** [handleSpeechResult] for an event whose last result carries [spoken]. *)
Definition handleSpeechResult (env : Env) (spoken : string) (s : DailyHabitTracker)
  : option DailyHabitTracker :=
  let transcript := Js.toLowerCase (Js.trim spoken) in
  match recognitionContext s with
  | Some (HabitContext currentHabit) =>
      match classify transcript with
      | None =>
          match speakText env SORRY_PROMPT s with
          | (None, s1) => listenForResponse env currentHabit s1
          | (Some _, s1) => Some s1
          end
      | Some response =>
          let s1 := setResponses (<[key currentHabit := response]> (responses s)) s in
          let s2 := updateStatus ("Recorded: " +:+ response +:+ " for "
                                    +:+ text currentHabit) s1 in
          let s3 := emit (OnHabitResponse currentHabit response) s2 in
          processNextHabit env (setIndex (currentHabitIndex s3 + 1) s3)
      end
  | Some ReflectionContext =>
      let s1 := updateStatus "Reflection recorded." (setReflection transcript s) in
      Some (submitDailyLog env s1)
  | None => Some s
  end.

(** [handleSpeechError] for an event with error code [err]. *)
Definition handleSpeechError (env : Env) (err : string) (s : DailyHabitTracker)
  : option DailyHabitTracker :=
  let s1 := handleError ("Speech recognition error: " +:+ err) s in
  match recognitionContext s1 with
  | Some (HabitContext _) =>
      processNextHabit env (setIndex (currentHabitIndex s1 + 1) s1)
  | Some ReflectionContext => Some (submitDailyLog env s1)
  | None => Some s1
  end.

Definition handleSpeechEnd (env : Env) (s : DailyHabitTracker)
  : option DailyHabitTracker :=
  if isProcessing s then
    match recognitionContext s with
    | Some (HabitContext habit) =>
        match responses s !! key habit with
        | None | Some "" =>
            listenForResponse env habit
              (updateStatus "No response detected. Trying again..." s)
        | Some _ => Some s
        end
    | _ => Some s
    end
  else Some s.

Definition startDailyCheck (env : Env) (s : DailyHabitTracker)
  : option DailyHabitTracker :=
  if isProcessing s then Some s
  else
    match checkAuthentication s with
    | (false, s1) => Some s1
    | (true, s1) =>
        let s2 := updateStatus "Starting daily habit check..."
                    (emit OnStart (setProcessing true s1)) in
        match fetchHabitStack env s2 with
        | (None, s3) => processNextHabit env (setIndex 0 (setResponses ∅ s3))
        | (Some msg, s3) =>
            Some (setProcessing false
                    (handleError ("Failed to start daily check: " +:+ msg) s3))
        end
    end.

(** What happens to a session: the user's click and the recognition
    events. *)
Inductive Event :=
| Click
| SpeechResult (spoken : string)
| SpeechError (err : string)
| SpeechEnd.

Definition step (env : Env) (s : DailyHabitTracker) (ev : Event)
  : option DailyHabitTracker :=
  match ev with
  | Click => startDailyCheck env s
  | SpeechResult spoken => handleSpeechResult env spoken s
  | SpeechError err => handleSpeechError env err s
  | SpeechEnd => handleSpeechEnd env s
  end.

Fixpoint run (env : Env) (s : DailyHabitTracker) (evs : list Event)
  : option DailyHabitTracker :=
  match evs with
  | [] => Some s
  | ev :: evs' =>
      match step env s ev with
      | Some s' => run env s' evs'
      | None => None
      end
  end.

(** A session to try things on: a stack of two habits, collaborators that
    all answer well. *)
Definition demoStack : gmap string string :=
  <["habit_1" := "Drink water"]> (<["habit_2" := "Stretch"]> ∅).

Definition demoEnv (stack : gmap string string) : Env :=
  {| speakResult := λ _, None;
     startResult := λ _, None;
     stackResult := Response 200 "OK" "" (Json (Some true) "" (Some stack));
     logResult := Response 200 "OK" "" (Json (Some true) "" None) |}.

Definition demoStart : DailyHabitTracker := constructor (Some "user123") "2024-01-10".

(** The session after the click: the first habit has been read out and the
    recognition is listening. *)
Definition demoListening : DailyHabitTracker :=
  default demoStart (run (demoEnv demoStack) demoStart [Click]).

(** The payloads posted to the daily-log endpoint, in order. *)
Fixpoint submitted (l : list Effect) : list Payload :=
  match l with
  | [] => []
  | PostDailyLog p :: l' => p :: submitted l'
  | _ :: l' => submitted l'
  end.

End Tracker.

(** ** The spoken-goals session ([VoiceGoalsInput]) *)

Module Goals.

(** *** The regular expressions of [processTranscriptIntoGoals] *)

(** [[\.\)]] *)
Definition isMarkerEnd (c : ascii) : bool :=
  match c with "." | ")" => true | _ => false end%char.

(** [[^,\.\d\)]] *)
Definition isGoalChar (c : ascii) : bool :=
  match c with
  | "," | "." | ")" => false
  | _ => negb (Js.isDigit c)
  end%char.

(** [/\d+[\.\)]/.test(s)] *)
Fixpoint hasNumberMarker (s : string) : bool :=
  match s with
  | EmptyString => false
  | String c r =>
      (Js.isDigit c && match r with
                       | String d _ => isMarkerEnd d
                       | EmptyString => false
                       end)
      || hasNumberMarker r
  end.

(** Length of the match of [/(\d+[\.\)])([^,\.\d\)]+)/] that starts at the
    first character of [s]. *)
Definition numberedMatch (s : string) : option nat :=
  match Js.takeWhile Js.isDigit s with
  | EmptyString => None
  | digits =>
      match Js.dropWhile Js.isDigit s with
      | String c r =>
          if isMarkerEnd c then
            match Js.takeWhile isGoalChar r with
            | EmptyString => None
            | body => Some (String.length digits + 1 + String.length body)
            end
          else None
      | EmptyString => None
      end
  end.

Definition SPLIT : string := "___SPLIT___".

(** [s.replace(/(\d+[\.\)])([^,\.\d\)]+)/g, '___SPLIT___$1$2')]: the scan
    from left to right, [skip] counting the characters of the current match
    still to be copied. *)
Fixpoint replaceWalk (skip : nat) (s : string) : string :=
  match s with
  | EmptyString => EmptyString
  | String c r =>
      match skip with
      | S k => String c (replaceWalk k r)
      | O =>
          match numberedMatch s with
          | Some (S k) => SPLIT +:+ String c (replaceWalk k r)
          | _ => String c (replaceWalk 0 r)
          end
      end
  end.

Definition markNumbered (s : string) : string := replaceWalk 0 s.

(** [goal.replace(/^\s*\d+[\.\)]\s*/, '')] *)
Definition stripMarker (goal : string) : string :=
  let rest := Js.dropWhile Js.isSpace goal in
  match Js.takeWhile Js.isDigit rest with
  | EmptyString => goal
  | _ =>
      match Js.dropWhile Js.isDigit rest with
      | String c r => if isMarkerEnd c then Js.dropWhile Js.isSpace r else goal
      | EmptyString => goal
      end
  end.

(** The delimiter patterns all have the shape: white space ([\s+] or
    [\s*]), a core, white space again. *)
Inductive Quantifier := Star | Plus.

Inductive Core :=
| Word (w : string)      (* a word, matched case-insensitively *)
| Char (c : ascii)
| NumberMarker.          (* [\d+[\.\)]] *)

Record Pattern := { lead : Quantifier; core : Core; trail : Quantifier }.

Definition splitPatterns : list Pattern :=
  [ {| lead := Plus; core := Word "and"; trail := Plus |};
    {| lead := Star; core := Char ","; trail := Star |};
    {| lead := Plus; core := Word "also"; trail := Plus |};
    {| lead := Star; core := Char "."; trail := Star |};
    {| lead := Star; core := NumberMarker; trail := Star |};
    {| lead := Plus; core := Word "next"; trail := Plus |};
    {| lead := Plus; core := Word "finally"; trail := Plus |};
    {| lead := Plus; core := Word "lastly"; trail := Plus |} ].

(** [w] (in lower case) is a prefix of [s] up to the case of letters. *)
Fixpoint prefixCI (w s : string) : bool :=
  match w, s with
  | EmptyString, _ => true
  | String a w', String b s' => Ascii.eqb a (Js.toLower b) && prefixCI w' s'
  | String _ _, EmptyString => false
  end.

(** Length of the match of the core at the start of [s]. *)
Definition coreLen (c : Core) (s : string) : option nat :=
  match c with
  | Word w => if prefixCI w s then Some (String.length w) else None
  | Char x =>
      match s with
      | String y _ => if Ascii.eqb x y then Some 1 else None
      | EmptyString => None
      end
  | NumberMarker =>
      match Js.takeWhile Js.isDigit s with
      | EmptyString => None
      | digits =>
          match Js.dropWhile Js.isDigit s with
          | String y _ => if isMarkerEnd y then Some (String.length digits + 1) else None
          | EmptyString => None
          end
      end
  end.

Definition enough (q : Quantifier) (n : nat) : bool :=
  match q with Star => true | Plus => negb (n =? 0) end.

Fixpoint drop (n : nat) (s : string) : string :=
  match n, s with
  | S k, String _ r => drop k r
  | _, _ => s
  end.

(** Length of the match of the pattern that starts at the first character
    of [s]. Both runs of white space are as long as possible: no core
    begins with a white-space character. *)
Definition matchLen (p : Pattern) (s : string) : option nat :=
  let n1 := String.length (Js.takeWhile Js.isSpace s) in
  if enough (lead p) n1 then
    match coreLen (core p) (drop n1 s) with
    | Some n2 =>
        let n3 := String.length (Js.takeWhile Js.isSpace (drop (n1 + n2) s)) in
        if enough (trail p) n3 then Some (n1 + n2 + n3) else None
    | None => None
    end
  else None.

(** The loop over [splitPatterns]: [goals] is replaced while it has at most
    one element. *)
Definition splitByPatterns (transcript : string) : list string :=
  foldl (λ goals pattern,
           if length goals <=? 1
           then List.filter Js.nonEmpty (Js.splitBy (matchLen pattern) transcript)
           else goals)
        [] splitPatterns.

Definition processTranscriptIntoGoals (maxGoals : Z) (transcript : string)
  : list string :=
  let goals :=
    if hasNumberMarker transcript then
      map (λ goal, Js.trim (stripMarker goal))
          (List.filter Js.nonEmpty (Js.split (markNumbered transcript) SPLIT))
    else splitByPatterns transcript in
  let goals := Js.slice0 (List.filter Js.nonEmpty (map Js.trim goals)) maxGoals in
  match goals with
  | [] => if Js.nonEmpty (Js.trim transcript) then [Js.trim transcript] else []
  | _ => goals
  end.

(** *** Dates, as the platform's [Date] computes them

    A time value is a number of milliseconds since the epoch, at most
    [maxTime] away from it; a [Date] whose time value is out of this range
    is an invalid date ([None] below). *)

Local Open Scope Z_scope.

Definition msPerDay : Z := 86400000.
Definition maxTime : Z := 8640000000000000.

Definition TimeClip (t : Z) : option Z :=
  if Z.abs t <=? maxTime then Some t else None.

(** The local time zone: the offset from UTC, in milliseconds, in effect at
    a time value ([LocalTZA(t, true)]) and the offset by which the platform
    reads a local time ([LocalTZA(t, false)]). *)
Record Zone := {
  offsetAtUTC : Z → Z;
  offsetAtLocal : Z → Z
}.

(** A zone whose offset never changes. *)
Definition fixedZone (tza : Z) : Zone :=
  {| offsetAtUTC := λ _, tza; offsetAtLocal := λ _, tza |}.

Definition Day (t : Z) : Z := t / msPerDay.
Definition TimeWithinDay (t : Z) : Z := t mod msPerDay.
Definition WeekDay (t : Z) : Z := (Day t + 4) mod 7.
Definition LocalTime (zone : Zone) (t : Z) : Z := t + offsetAtUTC zone t.
Definition UTC (zone : Zone) (t : Z) : Z := t - offsetAtLocal zone t.

(** Year, month (1 to 12) and day of the month of a day number. *)
Definition civilFromDays (d : Z) : Z * Z * Z :=
  let z := d + 719468 in
  let era := z / 146097 in
  let doe := z - era * 146097 in
  let yoe := (doe - doe / 1460 + doe / 36524 - doe / 146096) / 365 in
  let doy := doe - (365 * yoe + yoe / 4 - yoe / 100) in
  let mp := (5 * doy + 2) / 153 in
  let dd := doy - (153 * mp + 2) / 5 + 1 in
  let m := if mp <? 10 then mp + 3 else mp - 9 in
  let y := yoe + era * 400 + (if m <=? 2 then 1 else 0) in
  (y, m, dd).

(** Day number of the first day of a month. *)
Definition daysFromCivil (y m dd : Z) : Z :=
  let y' := if m <=? 2 then y - 1 else y in
  let era := y' / 400 in
  let yoe := y' - era * 400 in
  let doy := (153 * (if 2 <? m then m - 3 else m + 9) + 2) / 5 + dd - 1 in
  let doe := yoe * 365 + yoe / 4 - yoe / 100 + doy in
  era * 146097 + doe - 719468.

(** [getDay()] and [getDate()] of a valid date. *)
Definition getDay (zone : Zone) (t : Z) : Z := WeekDay (LocalTime zone t).
Definition getDate (zone : Zone) (t : Z) : Z :=
  (civilFromDays (Day (LocalTime zone t))).2.

(** [setDate(dt)] on a valid date: the day [dt] of the local month of [t],
    at the local time of day of [t]; out-of-range [dt] runs into the
    neighbouring months. The local time so made is read with the offset the
    zone has there, and the date is invalid if the result is out of
    range. *)
Definition setDate (zone : Zone) (t dt : Z) : option Z :=
  let lt := LocalTime zone t in
  let '(y, m, _) := civilFromDays (Day lt) in
  TimeClip (UTC zone ((daysFromCivil y m 1 + dt - 1) * msPerDay + TimeWithinDay lt)).

Definition digit (n : Z) : ascii := ascii_of_N (48 + Z.to_N (n mod 10)).

Definition pad2 (n : Z) : string :=
  String (digit (n / 10)) (String (digit n) EmptyString).

Definition pad4 (n : Z) : string := pad2 (n / 100) +:+ pad2 n.

(** [toISOString().split('T')[0]] of a valid date: the UTC date of the time
    value. *)
Definition isoDate (t : Z) : string :=
  let '(y, m, dd) := civilFromDays (Day t) in
  let year :=
    if (0 <=? y) && (y <=? 9999) then pad4 y
    else (if y <? 0 then "-" else "+") +:+ pad2 (Z.abs y / 10000) +:+ pad4 (Z.abs y) in
  year +:+ "-" +:+ pad2 m +:+ "-" +:+ pad2 dd.

(** The week start [sendGoalsToBackend] computes at time [now]; [None] when
    [toISOString] throws its [RangeError] for an invalid date. *)
Definition weekStartFormatted (zone : Zone) (now : Z) : option string :=
  match TimeClip now with
  | Some currentDate =>
      let day := getDay zone currentDate in
      isoDate <$> setDate zone currentDate (getDate zone currentDate - day)
  | None => None
  end.

Local Close Scope Z_scope.

(** *** The session *)

Record ErrorInfo := { error : string; message : string }.

Record FinalResult := {
  transcript : string;
  goals : list string;
  requiresConfirmation : bool
}.

Record Payload := {
  user_id : string;
  week_start : string;
  p_goals : list string;
  goal_fields : list string    (* [goal_1], [goal_2], ... *)
}.

Inductive Effect :=
| RecognitionStart
| RecognitionStop
| OnStartListening
| OnStopListening
| OnTranscripts (interimTranscript finalTranscript completeTranscript : string)
| OnResult (response : string)
| OnFinalResult (r : FinalResult)
| OnError (info : ErrorInfo)
| PostGoals (payload : Payload).

(** The body of a response with an OK status: not JSON ([response.json()]
    rejects with a [SyntaxError] of the given message), or the parsed data
    with its [success] and [error] fields. *)
Inductive Body :=
| Unparsable (syntaxError : string)
| Json (success : option bool) (bodyError : string) (data : string).

(** A settled [fetch] of the goals endpoint: the request was aborted by the
    time-out, failed in transport, or got a response; [errorField] is
    [errorData.error] of a response whose status is not OK. *)
Inductive FetchResult :=
| Aborted
| Failed (msg : string)
| Response (status : nat) (statusText : string) (errorField : string) (body : Body).

Record Env := {
  zone : Zone;                   (* the local time zone *)
  now : Z;                       (* the clock at submission *)
  invalidTime : string;          (* message of the [RangeError] of an invalid date *)
  startThrows : bool;
  stopThrows : bool;
  postResult : FetchResult
}.

Record VoiceGoalsInput := {
  userId : option string;
  maxGoals : Z;
  recognition : bool;
  isListening : bool;
  lastResults : list string;
  trace : list Effect
}.

Definition emit (ev : Effect) (s : VoiceGoalsInput) : VoiceGoalsInput :=
  {| userId := userId s; maxGoals := maxGoals s; recognition := recognition s;
     isListening := isListening s; lastResults := lastResults s;
     trace := trace s ++ [ev] |}.

Definition setListening (b : bool) (s : VoiceGoalsInput) : VoiceGoalsInput :=
  {| userId := userId s; maxGoals := maxGoals s; recognition := recognition s;
     isListening := b; lastResults := lastResults s; trace := trace s |}.

Definition setLastResults (l : list string) (s : VoiceGoalsInput) : VoiceGoalsInput :=
  {| userId := userId s; maxGoals := maxGoals s; recognition := recognition s;
     isListening := isListening s; lastResults := l; trace := trace s |}.

(** The constructor: [options.maxGoals || 5] and [options.userId]. *)
Definition constructor (optMaxGoals : option Z) (optUserId : option string)
  : VoiceGoalsInput :=
  {| userId := match optUserId with Some "" => None | u => u end;
     maxGoals := match optMaxGoals with
                 | None | Some 0%Z => 5%Z
                 | Some m => m
                 end;
     recognition := true; isListening := false; lastResults := []; trace := [] |}.

Definition getUserId (s : VoiceGoalsInput) : option string :=
  match userId s with
  | Some "" => None
  | u => u
  end.

Definition onError (e m : string) (s : VoiceGoalsInput) : VoiceGoalsInput :=
  emit (OnError {| error := e; message := m |}) s.

Definition onAuthRequired (s : VoiceGoalsInput) : VoiceGoalsInput :=
  onError "auth_required" "Authentication required. Please login first." s.

Definition startListening (env : Env) (s : VoiceGoalsInput) : VoiceGoalsInput :=
  match getUserId s with
  | None => onAuthRequired s
  | Some _ =>
      if negb (recognition s) then
        onError "recognition_not_initialized" "Speech recognition is not initialized" s
      else if isListening s then s
      else if startThrows env then
        onError "start_error" "Error starting speech recognition" (emit RecognitionStart s)
      else setListening true (emit RecognitionStart s)
  end.

Definition stopListening (env : Env) (s : VoiceGoalsInput) : VoiceGoalsInput :=
  if negb (recognition s) || negb (isListening s) then s
  else if stopThrows env then
    onError "stop_error" "Error stopping speech recognition" (emit RecognitionStop s)
  else setListening false (emit RecognitionStop s).

Definition rethrown (msg : string) : string :=
  if Js.includes msg "NetworkError" || Js.includes msg "Failed to fetch"
  then "Network error. Please check your connection and try again."
  else msg.

Definition orElse (s d : string) : string := if decide (s = "") then d else s.

Definition isOk (status : nat) : bool := (200 <=? status) && (status <=? 299).

(** [sendGoalsToBackend]: the response data, or the message of the error it
    rejects with. *)
Definition sendGoalsToBackend (env : Env) (gs : list string) (s : VoiceGoalsInput)
  : (string + string) * VoiceGoalsInput :=
  let fail (msg : string) (st : VoiceGoalsInput) :=
    (inr msg, onError "backend_error" ("Error sending goals to backend: " +:+ msg) st) in
  match gs with
  | [] => fail "Goals must be a non-empty array" s
  | _ =>
      match getUserId s with
      | None => fail "Authentication required. Please login first." (onAuthRequired s)
      | Some uid =>
          match weekStartFormatted (zone env) (now env) with
          | None => fail (invalidTime env) s
          | Some weekStart =>
              let payload :=
                {| user_id := uid;
                   week_start := weekStart;
                   p_goals := gs;
                   goal_fields := take (Z.to_nat (maxGoals s)) gs |} in
              let s1 := emit (PostGoals payload) s in
              match postResult env with
              | Aborted =>
                  fail "Request timed out. Please check your connection and try again." s1
              | Failed msg => fail (rethrown msg) s1
              | Response status statusText errorField body =>
                  if negb (isOk status) then
                    if status =? 401 then
                      fail (rethrown "Authentication required. Please log in first.")
                           (onAuthRequired s1)
                    else if status =? 400 then
                      fail (rethrown ("Bad request: "
                                        +:+ orElse errorField "Invalid input")) s1
                    else if status =? 429 then
                      fail (rethrown "Server is busy. Please try again later.") s1
                    else if 500 <=? status then
                      fail (rethrown ("Server error: "
                                        +:+ orElse errorField "Internal server error")) s1
                    else
                      fail (rethrown ("API error (" +:+ Js.ofNat status +:+ "): "
                                        +:+ orElse errorField statusText)) s1
                  else
                    match body with
                    | Unparsable syntaxError => fail (rethrown syntaxError) s1
                    | Json (Some false) bodyError _ =>
                        fail (rethrown (orElse bodyError "Unknown API error")) s1
                    | Json _ _ data => (inl data, s1)
                    end
              end
          end
      end
  end.

Definition handleStart (s : VoiceGoalsInput) : VoiceGoalsInput :=
  emit OnStartListening (setLastResults [] s).

Definition requestConfirmation (t : string) (gs : list string) (s : VoiceGoalsInput)
  : VoiceGoalsInput :=
  emit (OnFinalResult {| transcript := t; goals := gs; requiresConfirmation := true |}) s.

Definition handleEnd (s : VoiceGoalsInput) : VoiceGoalsInput :=
  let s1 := emit OnStopListening (setListening false s) in
  let finalTranscript := Js.join (lastResults s1) " " in
  if Js.nonEmpty (Js.trim finalTranscript) then
    requestConfirmation finalTranscript
      (processTranscriptIntoGoals (maxGoals s1) finalTranscript) s1
  else s1.

Definition sendConfirmedGoals (env : Env) (gs : list string) (s : VoiceGoalsInput)
  : VoiceGoalsInput :=
  match getUserId s with
  | None => onAuthRequired s
  | Some _ =>
      match sendGoalsToBackend env gs s with
      | (inl response, s1) => emit (OnResult response) s1
      | (inr msg, s1) => onError "process_error" ("Error processing goals: " +:+ msg) s1
      end
  end.

(** [handleResult] for the results of the event from [resultIndex] on, each
    with its transcript and [isFinal]. *)
Definition handleResult (results : list (string * bool)) (s : VoiceGoalsInput)
  : VoiceGoalsInput :=
  let '(interimTranscript, finalTranscript, s1) :=
    foldl (λ '(interim, final, st) '(t, isFinal),
             if isFinal : bool
             then (interim, final +:+ t, setLastResults (lastResults st ++ [Js.trim t]) st)
             else (interim +:+ t, final, st))
          (EmptyString, EmptyString, s) results in
  emit (OnTranscripts interimTranscript finalTranscript
          (Js.join (lastResults s1) " " +:+ " " +:+ interimTranscript)) s1.

Definition handleError (err : string) (s : VoiceGoalsInput) : VoiceGoalsInput :=
  onError err ("Speech recognition error: " +:+ err) (setListening false s).

(** What happens to a session: calls of its entry points by the page and
    events of the recognition engine. *)
Inductive Event :=
| StartListening
| StopListening
| RecStart
| RecEnd
| RecResult (results : list (string * bool))
| RecError (err : string)
| SendConfirmedGoals (gs : list string).

Definition step (env : Env) (s : VoiceGoalsInput) (ev : Event) : VoiceGoalsInput :=
  match ev with
  | StartListening => startListening env s
  | StopListening => stopListening env s
  | RecStart => handleStart s
  | RecEnd => handleEnd s
  | RecResult results => handleResult results s
  | RecError err => handleError err s
  | SendConfirmedGoals gs => sendConfirmedGoals env gs s
  end.

(** The network submissions made so far. *)
Fixpoint posts (l : list Effect) : list Payload :=
  match l with
  | [] => []
  | PostGoals p :: l' => p :: posts l'
  | _ :: l' => posts l'
  end.


Fixpoint run (s : VoiceGoalsInput) (evs : list (Env * Event)) : VoiceGoalsInput :=
  match evs with
  | [] => s
  | (env, ev) :: evs' => run (step env s ev) evs'
  end.

(** *** Two descriptions of the numbered path, to compare the code with *)







End Goals.

(** ** The dispatcher over time: its audio listeners and sequences of calls *)

Module TTSOps.
Import TTS.

(** The three listeners [handleAudioElement] attaches to the audio element:
    [ended], [error], and the rejection of [play()]. *)
Definition onEnded (s : TTSService) : TTSService :=
  emit OnComplete (setAudio None (setPlaying false s)).

Definition onAudioError (s : TTSService) : TTSService :=
  emit (OnError "Audio playback error") (setAudio None (setPlaying false s)).

Definition onPlayRejected (e : Error) (s : TTSService) : TTSService :=
  emit (OnError e) (setAudio None (setPlaying false s)).

(** What can happen to a service after its construction. *)
Inductive Op :=
| Speak (w : World) (text : string)
| Stop
| SwitchToNext
| Ended
| AudioError
| PlayRejected (e : Error).

Definition apply (s : TTSService) (op : Op) : TTSService :=
  match op with
  | Speak w text => (speak w text s).2
  | Stop => stop s
  | SwitchToNext => (switchToNextProvider s).2
  | Ended => onEnded s
  | AudioError => onAudioError s
  | PlayRejected e => onPlayRejected e s
  end.

Definition runOps (s : TTSService) (ops : list Op) : TTSService := foldl apply s ops.

(** The provider changes announced to [onProviderChange], in order: the
    names of the previous and of the new provider. *)
Fixpoint changes (l : list Effect) : list (option string * option string) :=
  match l with
  | [] => []
  | ProviderChanged prev next :: l' => (prev, next) :: changes l'
  | _ :: l' => changes l'
  end.

(** A service with the on-device provider alone. *)
Definition soloService : TTSService := constructor [webSpeechProvider] None.

(** A service whose active provider hands back audio elements. *)
Definition fishFirstService : TTSService :=
  constructor [fishAudioProvider; webSpeechProvider] (Some "FishAudio").

(** A world in which every provider answers: with audio element [7] or by
    calling [onComplete]. *)
Definition allUp : World := λ _ _ _, Resolves (Some 7) [CbComplete].

(** That service while it plays a first text. *)
Definition fishPlaying : TTSService := (speak allUp "One" fishFirstService).2.

(** A world in which the on-device provider reports its error to the
    [onError] it was given and then rejects, and the other provider hands
    back audio element [7]. *)
Definition synthesisFails : World :=
  λ p _ _, if decide (p = "WebSpeech")
           then Rejects "Speech synthesis error: network"
                  [CbError "Speech synthesis error: network"]
           else Resolves (Some 7) [].

(** The operations [ops], run from state [s], leave the choice of the
    provider alone: none of them is an explicit switch, and every [speak]
    among them is refused for its empty text or has a first attempt that
    succeeds. *)
Fixpoint keepsProvider (s : TTSService) (ops : list Op) : Prop :=
  match ops with
  | [] => True
  | op :: ops' =>
      match op with
      | Speak w text =>
          text = "" ∨ ∃ audio cbs, firstOutcome w text s = Some (Resolves audio cbs)
      | SwitchToNext => False
      | _ => True
      end
      ∧ keepsProvider (apply s op) ops'
  end.

(** A service to which the on-device provider was handed twice: its name is
    in the list of names twice. After two calls of [speak] with every
    provider down the second of the two entries is the active one. *)
Definition twiceRegistered : TTSService :=
  constructor [webSpeechProvider; fishAudioProvider; webSpeechProvider] None.

Definition twiceRegisteredAtLast : TTSService :=
  runOps twiceRegistered [Speak allDown "One"; Speak allDown "Two"].

(** The names the constructor registers: those of the providers that have
    one. *)
Definition registeredNames (ps : list Provider) : list string :=
  List.filter (λ n, negb (String.eqb n "")) (name <$> ps).

End TTSOps.

(** ** The check-in session over time: what it fetched and whom it asked *)

Module TrackerOps.
Import Tracker.

(** The stack a fetch delivers: the response is a success, its body does not
    say [success: false], and it carries a [habit_stack]. *)
Definition delivered (env : Env) : option (gmap string string) :=
  match stackResult env with
  | Response status _ _ (Json ok _ (Some stack)) =>
      if isOk status then
        match ok with Some false => None | _ => Some stack end
      else None
  | _ => None
  end.

(** The requests for the habit stack made so far. *)
Definition fetchCount (l : list Effect) : nat :=
  length (List.filter (λ ev, match ev with GetHabitStack _ _ => true | _ => false end) l).

(** Collaborators of which the stack endpoint answers 404. *)
Definition noStackEnv : Env :=
  {| speakResult := λ _, None;
     startResult := λ _, None;
     stackResult := Response 404 "Not Found" "No habit stack" Unparsable;
     logResult := Response 200 "OK" "" (Json (Some true) "" None) |}.

(** A stack of three habits, and collaborators of which the third call of
    the speech output fails. *)
Definition threeHabits : gmap string string :=
  <["habit_1" := "Drink water"]>
    (<["habit_2" := "Stretch"]> (<["habit_3" := "Read"]> ∅)).

Definition thirdSpeechFails : Env :=
  {| speakResult := λ k, if k =? 2 then Some "synthesis-failed" else None;
     startResult := λ _, None;
     stackResult := Response 200 "OK" "" (Json (Some true) "" (Some threeHabits));
     logResult := Response 200 "OK" "" (Json (Some true) "" None) |}.

(** That session after the click: it listens for the first of the three
    habits. *)
Definition listeningFirstOfThree : DailyHabitTracker :=
  default demoStart (run thirdSpeechFails demoStart [Click]).

(** That session at the moment [handleSpeechError] calls [processNextHabit]
    for the second time: a recognition error has ended the first habit,
    another one the second. *)
Definition secondErrorOfThree : DailyHabitTracker :=
  let s := default demoStart
             (run thirdSpeechFails demoStart [Click; SpeechError "no-speech"]) in
  setIndex (currentHabitIndex s + 1)
    (handleError "Speech recognition error: no-speech" s).

(** The demo session after the click and an answer to each of its two
    habits: the reflection has been asked for. *)
Definition demoReflecting : DailyHabitTracker :=
  default demoStart
    (run (demoEnv demoStack) demoStart
       [Click; SpeechResult "yes"; SpeechResult "no"]).

(** The calls of the completion callback, in order. *)
Fixpoint completions (l : list Effect) : list Completion :=
  match l with
  | [] => []
  | OnComplete c :: l' => c :: completions l'
  | _ :: l' => completions l'
  end.

(** The speech output and the recognition never fail. *)
Definition voiceWorks (env : Env) : Prop :=
  (∀ k, speakResult env k = None) ∧ (∀ k, startResult env k = None).

(** What the recognition listens for when the habit index is [i]: the
    habit at [i], or the reflection after the last habit. *)
Definition contextAt (stack : gmap string string) (i : nat) : option Context :=
  match habitsOf stack !! i with
  | Some h => Some (HabitContext h)
  | None => Some ReflectionContext
  end.

(** The spoken answer [spoken] is understood as the response [r]. *)
Definition understoodAs (spoken r : string) : Prop :=
  classify (Js.toLowerCase (Js.trim spoken)) = Some r.

(** The keys of the five slots of a stack. *)
Definition slotKeys : list string :=
  ["habit_1"; "habit_2"; "habit_3"; "habit_4"; "habit_5"].

(** The responses the session records. *)
Definition answers : list string := ["yes"; "no"; "skip"].

(** What the session has on record is in order: every response is one of the
    three answers, filed under the key of a slot, and the habit being listened
    for, if any, is the habit of a slot. *)
Definition recordsValid (s : DailyHabitTracker) : Prop :=
  (∀ k v, responses s !! k = Some v → k ∈ slotKeys ∧ v ∈ answers)
  ∧ (∀ h, recognitionContext s = Some (HabitContext h) → key h ∈ slotKeys).

End TrackerOps.

(** ** [categorizeHabits] of the motivational prompts *)

Module Prompts.

Record Categorized := {
  completed : list string;
  notCompleted : list string;
  skipped : list string
}.

(** The callback of [habits.forEach]: [responses[index]] is [undefined]
    beyond the end of [responses]. *)
Definition visit (responses : list string) (categorized : Categorized)
    (habit : string) (index : nat) : Categorized :=
  match responses !! index with
  | Some response =>
      if decide (response = "yes") then
        {| completed := completed categorized ++ [habit];
           notCompleted := notCompleted categorized;
           skipped := skipped categorized |}
      else if decide (response = "no") then
        {| completed := completed categorized;
           notCompleted := notCompleted categorized ++ [habit];
           skipped := skipped categorized |}
      else if decide (response = "skip") then
        {| completed := completed categorized;
           notCompleted := notCompleted categorized;
           skipped := skipped categorized ++ [habit] |}
      else categorized
  | None => categorized
  end.

(** [forEach] from position [index] on. *)
Fixpoint forEachFrom (responses : list string) (index : nat) (habits : list string)
    (categorized : Categorized) : Categorized :=
  match habits with
  | [] => categorized
  | habit :: rest =>
      forEachFrom responses (S index) rest (visit responses categorized habit index)
  end.

Definition categorizeHabits (habits responses : list string) : Categorized :=
  forEachFrom responses 0 habits
    {| completed := []; notCompleted := []; skipped := [] |}.

(** The habits whose response, at the same position, is [r]. *)
Fixpoint answeredWith (r : string) (habits responses : list string) : list string :=
  match habits, responses with
  | habit :: hs, response :: rs =>
      if decide (response = r) then habit :: answeredWith r hs rs
      else answeredWith r hs rs
  | _, _ => []
  end.

(** One of the three responses the tracker records. *)
Definition isAnswer (r : string) : Prop := r = "yes" ∨ r = "no" ∨ r = "skip".

End Prompts.

(** ** The voices of [WebSpeechProvider] *)

Module WebSpeech.

Record Voice := { name : string; lang : string }.

(** The provider's fields that the choice of a voice reads and writes;
    [calls] counts the calls of [synth.getVoices] and [waits] the delays
    waited for so far. *)
Record WebSpeechProvider := {
  voiceName : option string;
  p_lang : string;
  voices : list Voice;
  calls : nat;
  waits : nat
}.

(** The constructor: [options.voiceName || null], [options.lang || 'en-US'],
    and the first [loadVoices]. *)
Definition constructor (getVoices : nat → list Voice)
    (optVoiceName optLang : option string) : WebSpeechProvider :=
  {| voiceName := match optVoiceName with Some "" => None | n => n end;
     p_lang := match optLang with Some "" | None => "en-US" | Some l => l end;
     voices := getVoices 0; calls := 1; waits := 0 |}.

Definition loadVoices (getVoices : nat → list Voice) (p : WebSpeechProvider)
  : WebSpeechProvider :=
  {| voiceName := voiceName p; p_lang := p_lang p;
     voices := getVoices (calls p); calls := S (calls p); waits := waits p |}.

Definition wait (p : WebSpeechProvider) : WebSpeechProvider :=
  {| voiceName := voiceName p; p_lang := p_lang p;
     voices := voices p; calls := calls p; waits := S (waits p) |}.

Definition exactMatch (n : string) (voice : Voice) : bool :=
  bool_decide (Js.toLowerCase (name voice) = Js.toLowerCase n).

Definition partialMatch (n : string) (voice : Voice) : bool :=
  Js.includes (Js.toLowerCase (name voice)) (Js.toLowerCase n).

Definition langMatch (l : string) (voice : Voice) : bool :=
  bool_decide (Js.toLowerCase (lang voice) = Js.toLowerCase l).

(** The choice among the voices at hand. *)
Definition choose (voiceName : option string) (l : string) (vs : list Voice)
  : option Voice :=
  match vs with
  | [] => None
  | first :: _ =>
      let byName :=
        match voiceName with
        | Some n =>
            match List.find (exactMatch n) vs with
            | Some v => Some v
            | None => List.find (partialMatch n) vs
            end
        | None => None
        end in
      match byName with
      | Some v => Some v
      | None =>
          match List.find (langMatch l) vs with
          | Some v => Some v
          | None => Some first
          end
      end
  end.

Definition findVoice (getVoices : nat → list Voice) (p : WebSpeechProvider)
  : option Voice * WebSpeechProvider :=
  let p1 := match voices p with [] => loadVoices getVoices p | _ => p end in
  (choose (voiceName p1) (p_lang p1) (voices p1), p1).

(** The [while] loop of [findVoiceWithRetry] with [retriesLeft] turns to go.
    The length of each delay is left out. *)
Fixpoint retry (getVoices : nat → list Voice) (retriesLeft : nat)
    (p : WebSpeechProvider) : option Voice * WebSpeechProvider :=
  match retriesLeft with
  | O => (None, p)
  | S k =>
      match findVoice getVoices (loadVoices getVoices (wait p)) with
      | (Some v, p1) => (Some v, p1)
      | (None, p1) => retry getVoices k p1
      end
  end.

Definition findVoiceWithRetry (getVoices : nat → list Voice) (maxRetries : nat)
    (p : WebSpeechProvider) : option Voice * WebSpeechProvider :=
  match findVoice getVoices p with
  | (Some v, p1) => (Some v, p1)
  | (None, p1) => retry getVoices maxRetries p1
  end.

(** Voices to try things on. *)
Definition samantha : Voice := {| name := "Samantha"; lang := "en-US" |}.
Definition amelie : Voice := {| name := "Amelie"; lang := "fr-CA" |}.
Definition samanthaEnhanced : Voice :=
  {| name := "Samantha (Enhanced)"; lang := "en-US" |}.

(** A browser that has its voices ready from the fourth call on. *)
Definition slowBrowser (k : nat) : list Voice :=
  if k <? 3 then [] else [amelie; samantha].

End WebSpeech.

(** ** The voice goals input over time: what was heard, what was reported *)

Module GoalsOps.
Import Goals.

(** Nothing to trim at the front. *)
Definition startsClean (s : string) : Prop :=
  match s with
  | String c _ => Js.isSpace c = false
  | EmptyString => True
  end.

(** The transcripts of the final results of an event, and of the others. *)
Fixpoint finals (results : list (string * bool)) : list string :=
  match results with
  | [] => []
  | (t, true) :: rest => t :: finals rest
  | (_, false) :: rest => finals rest
  end.

Fixpoint interims (results : list (string * bool)) : list string :=
  match results with
  | [] => []
  | (t, false) :: rest => t :: interims rest
  | (_, true) :: rest => interims rest
  end.

Definition concatS (l : list string) : string := foldr String.append "" l.

Definition authRequired : ErrorInfo :=
  {| error := "auth_required";
     message := "Authentication required. Please login first." |}.

Definition backendError (cause : string) : ErrorInfo :=
  {| error := "backend_error";
     message := "Error sending goals to backend: " +:+ cause |}.

Definition processError (cause : string) : ErrorInfo :=
  {| error := "process_error"; message := "Error processing goals: " +:+ cause |}.

(** The calendar date, in the local zone, of the most recent Sunday on or
    before the local day of [now]: the words of the specification for
    [week_start]. *)
Definition localSunday (zone : Zone) (now : Z) : string :=
  isoDate (LocalTime zone now - getDay zone now * msPerDay)%Z.

(** A zone nine hours ahead of UTC, and a Wednesday morning there:
    2024-01-10 08:00 local time, which is 2024-01-09 23:00 UTC. *)
Definition nineAhead : Zone := fixedZone (9 * 3600000)%Z.
Definition wednesdayMorning : Z := 1704841200000%Z.

(** A zone five hours behind UTC, and a Sunday evening there:
    2024-01-07 20:00 local time, which is 2024-01-08 01:00 UTC. *)
Definition fiveBehind : Zone := fixedZone (- 5 * 3600000)%Z.
Definition sundayEvening : Z := 1704675600000%Z.

(** A browser in the given zone at the given time, with an endpoint that
    accepts the goals. *)
Definition acceptingEnv (zone : Zone) (now : Z) : Env :=
  {| zone := zone; now := now; invalidTime := "Invalid time value";
     startThrows := false; stopThrows := false;
     postResult := Response 200 "OK" "" (Json (Some true) "" "saved") |}.

(** The data of a response that accepts the goals: the status is OK, the
    body is JSON and does not say [success: false]. *)
Definition accepted (env : Env) : option string :=
  match postResult env with
  | Response status _ _ (Json success _ data) =>
      if isOk status then
        match success with Some false => None | _ => Some data end
      else None
  | _ => None
  end.

(** The endpoint answers with status 401. *)
Definition unauthorized (env : Env) : bool :=
  match postResult env with
  | Response status _ _ _ => status =? 401
  | _ => false
  end.

End GoalsOps.

(** ** Facts about the dispatcher *)

Module TTSFacts.
Import TTS TTSOps.

(** Two states with the same registered providers and active index. *)
Definition sameConfig (s s' : TTSService) : Prop :=
  providers s' = providers s ∧ providerNames s' = providerNames s ∧
  currentProviderIndex s' = currentProviderIndex s.

(** [s'] extends the trace of [s] by [d]. *)
Definition extends (s s' : TTSService) (d : list Effect) : Prop :=
  trace s' = trace s ++ d.

Lemma sameConfig_refl s : sameConfig s s.
Proof. by repeat split. Qed.

Lemma sameConfig_trans s1 s2 s3 :
  sameConfig s1 s2 → sameConfig s2 s3 → sameConfig s1 s3.
Proof. intros (?&?&?) (?&?&?); repeat split; congruence. Qed.

Lemma sameConfig_current s s' :
  sameConfig s s' → getCurrentProvider s' = getCurrentProvider s.
Proof. intros (Hp&Hn&Hi). unfold getCurrentProvider. by rewrite Hp, Hn, Hi. Qed.

Lemma sameConfig_wf s s' : sameConfig s s' → wf s → wf s'.
Proof. intros (Hp&Hn&Hi) Hwf. unfold wf. by rewrite Hp, Hn, Hi. Qed.

Lemma attempts_app l1 l2 : attempts (l1 ++ l2) = attempts l1 ++ attempts l2.
Proof.
  induction l1 as [|ev l1 IH]; [done|].
  destruct ev; simpl; by rewrite ?IH.
Qed.

Lemma extends_trans s1 s2 s3 d1 d2 :
  extends s1 s2 d1 → extends s2 s3 d2 → extends s1 s3 (d1 ++ d2).
Proof. unfold extends. intros -> ->. by rewrite <-(assoc_L (++)). Qed.

Lemma extends_nil s : extends s s [].
Proof. unfold extends. by rewrite (right_id_L [] (++)). Qed.

Lemma emit_extends ev s : extends s (emit ev s) [ev].
Proof. done. Qed.

(** [stop] calls no provider's [speak] and leaves the configuration alone. *)
Lemma stop_spec s :
  sameConfig s (stop s) ∧ ∃ d, extends s (stop s) d ∧ attempts d = [].
Proof.
  unfold stop. destruct (getCurrentProvider s) as [p|];
    [|split; [apply sameConfig_refl|exists []; split; [apply extends_nil|done]]].
  destruct (isPlaying s);
    [|split; [apply sameConfig_refl|exists []; split; [apply extends_nil|done]]].
  split; [by destruct (currentAudio s), (hasStop p)|].
  destruct (currentAudio s) as [a|], (hasStop p); unfold extends; simpl.
  - exists [AudioPause a; ProviderStop (name p)]. by rewrite <-(assoc_L (++)).
  - by exists [AudioPause a].
  - by exists [ProviderStop (name p)].
  - exists []. by rewrite (right_id_L [] (++)).
Qed.

Lemma runCallbacks_spec cbs s :
  sameConfig s (foldl runCallback s cbs)
  ∧ ∃ d, extends s (foldl runCallback s cbs) d ∧ attempts d = [].
Proof.
  revert s. induction cbs as [|cb cbs IH]; intros s; simpl.
  - split; [apply sameConfig_refl|exists []; split; [apply extends_nil|done]].
  - destruct (IH (runCallback s cb)) as (Hc & d & Hd & Ha).
    assert (sameConfig s (runCallback s cb)) as Hc0 by by destruct cb.
    split; [by eapply sameConfig_trans|].
    destruct cb as [|e].
    + exists (OnComplete :: d). split; [|done].
      apply (extends_trans s (runCallback s CbComplete) _ [OnComplete] d); [done|exact Hd].
    + exists (OnError e :: d). split; [|done].
      apply (extends_trans s (runCallback s (CbError e)) _ [OnError e] d); [done|exact Hd].
Qed.

(** What a single attempt on the current provider [p] does. *)
Lemma tryCurrentProvider_spec w text s p :
  getCurrentProvider s = Some p →
  let outcome := w (name p) text (length (attempts (trace s))) in
  let r := tryCurrentProvider w text s in
  r.1 = match outcome with Rejects e _ => Some e | Resolves _ _ => None end
  ∧ sameConfig s r.2
  ∧ ∃ d, extends s r.2 (ProviderSpeak (name p) text :: d) ∧ attempts d = [].
Proof.
  intros Hp outcome r. subst r. unfold tryCurrentProvider. rewrite Hp.
  fold outcome. set (s1 := emit (ProviderSpeak (name p) text) s).
  destruct (capability p), outcome as [au cbs|e cbs]; simpl.
  - split; [done|]. destruct au as [a|]; simpl.
    + split; [done|]. by exists [AudioPlay a]; unfold extends; simpl; rewrite <-(assoc_L (++)).
    + split; [done|].
      exists [OnError "No audio element returned from provider"].
      unfold extends; simpl. by rewrite <-(assoc_L (++)).
  - split; [done|]. split; [done|]. by exists [].
  - split; [done|]. destruct (runCallbacks_spec cbs s1) as (Hc & d & Hd & Ha).
    split; [apply (sameConfig_trans s s1); [done|exact Hc]|].
    exists d. split; [|done]. apply (extends_trans s s1 _ [_] d); [done|exact Hd].
  - split; [done|]. destruct (runCallbacks_spec cbs s1) as (Hc & d & Hd & Ha).
    split; [apply (sameConfig_trans s s1); [done|exact Hc]|].
    exists d. split; [|done]. apply (extends_trans s s1 _ [_] d); [done|exact Hd].
Qed.

Lemma wf_lookup s i n :
  wf s → providerNames s !! i = Some n →
  ∃ p, providers s !! n = Some p ∧ name p = n.
Proof. intros [_ H] Hi. apply H. by eapply list_elem_of_lookup_2. Qed.

Lemma getCurrentProvider_lookup s a p :
  providerNames s !! currentProviderIndex s = Some a →
  providers s !! a = Some p →
  getCurrentProvider s = Some p.
Proof.
  intros Ha Hp. unfold getCurrentProvider.
  destruct (providerNames s) as [|x l] eqn:E; [done|].
  by rewrite Ha; simpl.
Qed.

Lemma switchToNextProvider_spec s :
  2 ≤ length (providerNames s) →
  let r := switchToNextProvider s in
  r.1 = true ∧ providers r.2 = providers s ∧ providerNames r.2 = providerNames s
  ∧ currentProviderIndex r.2
    = (currentProviderIndex s + 1) mod length (providerNames s)
  ∧ isPlaying r.2 = isPlaying s
  ∧ ∃ ev, extends s r.2 [ev] ∧ attempts [ev] = [].
Proof.
  intros Hn r. subst r. unfold switchToNextProvider.
  destruct (length (providerNames s) <=? 1) eqn:E;
    [apply Nat.leb_le in E; lia|].
  simpl. repeat split. by eexists.
Qed.

(** The whole of a [speak] call whose first attempt fails. *)
Lemma speak_failover w text s e cbs :
  wf s → 2 ≤ length (providerNames s) → text ≠ "" →
  firstOutcome w text s = Some (Rejects e cbs) →
  ∃ a b s' d,
    providerNames s !! currentProviderIndex s = Some a
    ∧ providerNames s
        !! ((currentProviderIndex s + 1) mod length (providerNames s)) = Some b
    ∧ speak w text s = (Fulfilled, s')
    ∧ providers s' = providers s ∧ providerNames s' = providerNames s
    ∧ currentProviderIndex s'
      = (currentProviderIndex s + 1) mod length (providerNames s)
    ∧ extends s s' d ∧ attempts d = [a; b]
    ∧ match w b text (S (length (attempts (trace s)))) with
      | Rejects e2 _ => isPlaying s' = false ∧ last d = Some (OnError e2)
      | Resolves _ _ => True
      end.
Proof.
  intros Hwf Hn Htext Hfirst.
  set (n := length (providerNames s)) in *.
  set (i := currentProviderIndex s) in *.
  assert (i < n) as Hi.
  { destruct Hwf as [[Hnil|Hlt] _]; [|done].
    subst n. rewrite Hnil in Hn. simpl in Hn. lia. }
  destruct (lookup_lt_is_Some_2 (providerNames s) i Hi) as [a Ha].
  destruct (wf_lookup s i a Hwf Ha) as (pa & Hpa & Hna).
  assert ((i + 1) mod n < n) as Hj by (apply Nat.mod_upper_bound; lia).
  destruct (lookup_lt_is_Some_2 (providerNames s) _ Hj) as [b Hb].
  destruct (wf_lookup s _ b Hwf Hb) as (pb & Hpb & Hnb).
  assert (getCurrentProvider s = Some pa) as Hcur
    by by apply (getCurrentProvider_lookup s a).
  unfold firstOutcome in Hfirst. rewrite Hcur in Hfirst. simpl in Hfirst.
  rewrite Hna in Hfirst. injection Hfirst as Hfirst.
  (* stop, then mark playing *)
  destruct (stop_spec s) as (Hc0 & d0 & Hd0 & Ha0).
  set (s1 := setPlaying true (stop s)).
  assert (sameConfig s s1) as Hc1 by exact Hc0.
  assert (extends s s1 d0) as Hd1 by exact Hd0.
  (* first attempt *)
  assert (getCurrentProvider s1 = Some pa) as Hcur1
    by by rewrite (sameConfig_current s s1).
  destruct (tryCurrentProvider_spec w text s1 pa Hcur1) as (Hr1 & Hc2 & d1 & Hd2 & Ha1).
  assert (attempts (trace s1) = attempts (trace s)) as Hat1.
  { rewrite Hd1, attempts_app, Ha0. apply (right_id_L [] (++)). }
  rewrite Hna, Hat1, Hfirst in Hr1.
  destruct (tryCurrentProvider w text s1) as [r1 s2] eqn:Etry1.
  simpl in Hr1, Hc2, Hd2. subst r1.
  (* switch *)
  assert (sameConfig s s2) as Hc02 by by eapply sameConfig_trans.
  destruct Hc02 as (Hp2 & Hn2 & Hi2).
  assert (2 ≤ length (providerNames s2)) as Hn2' by by rewrite Hn2.
  destruct (switchToNextProvider_spec s2 Hn2') as (Hsw & Hp3 & Hn3 & Hi3 & Hpl3 & ev & Hd3 & Ha3).
  destruct (switchToNextProvider s2) as [sw s3] eqn:Esw.
  simpl in Hsw, Hp3, Hn3, Hi3, Hpl3, Hd3. subst sw.
  rewrite Hn2, Hi2 in Hi3. fold n i in Hi3.
  (* second attempt *)
  assert (getCurrentProvider s3 = Some pb) as Hcur3.
  { apply (getCurrentProvider_lookup s3 b).
    - by rewrite Hn3, Hn2, Hi3.
    - by rewrite Hp3, Hp2. }
  destruct (tryCurrentProvider_spec w text s3 pb Hcur3) as (Hr2 & Hc4 & d2 & Hd4 & Ha2).
  assert (attempts (trace s3) = attempts (trace s) ++ [a]) as Hat3.
  { rewrite Hd3, Hd2, Hd1, !attempts_app, Ha0, Ha3. simpl. rewrite Ha1, Hna.
    by rewrite !(right_id_L [] (++)). }
  rewrite Hnb, Hat3, length_app, Nat.add_1_r in Hr2. simpl in Hr2.
  destruct (tryCurrentProvider w text s3) as [r2 s4] eqn:Etry2.
  simpl in Hr2, Hc4, Hd4. destruct Hc4 as (Hp4 & Hn4 & Hi4).
  assert (extends s s3 (d0 ++ (ProviderSpeak (name pa) text :: d1) ++ [ev])) as Hd03.
  { eapply extends_trans; [exact Hd1|]. eapply extends_trans; [exact Hd2|exact Hd3]. }
  assert (extends s s4 ((d0 ++ (ProviderSpeak (name pa) text :: d1) ++ [ev])
                          ++ ProviderSpeak (name pb) text :: d2)) as Hd04
    by (eapply extends_trans; [exact Hd03|exact Hd4]).
  assert (attempts ((d0 ++ (ProviderSpeak (name pa) text :: d1) ++ [ev])
                          ++ ProviderSpeak (name pb) text :: d2) = [a; b]) as Hat.
  { rewrite !attempts_app, Ha0, Ha3. simpl. by rewrite Ha1, Ha2, Hna, Hnb. }
  unfold speak. destruct (decide (text = "")) as [|_]; [done|].
  unfold hasProviders. fold n. destruct (n =? 0) eqn:En0;
    [apply Nat.eqb_eq in En0; lia|]. simpl.
  fold s1. rewrite Etry1, Esw, Etry2.
  destruct (w b text (S (length (attempts (trace s))))) as [au cbs2|e2 cbs2] eqn:Ew2;
    subst r2.
  - exists a, b, s4. eexists.
    split; [done|]. split; [done|]. split; [done|].
    split; [congruence|]. split; [congruence|]. split; [congruence|].
    split; [exact Hd04|]. split; [exact Hat|by rewrite Ew2].
  - exists a, b, (emit (OnError e2) (setPlaying false s4)). eexists.
    split; [done|]. split; [done|]. split; [done|].
    split; [simpl; congruence|]. split; [simpl; congruence|].
    split; [simpl; congruence|].
    split; [eapply extends_trans;
             [exact Hd04|apply (emit_extends _ (setPlaying false s4))]|].
    split; [by rewrite attempts_app, Hat|].
    rewrite Ew2. split; [done|]. by rewrite last_snoc.
Qed.

Lemma tryCurrentProvider_sameConfig w text s :
  sameConfig s (tryCurrentProvider w text s).2.
Proof.
  destruct (getCurrentProvider s) as [p|] eqn:E.
  - by destruct (tryCurrentProvider_spec w text s p E) as (_ & H & _).
  - unfold tryCurrentProvider. rewrite E. apply sameConfig_refl.
Qed.

(** [speak] never changes the registered providers; the index stays or
    moves to the next one. *)
Lemma speak_config w text s :
  let s' := (speak w text s).2 in
  providers s' = providers s ∧ providerNames s' = providerNames s
  ∧ (currentProviderIndex s' = currentProviderIndex s
     ∨ 2 ≤ length (providerNames s)
       ∧ currentProviderIndex s'
         = (currentProviderIndex s + 1) mod length (providerNames s)).
Proof.
  unfold speak. destruct (decide (text = "")); [by auto|].
  destruct (negb (hasProviders s)); [by auto|].
  set (s1 := setPlaying true (stop s)).
  assert (sameConfig s s1) as Hc1 by apply stop_spec.
  pose proof (tryCurrentProvider_sameConfig w text s1) as Hc2.
  destruct (tryCurrentProvider w text s1) as [[err|] s2]; simpl in Hc2.
  2:{ destruct (sameConfig_trans _ _ _ Hc1 Hc2) as (?&?&?). by auto. }
  destruct (sameConfig_trans _ _ _ Hc1 Hc2) as (Hp & Hn & Hi).
  unfold switchToNextProvider.
  destruct (length (providerNames s2) <=? 1) eqn:E; [simpl; by auto|].
  apply Nat.leb_gt in E.
  set (s3 := emit _ _).
  pose proof (tryCurrentProvider_sameConfig w text s3) as Hc4.
  assert (providers s3 = providers s ∧ providerNames s3 = providerNames s
          ∧ currentProviderIndex s3
            = (currentProviderIndex s + 1) mod length (providerNames s)) as H3
    by (subst s3; simpl; by rewrite Hp, Hn, Hi).
  destruct H3 as (Hp3 & Hn3 & Hi3). rewrite Hn in E.
  destruct (tryCurrentProvider w text s3) as [[err2|] s4];
    destruct Hc4 as (Hp4 & Hn4 & Hi4); simpl in *;
    (split; [congruence|]); (split; [congruence|]); right; (split; [lia|congruence]).
Qed.

Lemma register_inv s p :
  (∀ n, n ∈ providerNames s → ∃ q, providers s !! n = Some q ∧ name q = n) →
  ∀ n, n ∈ providerNames (register s p) →
       ∃ q, providers (register s p) !! n = Some q ∧ name q = n.
Proof.
  intros H n. unfold register. destruct (decide (name p = "")); [apply H|].
  simpl. intros Hin. destruct (decide (n = name p)) as [->|Hne].
  - exists p. by rewrite lookup_insert_eq.
  - rewrite lookup_insert_ne by done. apply H.
    apply elem_of_app in Hin as [Hin|Hin]; [done|].
    apply list_elem_of_singleton in Hin. done.
Qed.

Lemma indexOf_lt x l i : indexOf x l = Some i → i < length l.
Proof.
  revert i. induction l as [|y l IH]; intros i; simpl; [done|].
  destruct (decide (x = y)); [intros [= <-]; lia|].
  destruct (indexOf x l) as [j|]; simpl; [|done].
  intros [= <-]. specialize (IH j Logic.eq_refl). lia.
Qed.

(** The constructor establishes the invariant, and the methods keep it. *)
Lemma constructor_wf ps d : wf (constructor ps d).
Proof.
  assert (∀ s, (∀ n, n ∈ providerNames s →
                     ∃ q, providers s !! n = Some q ∧ name q = n) →
               currentProviderIndex s = 0 →
               (∀ n, n ∈ providerNames (foldl register s ps) →
                     ∃ q, providers (foldl register s ps) !! n = Some q ∧ name q = n)
               ∧ currentProviderIndex (foldl register s ps) = 0) as Hfold.
  { induction ps as [|p ps IH]; intros s H H0; simpl; [done|].
    apply IH; [by apply register_inv|].
    unfold register. by destruct (decide (name p = "")). }
  destruct (Hfold TTS.empty) as [Hinv Hidx]; [by intros n Hn; inversion Hn|done|].
  unfold constructor. set (s := foldl register TTS.empty ps) in *.
  assert (wf s) as Hs.
  { split; [|done]. rewrite Hidx. destruct (providerNames s); [by left|right; simpl; lia]. }
  destruct d as [d|]; [|done]. destruct (decide (d = "")); [done|].
  destruct (indexOf d (providerNames s)) as [i|] eqn:E; [|done].
  split; [right; by apply indexOf_lt in E|done].
Qed.

Lemma stop_wf s : wf s → wf (stop s).
Proof. apply sameConfig_wf, stop_spec. Qed.

Lemma speak_wf w text s : wf s → wf (speak w text s).2.
Proof.
  intros [Hidx Hinv]. destruct (speak_config w text s) as (Hp & Hn & Hi).
  split; rewrite ?Hp, Hn; [|done].
  destruct Hi as [->|[Hlen ->]]; [done|].
  right. apply Nat.mod_upper_bound. lia.
Qed.

(** The index after the current one is another index. *)
Lemma next_index_differs i n : 2 ≤ n → i < n → (i + 1) mod n ≠ i.
Proof.
  intros Hn Hi. destruct (decide (i + 1 = n)) as [<-|Hne].
  - rewrite Nat.Div0.mod_same. lia.
  - rewrite Nat.mod_small by lia. lia.
Qed.

(** The start of every [speak] call that gets past its two guards: the first
    provider attempted is the current one; when its [speak] succeeds it is the
    only one and the index stays. *)
Lemma speak_first_attempt w text s :
  wf s → providerNames s ≠ [] → text ≠ "" →
  ∃ a d,
    providerNames s !! currentProviderIndex s = Some a
    ∧ trace (speak w text s).2 = trace s ++ d
    ∧ head (attempts d) = Some a
    ∧ (∀ au c, firstOutcome w text s = Some (Resolves au c) →
         attempts d = [a]
         ∧ (speak w text s).1 = Fulfilled
         ∧ currentProviderIndex (speak w text s).2 = currentProviderIndex s).
Proof.
  intros Hwf Hne Htext.
  assert (currentProviderIndex s < length (providerNames s)) as Hi
    by (destruct Hwf as [[?|?] _]; done).
  destruct (lookup_lt_is_Some_2 (providerNames s) _ Hi) as [a Ha].
  destruct (wf_lookup s _ a Hwf Ha) as (pa & Hpa & Hna).
  assert (getCurrentProvider s = Some pa) as Hcur
    by by apply (getCurrentProvider_lookup s a).
  destruct (firstOutcome w text s) as [o|] eqn:Hfirst;
    [|by unfold firstOutcome in Hfirst; rewrite Hcur in Hfirst].
  destruct o as [au c|e c].
  - (* the current provider succeeds *)
    destruct (stop_spec s) as (Hc0 & d0 & Hd0 & Ha0).
    set (s1 := setPlaying true (stop s)).
    assert (getCurrentProvider s1 = Some pa) as Hcur1
      by by rewrite (sameConfig_current s s1).
    destruct (tryCurrentProvider_spec w text s1 pa Hcur1)
      as (Hr1 & Hc2 & d1 & Hd2 & Ha1).
    assert (attempts (trace s1) = attempts (trace s)) as Hat1.
    { change (trace s1) with (trace (stop s)).
      rewrite Hd0, attempts_app, Ha0. apply (right_id_L [] (++)). }
    unfold firstOutcome in Hfirst. rewrite Hcur in Hfirst. simpl in Hfirst.
    injection Hfirst as Hfirst. rewrite Hat1, Hfirst in Hr1.
    assert (speak w text s = (Fulfilled, (tryCurrentProvider w text s1).2)) as Hs.
    { unfold speak. destruct (decide (text = "")); [done|].
      unfold hasProviders. destruct (providerNames s); [done|]. simpl.
      fold s1. destruct (tryCurrentProvider w text s1) as [r s2].
      simpl in Hr1. by subst r. }
    exists a, (d0 ++ ProviderSpeak (name pa) text :: d1).
    assert (attempts (d0 ++ ProviderSpeak (name pa) text :: d1) = [a]) as Hat
      by (rewrite attempts_app, Ha0; simpl; by rewrite Ha1, Hna).
    rewrite Hs. simpl. split; [done|]. split.
    { apply (extends_trans s s1 _ d0 _ Hd0 Hd2). }
    split; [by rewrite Hat|]. intros _ _ _. split; [done|]. split; [done|].
    destruct Hc2 as (_ & _ & Hi2). destruct Hc0 as (_ & _ & Hi0).
    rewrite Hi2. exact Hi0.
  - destruct (decide (2 ≤ length (providerNames s))) as [Hn|Hn].
    + (* the current provider fails and there is another one *)
      destruct (speak_failover w text s e c Hwf Hn Htext Hfirst)
        as (a' & b & s' & d & Ha' & _ & Hs & _ & _ & _ & Hd & Hat & _).
      rewrite Ha in Ha'. injection Ha' as <-.
      exists a, d. rewrite Hs. simpl. split; [done|]. split; [done|].
      split; [by rewrite Hat|]. by intros au c'.
    + (* the current provider fails and it is the only one *)
      destruct (stop_spec s) as (Hc0 & d0 & Hd0 & Ha0).
      set (s1 := setPlaying true (stop s)).
      assert (getCurrentProvider s1 = Some pa) as Hcur1
        by by rewrite (sameConfig_current s s1).
      destruct (tryCurrentProvider_spec w text s1 pa Hcur1)
        as (Hr1 & Hc2 & d1 & Hd2 & Ha1).
      assert (attempts (trace s1) = attempts (trace s)) as Hat1.
      { change (trace s1) with (trace (stop s)).
        rewrite Hd0, attempts_app, Ha0. apply (right_id_L [] (++)). }
      unfold firstOutcome in Hfirst. rewrite Hcur in Hfirst. simpl in Hfirst.
      injection Hfirst as Hfirst. rewrite Hat1, Hfirst in Hr1.
      destruct (tryCurrentProvider w text s1) as [r s2] eqn:Etry.
      simpl in Hr1, Hc2, Hd2. subst r.
      assert (switchToNextProvider s2 = (false, s2)) as Hsw.
      { unfold switchToNextProvider. destruct Hc2 as (_ & Hn2 & _).
        destruct Hc0 as (_ & Hn0 & _).
        replace (providerNames s2) with (providerNames s) by (rewrite Hn2; exact (eq_sym Hn0)).
        destruct (length (providerNames s) <=? 1) eqn:E; [done|].
        apply Nat.leb_gt in E. lia. }
      assert (speak w text s = (Fulfilled, emit (OnError e) (setPlaying false s2))) as Hs.
      { unfold speak. destruct (decide (text = "")); [done|].
        unfold hasProviders. destruct (providerNames s); [done|]. simpl.
        fold s1. by rewrite Etry, Hsw. }
      exists a, ((d0 ++ ProviderSpeak (name pa) text :: d1) ++ [OnError e]).
      rewrite Hs. split; [done|]. split.
      { apply (extends_trans s s2 _ _ [OnError e]); [|done].
        apply (extends_trans s s1 _ d0 _ Hd0 Hd2). }
      split; [|by intros au c'].
      rewrite !attempts_app, Ha0. simpl. by rewrite Hna.
Qed.

Lemma apply_config s op :
  providers (apply s op) = providers s
  ∧ providerNames (apply s op) = providerNames s
  ∧ (currentProviderIndex (apply s op) = currentProviderIndex s
     ∨ 2 ≤ length (providerNames s)
       ∧ currentProviderIndex (apply s op)
         = (currentProviderIndex s + 1) mod length (providerNames s)).
Proof.
  destruct op as [w text| | | | |e]; simpl.
  - apply speak_config.
  - destruct (stop_spec s) as ((?&?&?)&_). by auto.
  - unfold switchToNextProvider.
    destruct (length (providerNames s) <=? 1) eqn:E; simpl; [by auto|].
    apply Nat.leb_gt in E. split; [done|]. split; [done|]. right. split; [lia|done].
  - by auto.
  - by auto.
  - by auto.
Qed.

Lemma runOps_app s ops1 ops2 : runOps s (ops1 ++ ops2) = runOps (runOps s ops1) ops2.
Proof. apply foldl_app. Qed.

Lemma apply_wf s op : wf s → wf (apply s op).
Proof.
  intros [Hidx Hinv]. destruct (apply_config s op) as (Hp & Hn & Hi).
  split; rewrite ?Hp, Hn; [|done].
  destruct Hi as [->|[Hlen ->]]; [done|].
  right. apply Nat.mod_upper_bound. lia.
Qed.

Lemma runOps_wf s ops :
  wf s → wf (runOps s ops) ∧ providerNames (runOps s ops) = providerNames s.
Proof.
  revert s. unfold runOps. induction ops as [|op ops IH]; intros s Hwf; simpl; [done|].
  destruct (IH _ (apply_wf s op Hwf)) as [H1 H2]. split; [done|].
  rewrite H2. by destruct (apply_config s op) as (_ & -> & _).
Qed.

(** The reading of C1 word for word: in a dispatcher with at least two
    registered providers, when the current provider's [speak] fails during a
    [speak(text)] call, the index moves circularly to the next provider and
    playback is attempted on it once: two attempts in the call, none of them
    on a provider that was attempted before. *)
Definition failsOverOnceEach (w : World) (text : string) (s : TTSService) : Prop :=
  ∀ e cbs,
    2 ≤ length (providerNames s) → text ≠ "" →
    firstOutcome w text s = Some (Rejects e cbs) →
    ∃ d,
      trace (speak w text s).2 = trace s ++ d
      ∧ currentProviderIndex (speak w text s).2
        = (currentProviderIndex s + 1) mod length (providerNames s)
      ∧ length (attempts d) = 2
      ∧ NoDup (attempts d).

(** A provider registered twice is attempted twice in one call. The service
    was given the on-device provider at the first and the third place; two
    calls with every provider down have moved the index to the third place.
    The next call attempts the provider named "WebSpeech", moves on round the
    circle to the first place and attempts the same provider again. *)
Lemma repeated_name_is_attempted_twice :
  wf twiceRegisteredAtLast
  ∧ providerNames twiceRegisteredAtLast = ["WebSpeech"; "FishAudio"; "WebSpeech"]
  ∧ currentProviderIndex twiceRegisteredAtLast = 2
  ∧ firstOutcome allDown "Three" twiceRegisteredAtLast
    = Some (Rejects "WebSpeech is down" [])
  ∧ attempts (drop (length (trace twiceRegisteredAtLast))
                (trace (speak allDown "Three" twiceRegisteredAtLast).2))
    = ["WebSpeech"; "WebSpeech"]
  ∧ ¬ failsOverOnceEach allDown "Three" twiceRegisteredAtLast.
Proof.
  split; [apply runOps_wf, constructor_wf|].
  split; [reflexivity|]. split; [reflexivity|]. split; [reflexivity|].
  split; [reflexivity|].
  intros H.
  destruct (H "WebSpeech is down" []) as (d & Hd & _ & _ & Hnd);
    [vm_compute; lia|done|reflexivity|].
  vm_compute in Hd. simplify_eq. vm_compute in Hnd.
  apply NoDup_cons in Hnd as [Hnot _]. apply Hnot. by left.
Qed.

(** C1, amended. In a dispatcher with at least two providers registered
    under different names, when the current provider's [speak] fails during
    a [speak(text)] call, the active index moves circularly to the next
    provider, and the providers attempted in that call are exactly the
    current one and the next one, once each: two different providers and no
    third attempt. *)
Theorem speak_fails_over_exactly_once
    (w : World) (text : string) (s : TTSService) (e : Error) (cbs : list Callback) :
  wf s → NoDup (providerNames s) → 2 ≤ length (providerNames s) → text ≠ "" →
  firstOutcome w text s = Some (Rejects e cbs) →
  ∃ a b d,
    providerNames s !! currentProviderIndex s = Some a
    ∧ providerNames s
        !! ((currentProviderIndex s + 1) mod length (providerNames s)) = Some b
    ∧ currentProviderIndex (speak w text s).2
      = (currentProviderIndex s + 1) mod length (providerNames s)
    ∧ trace (speak w text s).2 = trace s ++ d
    ∧ attempts d = [a; b] ∧ a ≠ b.
Proof.
  intros Hwf Hnd Hn Htext Hfirst.
  destruct (speak_failover w text s e cbs Hwf Hn Htext Hfirst)
    as (a & b & s' & d & Ha & Hb & Hs & _ & _ & Hi & Hd & Hat & _).
  exists a, b, d. rewrite Hs. simpl. repeat split; try done.
  intros ->.
  assert (currentProviderIndex s < length (providerNames s)) as Hlt
    by by eapply lookup_lt_Some.
  apply (next_index_differs _ _ Hn Hlt).
  by apply (NoDup_lookup (providerNames s) _ _ b).
Qed.

Lemma speak_fails_over_exactly_once_witness :
  wf trackerService ∧ NoDup (providerNames trackerService)
  ∧ 2 ≤ length (providerNames trackerService) ∧ "Hello" ≠ ""
  ∧ firstOutcome allDown "Hello" trackerService
    = Some (Rejects "WebSpeech is down" [])
  ∧ ∃ a b d,
      providerNames trackerService !! currentProviderIndex trackerService = Some a
      ∧ providerNames trackerService
          !! ((currentProviderIndex trackerService + 1)
                mod length (providerNames trackerService)) = Some b
      ∧ currentProviderIndex (speak allDown "Hello" trackerService).2
        = (currentProviderIndex trackerService + 1)
            mod length (providerNames trackerService)
      ∧ trace (speak allDown "Hello" trackerService).2 = trace trackerService ++ d
      ∧ attempts d = [a; b] ∧ a ≠ b.
Proof.
  assert (wf trackerService) as Hwf by apply constructor_wf.
  assert (NoDup (providerNames trackerService)) as Hnd
  by (apply (bool_decide_unpack _); vm_compute; exact I).
  assert (2 ≤ length (providerNames trackerService)) as Hn by (vm_compute; lia).
  assert ("Hello" ≠ "") as Ht by done.
  assert (firstOutcome allDown "Hello" trackerService
          = Some (Rejects "WebSpeech is down" [])) as Hf by reflexivity.
  repeat (split; [assumption|]).
  exact (speak_fails_over_exactly_once allDown "Hello" trackerService
           "WebSpeech is down" [] Hwf Hnd Hn Ht Hf).
Defined.

(** The reading of C2 word for word: when both attempts fail, the promise
    of [speak] rejects with the second error and [isPlaying] is false. *)
Definition rejectsWithSecondError (w : World) (text : string) (s : TTSService)
  : Prop :=
  ∀ e1 c1 e2 c2,
    firstOutcome w text s = Some (Rejects e1 c1) →
    secondOutcome w text s = Some (Rejects e2 c2) →
    (speak w text s).1 = Rejected e2 ∧ isPlaying (speak w text s).2 = false.

(** With both providers of the tracker's service down, the promise of
    [speak] is fulfilled, not rejected. *)
Lemma speak_double_failure_does_not_reject :
  firstOutcome allDown "Hello" trackerService = Some (Rejects "WebSpeech is down" [])
  ∧ secondOutcome allDown "Hello" trackerService = Some (Rejects "FishAudio is down" [])
  ∧ (speak allDown "Hello" trackerService).1 = Fulfilled
  ∧ ¬ rejectsWithSecondError allDown "Hello" trackerService.
Proof.
  split; [reflexivity|]. split; [reflexivity|]. split; [reflexivity|].
  intros H. destruct (H _ _ _ _ Logic.eq_refl Logic.eq_refl) as [H1 _].
  vm_compute in H1. discriminate H1.
Qed.

(** C2, amended. When the current provider fails and the single failover
    attempt on the next provider fails too, the promise of [speak] is
    fulfilled (it does not reject): the second provider's error is handed to
    the call's [onError] callback, as the last thing the call does, and
    [isPlaying] is false. *)
Theorem speak_double_failure_reports_second_error
    (w : World) (text : string) (s : TTSService)
    (e1 e2 : Error) (c1 c2 : list Callback) :
  wf s → 2 ≤ length (providerNames s) → text ≠ "" →
  firstOutcome w text s = Some (Rejects e1 c1) →
  secondOutcome w text s = Some (Rejects e2 c2) →
  (speak w text s).1 = Fulfilled
  ∧ isPlaying (speak w text s).2 = false
  ∧ last (trace (speak w text s).2) = Some (OnError e2).
Proof.
  intros Hwf Hn Htext Hfirst Hsecond.
  destruct (speak_failover w text s e1 c1 Hwf Hn Htext Hfirst)
    as (a & b & s' & d & Ha & Hb & Hs & _ & _ & _ & Hd & _ & H2).
  unfold secondOutcome in Hsecond. rewrite Hb in Hsecond. simpl in Hsecond.
  destruct (wf_lookup s _ b Hwf Hb) as (pb & Hpb & Hnb).
  rewrite Hpb in Hsecond. simpl in Hsecond. rewrite Hnb in Hsecond.
  injection Hsecond as Hsecond. rewrite Hsecond in H2. destruct H2 as [Hpl Hlast].
  rewrite Hs. simpl. split; [done|]. split; [done|].
  rewrite Hd. rewrite last_app, Hlast. done.
Qed.

Lemma speak_double_failure_reports_second_error_witness :
  wf trackerService ∧ 2 ≤ length (providerNames trackerService) ∧ "Hello" ≠ ""
  ∧ firstOutcome allDown "Hello" trackerService = Some (Rejects "WebSpeech is down" [])
  ∧ secondOutcome allDown "Hello" trackerService = Some (Rejects "FishAudio is down" [])
  ∧ (speak allDown "Hello" trackerService).1 = Fulfilled
  ∧ isPlaying (speak allDown "Hello" trackerService).2 = false
  ∧ last (trace (speak allDown "Hello" trackerService).2)
    = Some (OnError "FishAudio is down").
Proof.
  assert (wf trackerService) as Hwf by apply constructor_wf.
  assert (2 ≤ length (providerNames trackerService)) as Hn by (vm_compute; lia).
  assert ("Hello" ≠ "") as Ht by done.
  assert (firstOutcome allDown "Hello" trackerService
          = Some (Rejects "WebSpeech is down" [])) as H1 by reflexivity.
  assert (secondOutcome allDown "Hello" trackerService
          = Some (Rejects "FishAudio is down" [])) as H2 by reflexivity.
  repeat (split; [assumption|]).
  exact (speak_double_failure_reports_second_error allDown "Hello" trackerService
           _ _ _ _ Hwf Hn Ht H1 H2).
Defined.

Lemma speak_keeps_provider w text s :
  wf s →
  text = "" ∨ (∃ audio cbs, firstOutcome w text s = Some (Resolves audio cbs)) →
  currentProviderIndex (speak w text s).2 = currentProviderIndex s.
Proof.
  intros Hwf H. destruct (decide (text = "")) as [->|Htext].
  { unfold speak. by rewrite decide_True. }
  destruct H as [->|(audio & cbs & Hfirst)]; [done|].
  assert (providerNames s ≠ []) as Hne.
  { intros E. unfold firstOutcome, getCurrentProvider in Hfirst.
    by rewrite E in Hfirst. }
  destruct (speak_first_attempt w text s Hwf Hne Htext) as (a & d & _ & _ & _ & Hok).
  by destruct (Hok audio cbs Hfirst) as (_ & _ & ->).
Qed.

Lemma keepsProvider_index s ops :
  wf s → keepsProvider s ops →
  currentProviderIndex (runOps s ops) = currentProviderIndex s.
Proof.
  revert s. unfold runOps.
  induction ops as [|op ops IH]; intros s Hwf Hkeep; simpl; [done|].
  destruct Hkeep as [Hop Hkeep].
  rewrite (IH _ (apply_wf s op Hwf) Hkeep).
  destruct op as [w text| | | | |e]; simpl.
  - by apply speak_keeps_provider.
  - by destruct (stop_spec s) as ((_ & _ & ->) & _).
  - done.
  - done.
  - done.
  - done.
Qed.

(** The reading of C10 word for word: after a [speak] call in which the
    current provider failed and the dispatcher switched, every subsequent
    [speak] call, whatever was done to the service in between, attempts the
    fallback provider first. *)
Definition alwaysFallbackFirst (w : World) (text : string) (s : TTSService) : Prop :=
  ∀ e cbs,
    firstOutcome w text s = Some (Rejects e cbs) →
    ∀ (later : list Op) (w2 : World) (text2 : string),
      text2 ≠ "" →
      ∃ b d,
        providerNames s
          !! ((currentProviderIndex s + 1) mod length (providerNames s)) = Some b
        ∧ trace (speak w2 text2 (runOps (speak w text s).2 later)).2
          = trace (runOps (speak w text s).2 later) ++ d
        ∧ head (attempts d) = Some b.

(** The fallback is left again by the next failover. With both providers of
    the tracker's service down, the first call fails over to "FishAudio"; the
    second call attempts "FishAudio" first, fails over in its turn and leaves
    the index at the default provider; the third call attempts the default
    provider "WebSpeech" first. *)
Lemma second_failover_leaves_the_fallback :
  firstOutcome allDown "One" trackerService = Some (Rejects "WebSpeech is down" [])
  ∧ currentProviderIndex trackerService = 0
  ∧ currentProviderIndex (speak allDown "One" trackerService).2 = 1
  ∧ currentProviderIndex
      (runOps (speak allDown "One" trackerService).2 [Speak allDown "Two"]) = 0
  ∧ attempts
      (drop (length (trace (runOps (speak allDown "One" trackerService).2
                              [Speak allDown "Two"])))
         (trace (speak allDown "Three"
                   (runOps (speak allDown "One" trackerService).2
                      [Speak allDown "Two"])).2))
    = ["WebSpeech"; "FishAudio"]
  ∧ ¬ alwaysFallbackFirst allDown "One" trackerService.
Proof.
  split; [reflexivity|]. split; [reflexivity|]. split; [reflexivity|].
  split; [reflexivity|]. split; [reflexivity|].
  intros H.
  destruct (H "WebSpeech is down" [] Logic.eq_refl [Speak allDown "Two"]
              allDown "Three") as (b & d & Hb & Hd & Hhead); [done|].
  vm_compute in Hb, Hd. injection Hb as <-.
  assert (attempts d = ["WebSpeech"; "FishAudio"]) as Hd' by by simplify_eq.
  by rewrite Hd' in Hhead.
Qed.

(** C10, amended. Failover is sticky. After a [speak] call in which the
    current provider failed and the dispatcher switched, the index points at
    the fallback provider (whether or not the retry succeeded) and differs
    from the index before. It stays there through everything that leaves the
    choice of the provider alone: [stop], the events of the audio element
    (ended, error, rejected [play()]) and every later [speak] call whose
    first attempt succeeds, in any number and order; after them a [speak]
    call still attempts the fallback provider first, and leaves the index at
    the fallback if that attempt succeeds. Nothing sets the index back to the
    configured default: whatever is done to the service, one operation
    leaves the index where it is or moves it one place on round the circle
    of providers (a further failover, or [switchToNextProvider]). *)
Theorem failover_is_sticky
    (w : World) (text : string) (s : TTSService) (e : Error) (cbs : list Callback)
    (later : list Op) :
  wf s → 2 ≤ length (providerNames s) → text ≠ "" →
  firstOutcome w text s = Some (Rejects e cbs) →
  keepsProvider (speak w text s).2 later →
  let s' := (speak w text s).2 in
  let j := (currentProviderIndex s + 1) mod length (providerNames s) in
  currentProviderIndex s' = j ∧ j ≠ currentProviderIndex s
  ∧ currentProviderIndex (runOps s' later) = j
  ∧ (∀ w2 text2, text2 ≠ "" →
       ∃ b d, providerNames s !! j = Some b
         ∧ trace (speak w2 text2 (runOps s' later)).2 = trace (runOps s' later) ++ d
         ∧ head (attempts d) = Some b
         ∧ (∀ au c, firstOutcome w2 text2 (runOps s' later) = Some (Resolves au c) →
              currentProviderIndex (speak w2 text2 (runOps s' later)).2 = j))
  ∧ (∀ ops op,
       currentProviderIndex (apply (runOps s' ops) op)
       = currentProviderIndex (runOps s' ops)
       ∨ currentProviderIndex (apply (runOps s' ops) op)
         = (currentProviderIndex (runOps s' ops) + 1) mod length (providerNames s)).
Proof.
  intros Hwf Hn Htext Hfirst Hkeep s' j.
  destruct (speak_failover w text s e cbs Hwf Hn Htext Hfirst)
    as (a & b & s1 & d & Ha & Hb & Hs & Hp & Hnm & Hi & _).
  assert (s' = s1) as -> by (subst s'; by rewrite Hs).
  rewrite Hs in Hkeep. simpl in Hkeep.
  fold j in Hi, Hb.
  assert (wf s1) as Hwf1.
  { pose proof (speak_wf w text s Hwf) as H. by rewrite Hs in H. }
  destruct (runOps_wf s1 later Hwf1) as [Hwf2 Hnm2].
  pose proof (keepsProvider_index s1 later Hwf1 Hkeep) as Hi2.
  split; [done|]. split.
  { apply next_index_differs; [done|]. by eapply lookup_lt_Some. }
  split; [congruence|]. split.
  - intros w2 text2 Htext2.
    assert (providerNames (runOps s1 later) ≠ []) as Hne.
    { rewrite Hnm2, Hnm. intros E. rewrite E in Hn. simpl in Hn. lia. }
    destruct (speak_first_attempt w2 text2 _ Hwf2 Hne Htext2)
      as (b' & d2 & Hb' & Hd2 & Hh & Hok).
    rewrite Hnm2, Hnm, Hi2, Hi, Hb in Hb'. injection Hb' as <-.
    exists b, d2. split; [done|]. split; [done|]. split; [done|].
    intros au c Hres. destruct (Hok au c Hres) as (_ & _ & H). by rewrite H, Hi2.
  - intros ops op.
    destruct (runOps_wf s1 ops Hwf1) as [_ Hnm3].
    destruct (apply_config (runOps s1 ops) op) as (_ & _ & [H|[_ H]]); [by left|].
    right. by rewrite H, Hnm3, Hnm.
Qed.

Lemma failover_is_sticky_witness :
  let later := [Ended; Speak (onlyDown "WebSpeech") "Two"; Stop;
                Speak allUp "Three"; AudioError; PlayRejected "not allowed";
                Speak allDown ""; Speak (onlyDown "WebSpeech") "Four"; Ended] in
  wf trackerService ∧ 2 ≤ length (providerNames trackerService) ∧ "Hello" ≠ ""
  ∧ firstOutcome (onlyDown "WebSpeech") "Hello" trackerService
    = Some (Rejects "WebSpeech is down" [])
  ∧ keepsProvider (speak (onlyDown "WebSpeech") "Hello" trackerService).2 later
  ∧ let s' := (speak (onlyDown "WebSpeech") "Hello" trackerService).2 in
    let j := (currentProviderIndex trackerService + 1)
               mod length (providerNames trackerService) in
    currentProviderIndex s' = j ∧ j ≠ currentProviderIndex trackerService
    ∧ currentProviderIndex (runOps s' later) = j
    ∧ (∀ w2 text2, text2 ≠ "" →
         ∃ b d, providerNames trackerService !! j = Some b
           ∧ trace (speak w2 text2 (runOps s' later)).2
             = trace (runOps s' later) ++ d
           ∧ head (attempts d) = Some b
           ∧ (∀ au c, firstOutcome w2 text2 (runOps s' later)
                      = Some (Resolves au c) →
                currentProviderIndex (speak w2 text2 (runOps s' later)).2 = j))
    ∧ (∀ ops op,
         currentProviderIndex (apply (runOps s' ops) op)
         = currentProviderIndex (runOps s' ops)
         ∨ currentProviderIndex (apply (runOps s' ops) op)
           = (currentProviderIndex (runOps s' ops) + 1)
               mod length (providerNames trackerService)).
Proof.
  intros later.
  assert (wf trackerService) as Hwf by apply constructor_wf.
  assert (2 ≤ length (providerNames trackerService)) as Hn by (vm_compute; lia).
  assert ("Hello" ≠ "") as Ht by done.
  assert (firstOutcome (onlyDown "WebSpeech") "Hello" trackerService
          = Some (Rejects "WebSpeech is down" [])) as H1 by reflexivity.
  assert (keepsProvider (speak (onlyDown "WebSpeech") "Hello" trackerService).2 later)
    as H2.
  { subst later. vm_compute.
    repeat (split; [first [exact I | by left | right; by eexists _, _]|]).
    exact I. }
  repeat (split; [assumption|]).
  exact (failover_is_sticky (onlyDown "WebSpeech") "Hello" trackerService
           _ _ later Hwf Hn Ht H1 H2).
Defined.

End TTSFacts.


(** ** Facts about the check-in session *)

Module TrackerFacts.
Import Tracker TrackerOps.

(** What [processNextHabit] and the functions it calls leave alone: they
    only add to the trace and move the habit index forward. *)
Record frame (s s' : DailyHabitTracker) : Prop := {
  frame_stack : habitStack s' = habitStack s;
  frame_responses : responses s' = responses s;
  frame_userId : userId s' = userId s;
  frame_recognition : recognition s' = recognition s;
  frame_date : formattedDate s' = formattedDate s;
  frame_reflection : reflection s' = reflection s;
  frame_index : currentHabitIndex s ≤ currentHabitIndex s';
  frame_trace : ∃ d, trace s' = trace s ++ d
}.

Lemma frame_refl s : frame s s.
Proof. split; try done. exists []. by rewrite (right_id_L [] (++)). Qed.

Lemma frame_trans s1 s2 s3 : frame s1 s2 → frame s2 s3 → frame s1 s3.
Proof.
  intros [] []. split; try congruence; [lia|].
  destruct frame_trace0 as [d1 H1], frame_trace1 as [d2 H2].
  exists (d1 ++ d2). by rewrite H2, H1, (assoc_L (++)).
Qed.

Lemma frame_emit s s1 ev : frame s s1 → frame s (emit ev s1).
Proof.
  intros H. apply (frame_trans _ _ _ H). split; try done. by exists [ev].
Qed.

Lemma frame_updateStatus s s1 msg : frame s s1 → frame s (updateStatus msg s1).
Proof. apply frame_emit. Qed.

Lemma frame_handleError s s1 msg : frame s s1 → frame s (handleError msg s1).
Proof. intros H. by apply frame_emit, frame_updateStatus. Qed.

Lemma frame_setProcessing s s1 b : frame s s1 → frame s (setProcessing b s1).
Proof.
  intros H. apply (frame_trans _ _ _ H). split; try done.
  exists []. simpl. by rewrite (right_id_L [] (++)).
Qed.

Lemma frame_setContext s s1 c : frame s s1 → frame s (setContext c s1).
Proof.
  intros H. apply (frame_trans _ _ _ H). split; try done.
  exists []. simpl. by rewrite (right_id_L [] (++)).
Qed.

Lemma frame_setIndex s s1 i :
  frame s s1 → currentHabitIndex s1 ≤ i → frame s (setIndex i s1).
Proof.
  intros H Hi. apply (frame_trans _ _ _ H). split; try done.
  exists []. simpl. by rewrite (right_id_L [] (++)).
Qed.

Lemma frame_onAuthRequired s s1 : frame s s1 → frame s (onAuthRequired s1).
Proof. apply frame_handleError. Qed.

Create HintDb frame discriminated.
#[local] Hint Resolve frame_refl frame_emit frame_updateStatus frame_handleError
  frame_setProcessing frame_setContext frame_onAuthRequired : frame.

Lemma frame_speakText env txt s s1 :
  frame s s1 → frame s (speakText env txt s1).2.
Proof.
  intros H. unfold speakText. destruct (decide (txt = "")); [done|].
  destruct (speakResult env _); simpl; auto with frame.
Qed.

Lemma frame_recognitionStart env s s1 :
  frame s s1 → frame s (recognitionStart env s1).2.
Proof.
  intros H. unfold recognitionStart. destruct (recognition s1); simpl; auto with frame.
Qed.

Lemma frame_checkAuthentication s s1 :
  frame s s1 → frame s (checkAuthentication s1).2.
Proof.
  intros H. unfold checkAuthentication. destruct (getUserId s1); simpl; auto with frame.
Qed.

#[local] Hint Resolve frame_speakText frame_recognitionStart
  frame_checkAuthentication : frame.

(** Name the result of a call whose state is then taken apart. *)
Ltac frame_call f :=
  match goal with
  | |- context [f ?env ?txt ?s] =>
      let H := fresh "Hcall" in
      assert (frame s (f env txt s).2) as H by auto with frame;
      destruct (f env txt s) as [[?|] ?]; simpl in H
  end.

Lemma frame_submitDailyLog env s s1 :
  frame s s1 → frame s (submitDailyLog env s1).
Proof.
  intros H. apply (frame_trans _ _ _ H). clear H. unfold submitDailyLog.
  assert (frame s1 (checkAuthentication s1).2) as Hc by auto with frame.
  destruct (checkAuthentication s1) as [[|] s2]; simpl in Hc; [|done].
  destruct (getUserId _); [|auto 10 with frame].
  destruct (decide _); [auto 10 with frame|].
  destruct (logResult env) as [|msg|status statusText errorField body];
    [auto 10 with frame..|].
  destruct (negb (isOk status)).
  { repeat (destruct (_ =? _)); [auto 10 with frame..|].
    destruct (_ <=? _); auto 10 with frame. }
  destruct body as [|[[|]|] err st]; [auto 10 with frame| |auto 10 with frame|].
  - frame_call speakText;
      repeat first [apply frame_setProcessing | apply frame_emit
                   | apply frame_updateStatus | apply frame_handleError];
      (eapply frame_trans; [|exact Hcall]); auto 10 with frame.
  - frame_call speakText;
      repeat first [apply frame_setProcessing | apply frame_emit
                   | apply frame_updateStatus | apply frame_handleError];
      (eapply frame_trans; [|exact Hcall]); auto 10 with frame.
Qed.

#[local] Hint Resolve frame_submitDailyLog : frame.

Lemma frame_askForReflection env s s1 :
  frame s s1 → frame s (askForReflection env s1).
Proof.
  intros H. apply (frame_trans _ _ _ H). clear H. unfold askForReflection.
  frame_call speakText.
  { apply frame_submitDailyLog, frame_handleError.
    eapply frame_trans; [|exact Hcall]. auto with frame. }
  match goal with
  | |- context [recognitionStart env ?st] =>
      assert (frame st (recognitionStart env st).2) as Hr by auto with frame;
      destruct (recognitionStart env st) as [[?|] ?]; simpl in Hr
  end.
  - apply frame_submitDailyLog, frame_handleError.
    eapply frame_trans; [|exact Hr]. apply frame_setContext.
    eapply frame_trans; [|exact Hcall]. auto with frame.
  - eapply frame_trans; [|exact Hr]. apply frame_setContext.
    eapply frame_trans; [|exact Hcall]. auto with frame.
Qed.

#[local] Hint Resolve frame_askForReflection : frame.

Lemma frame_listenForResponseWith next env h s s' :
  (∀ t t', next t = Some t' → frame t t') →
  listenForResponseWith next env h s = Some s' → frame s s'.
Proof.
  intros Hnext. unfold listenForResponseWith.
  destruct (negb (recognition s)); [intros [= <-]; auto with frame|].
  match goal with
  | |- context [recognitionStart env ?st] =>
      assert (frame s (recognitionStart env st).2) as Hr by auto with frame;
      destruct (recognitionStart env st) as [[?|] s2]; simpl in Hr
  end.
  - intros Hn. apply Hnext in Hn. eapply frame_trans; [|exact Hn].
    apply frame_setIndex; [auto with frame|simpl; lia].
  - by intros [= <-].
Qed.

Lemma frame_processNextHabitWithin depth env s s' :
  processNextHabitWithin depth env s = Some s' → frame s s'.
Proof.
  revert s s'. induction depth as [|depth IH]; intros s s'; simpl; [done|].
  destruct (habitStack s) as [stack|]; [|intros [= <-]; auto with frame].
  destruct (habitsOf stack !! currentHabitIndex s) as [h|];
    [|intros [= <-]; auto with frame].
  frame_call speakText.
  - intros Hn. apply IH in Hn. eapply frame_trans; [|exact Hn].
    apply frame_setIndex; [|simpl; lia].
    apply frame_handleError. eapply frame_trans; [|exact Hcall]. auto with frame.
  - intros Hn. apply frame_listenForResponseWith in Hn; [|exact IH].
    eapply frame_trans; [|exact Hn]. eapply frame_trans; [|exact Hcall].
    auto with frame.
Qed.

Lemma frame_processNextHabit env s s' :
  processNextHabit env s = Some s' → frame s s'.
Proof. apply frame_processNextHabitWithin. Qed.

Lemma habitsOf_length stack : length (habitsOf stack) ≤ 5.
Proof.
  unfold habitsOf. simpl.
  repeat match goal with
         | |- context [match ?x with _ => _ end] => destruct x; simpl
         end; lia.
Qed.

(** [processNextHabit] always comes to an end: every nested call is made with
    an index one higher, and there are no more than five habits. *)
Lemma processNextHabitWithin_total depth env s :
  (match habitStack s with
   | Some stack => length (habitsOf stack) - currentHabitIndex s
   | None => 0
   end) < depth →
  is_Some (processNextHabitWithin depth env s).
Proof.
  revert s. induction depth as [|depth IH]; intros s Hd; [lia|]. simpl.
  destruct (habitStack s) as [stack|] eqn:Hst; [|done].
  destruct (habitsOf stack !! currentHabitIndex s) as [h|] eqn:Hh; [|done].
  apply lookup_lt_Some in Hh.
  assert (∀ t, frame s t → is_Some
            (processNextHabitWithin depth env (setIndex (currentHabitIndex t + 1) t)))
    as Hnext.
  { intros t [Ht _ _ _ _ _ Hi _]. apply IH. simpl. rewrite Ht, Hst. lia. }
  frame_call speakText.
  - match goal with
    | |- context [setIndex _ ?t] => apply (Hnext t)
    end.
    apply frame_handleError. eapply frame_trans; [|exact Hcall].
    auto with frame.
  - unfold listenForResponseWith. destruct (negb (recognition _)); [done|].
    match goal with
    | |- context [recognitionStart env ?st] =>
        assert (frame s (recognitionStart env st).2) as Hr;
        [apply frame_recognitionStart, frame_setContext, frame_updateStatus;
         eapply frame_trans; [|exact Hcall]; auto with frame|];
        destruct (recognitionStart env st) as [[?|] s2]; simpl in Hr
    end; [|done].
    match goal with
    | |- context [setIndex _ ?t] => apply (Hnext t)
    end.
    by apply frame_handleError.
Qed.

Lemma processNextHabit_total env s : is_Some (processNextHabit env s).
Proof.
  apply processNextHabitWithin_total. destruct (habitStack s) as [stack|]; [|lia].
  pose proof (habitsOf_length stack). lia.
Qed.

Lemma speakCount_snoc l ev :
  speakCount (l ++ [ev]) = speakCount l + (if isSpeak ev then 1 else 0).
Proof.
  unfold speakCount. rewrite List.filter_app, length_app. simpl.
  by destruct (isSpeak ev).
Qed.

Lemma startCount_snoc l ev :
  startCount (l ++ [ev]) = startCount l + (if isStart ev then 1 else 0).
Proof.
  unfold startCount. rewrite List.filter_app, length_app. simpl.
  by destruct (isStart ev).
Qed.

Lemma frame_trace_after s s1 s2 p :
  trace s1 = trace s ++ p → frame s1 s2 → ∃ d, trace s2 = trace s ++ p ++ d.
Proof.
  intros H1 [_ _ _ _ _ _ _ [d Hd]]. exists d. by rewrite Hd, H1, (assoc_L (++)).
Qed.

(** Run [processNextHabit] on the state in the goal and keep what it leaves
    alone. *)
Ltac run_processNextHabit s' Hs' Hf :=
  match goal with
  | |- context [processNextHabit ?env ?x] =>
      destruct (processNextHabit_total env x) as [s' Hs'];
      pose proof (frame_processNextHabit env x s' Hs') as Hf;
      rewrite Hs'
  end.

(** C3. A spoken response to a habit prompt is trimmed and lower-cased and
    then classified by substring: "yes", "yeah" or "yep" record yes; else
    "no", "nope" or "nah" record no; else "skip" records skip. A transcript
    with none of the markers records nothing: the session speaks the
    clarifying prompt and (the prompt spoken and recognition restarted) listens
    again for the same habit, at the same index. The four sample transcripts
    classify as yes, no, skip and ambiguous. *)
Theorem spoken_response_is_classified
    (env : Env) (spoken : string) (s : DailyHabitTracker) (h : Habit) :
  recognitionContext s = Some (HabitContext h) →
  let t := Js.toLowerCase (Js.trim spoken) in
  (∃ s', handleSpeechResult env spoken s = Some s'
     ∧ if Js.includes t "yes" || Js.includes t "yeah" || Js.includes t "yep"
       then responses s' = <[key h := "yes"]> (responses s)
       else if Js.includes t "no" || Js.includes t "nope" || Js.includes t "nah"
       then responses s' = <[key h := "no"]> (responses s)
       else if Js.includes t "skip"
       then responses s' = <[key h := "skip"]> (responses s)
       else responses s' = responses s
            ∧ ∃ d, trace s' = trace s ++ Speak SORRY_PROMPT :: d
                ∧ (speakResult env (speakCount (trace s)) = None →
                   startResult env (startCount (trace s)) = None →
                   recognition s = true →
                   d = [OnStatusUpdate "Listening for your response..."; RecognitionStart]
                   ∧ recognitionContext s' = Some (HabitContext h)
                   ∧ currentHabitIndex s' = currentHabitIndex s))
  ∧ classify (Js.toLowerCase (Js.trim "yeah I did it")) = Some "yes"
  ∧ classify (Js.toLowerCase (Js.trim "nah not today")) = Some "no"
  ∧ classify (Js.toLowerCase (Js.trim "let's skip that one")) = Some "skip"
  ∧ classify (Js.toLowerCase (Js.trim "maybe kind of")) = None.
Proof.
  intros Hctx t. split; [|by vm_compute].
  unfold handleSpeechResult. rewrite Hctx. fold t. unfold classify.
  destruct (Js.includes t "yes" || Js.includes t "yeah" || Js.includes t "yep").
  { run_processNextHabit s' Hs' Hf. exists s'. split; [done|].
    by rewrite (frame_responses _ _ Hf). }
  destruct (Js.includes t "no" || Js.includes t "nope" || Js.includes t "nah").
  { run_processNextHabit s' Hs' Hf. exists s'. split; [done|].
    by rewrite (frame_responses _ _ Hf). }
  destruct (Js.includes t "skip").
  { run_processNextHabit s' Hs' Hf. exists s'. split; [done|].
    by rewrite (frame_responses _ _ Hf). }
  unfold speakText. destruct (decide (SORRY_PROMPT = "")) as [|_]; [done|].
  destruct (speakResult env (speakCount (trace s))) as [msg|] eqn:Hspeak.
  { eexists. split; [done|]. split; [done|]. simpl.
    eexists. split; [by rewrite <-!(assoc_L (++))|]. done. }
  unfold listenForResponse, listenForResponseWith. simpl.
  destruct (recognition s) eqn:Hrec; simpl.
  2:{ eexists. split; [done|]. split; [done|]. simpl.
      eexists. split; [by rewrite <-!(assoc_L (++))|]. done. }
  unfold recognitionStart. simpl. rewrite Hrec.
  rewrite !startCount_snoc. simpl. rewrite !Nat.add_0_r.
  destruct (startResult env (startCount (trace s))) as [msg|] eqn:Hstart.
  - run_processNextHabit s' Hs' Hf. exists s'. split; [done|].
    split; [by rewrite (frame_responses _ _ Hf)|].
    destruct (frame_trace _ _ Hf) as [d Hd]. simpl in Hd.
    eexists. split; [rewrite Hd; by rewrite <-!(assoc_L (++))|]. done.
  - eexists. split; [done|]. split; [done|]. simpl.
    eexists. split; [by rewrite <-!(assoc_L (++))|]. done.
Qed.

Lemma spoken_response_is_classified_witness :
  recognitionContext demoListening
  = Some (HabitContext {| key := "habit_1"; text := "Drink water" |})
  ∧ let env := demoEnv demoStack in
    let s := demoListening in
    let h := {| key := "habit_1"; text := "Drink water" |} in
    let t := Js.toLowerCase (Js.trim "maybe kind of") in
    (∃ s', handleSpeechResult env "maybe kind of" s = Some s'
       ∧ if Js.includes t "yes" || Js.includes t "yeah" || Js.includes t "yep"
         then responses s' = <[key h := "yes"]> (responses s)
         else if Js.includes t "no" || Js.includes t "nope" || Js.includes t "nah"
         then responses s' = <[key h := "no"]> (responses s)
         else if Js.includes t "skip"
         then responses s' = <[key h := "skip"]> (responses s)
         else responses s' = responses s
              ∧ ∃ d, trace s' = trace s ++ Speak SORRY_PROMPT :: d
                  ∧ (speakResult env (speakCount (trace s)) = None →
                     startResult env (startCount (trace s)) = None →
                     recognition s = true →
                     d = [OnStatusUpdate "Listening for your response..."; RecognitionStart]
                     ∧ recognitionContext s' = Some (HabitContext h)
                     ∧ currentHabitIndex s' = currentHabitIndex s))
    ∧ classify (Js.toLowerCase (Js.trim "yeah I did it")) = Some "yes"
    ∧ classify (Js.toLowerCase (Js.trim "nah not today")) = Some "no"
    ∧ classify (Js.toLowerCase (Js.trim "let's skip that one")) = Some "skip"
    ∧ classify (Js.toLowerCase (Js.trim "maybe kind of")) = None.
Proof.
  assert (recognitionContext demoListening
          = Some (HabitContext {| key := "habit_1"; text := "Drink water" |})) as H
    by reflexivity.
  split; [exact H|].
  exact (spoken_response_is_classified (demoEnv demoStack) "maybe kind of"
           demoListening {| key := "habit_1"; text := "Drink water" |} H).
Defined.

Lemma habitPrompt_nonempty h : habitPrompt h ≠ "".
Proof. intros H. cbv in H. discriminate H. Qed.

Lemma speakText_nonempty env txt s :
  txt ≠ "" →
  speakText env txt s
  = match speakResult env (speakCount (trace s)) with
    | None => (None, emit (Speak txt) s)
    | Some msg => (Some msg, handleError ("Failed to speak text: " +:+ msg)
                               (emit (Speak txt) s))
    end.
Proof. intros H. unfold speakText. by destruct (decide (txt = "")). Qed.

(** The trace of a state reached from [s1], itself [p] after [s]. *)
Lemma frame_extends s s1 s2 p :
  frame s1 s2 → trace s1 = trace s ++ p → ∃ d, trace s2 = trace s ++ p ++ d.
Proof. intros Hf H1. by eapply frame_trace_after. Qed.

Lemma submitDailyLog_index env s :
  currentHabitIndex (submitDailyLog env s) = currentHabitIndex s.
Proof.
  unfold submitDailyLog, checkAuthentication, speakText.
  repeat case_match; simplify_eq/=; done.
Qed.

(** The reflection phase: the prompt is spoken; when it is and the
    recognition starts, the session listens for the reflection. *)
Lemma askForReflection_spec env s :
  ∃ d', trace (askForReflection env s)
        = trace s
          ++ [OnStatusUpdate "All habits processed. Would you like to add a reflection?";
              Speak REFLECTION_PROMPT] ++ d'
    ∧ currentHabitIndex (askForReflection env s) = currentHabitIndex s
    ∧ (speakResult env (speakCount (trace s)) = None →
       startResult env (startCount (trace s)) = None →
       recognition s = true →
       d' = [RecognitionStart]
       ∧ recognitionContext (askForReflection env s) = Some ReflectionContext
       ∧ isProcessing (askForReflection env s) = isProcessing s).
Proof.
  unfold askForReflection. rewrite speakText_nonempty by done.
  change (trace (updateStatus ?m s)) with (trace s ++ [OnStatusUpdate m]).
  rewrite speakCount_snoc. simpl. rewrite Nat.add_0_r.
  destruct (speakResult env (speakCount (trace s))) as [msg|] eqn:Hspeak.
  { match goal with
    | |- context [submitDailyLog env ?x] =>
        destruct (frame_extends s x (submitDailyLog env x)
                    [OnStatusUpdate "All habits processed. Would you like to add a reflection?";
                     Speak REFLECTION_PROMPT;
                     OnStatusUpdate ("Error: " +:+ userMessageOf ("Failed to speak text: " +:+ msg));
                     OnError {| message := userMessageOf ("Failed to speak text: " +:+ msg);
                                technicalDetails := "Failed to speak text: " +:+ msg |};
                     OnStatusUpdate ("Error: " +:+ userMessageOf ("Error asking for reflection: " +:+ msg));
                     OnError {| message := userMessageOf ("Error asking for reflection: " +:+ msg);
                                technicalDetails := "Error asking for reflection: " +:+ msg |}])
          as [d Hd];
        [auto with frame|simpl; by rewrite <-!(assoc_L (++))|]
    end.
    eexists. split; [rewrite Hd; simpl; reflexivity|].
    split; [by rewrite submitDailyLog_index|done]. }
  unfold recognitionStart. simpl.
  destruct (recognition s) eqn:Hrec.
  2:{ match goal with
      | |- context [submitDailyLog env ?x] =>
          destruct (frame_extends s x (submitDailyLog env x)
                      [OnStatusUpdate "All habits processed. Would you like to add a reflection?";
                       Speak REFLECTION_PROMPT;
                       OnStatusUpdate ("Error: " +:+ userMessageOf ("Error asking for reflection: " +:+ "Cannot read properties of null (reading 'start')"));
                       OnError {| message := userMessageOf ("Error asking for reflection: " +:+ "Cannot read properties of null (reading 'start')");
                                  technicalDetails := "Error asking for reflection: " +:+ "Cannot read properties of null (reading 'start')" |}])
            as [d Hd];
          [auto with frame|simpl; by rewrite <-!(assoc_L (++))|]
      end.
      eexists. split; [rewrite Hd; simpl; reflexivity|].
      split; [by rewrite submitDailyLog_index|done]. }
  rewrite !startCount_snoc. simpl. rewrite !Nat.add_0_r.
  destruct (startResult env (startCount (trace s))) as [msg|] eqn:Hstart.
  { match goal with
    | |- context [submitDailyLog env ?x] =>
        destruct (frame_extends s x (submitDailyLog env x)
                    [OnStatusUpdate "All habits processed. Would you like to add a reflection?";
                     Speak REFLECTION_PROMPT; RecognitionStart;
                     OnStatusUpdate ("Error: " +:+ userMessageOf ("Error asking for reflection: " +:+ msg));
                     OnError {| message := userMessageOf ("Error asking for reflection: " +:+ msg);
                                technicalDetails := "Error asking for reflection: " +:+ msg |}])
          as [d Hd];
        [auto with frame|simpl; by rewrite <-!(assoc_L (++))|]
    end.
    eexists. split; [rewrite Hd; simpl; reflexivity|].
    split; [by rewrite submitDailyLog_index|done]. }
  exists [RecognitionStart]. simpl. split; [by rewrite <-!(assoc_L (++))|]. done.
Qed.

(** One call of [processNextHabit] in a session that has its stack: the
    next habit is read out (and, its prompt spoken and recognition started,
    listened for), or the reflection phase begins. *)
Lemma processNextHabitWithin_spec depth env s stack s' :
  habitStack s = Some stack →
  processNextHabitWithin (S depth) env s = Some s' →
  match habitsOf stack !! currentHabitIndex s with
  | Some next =>
      ∃ d', trace s'
            = trace s
              ++ [OnStatusUpdate ("Habit " +:+ Js.ofNat (currentHabitIndex s + 1)
                                    +:+ ": " +:+ text next);
                  OnHabitRead next; Speak (habitPrompt next)] ++ d'
        ∧ (speakResult env (speakCount (trace s)) = None →
           startResult env (startCount (trace s)) = None →
           recognition s = true →
           d' = [OnStatusUpdate "Listening for your response..."; RecognitionStart]
           ∧ currentHabitIndex s' = currentHabitIndex s
           ∧ recognitionContext s' = Some (HabitContext next)
           ∧ isProcessing s' = isProcessing s)
  | None =>
      ∃ d', trace s'
            = trace s
              ++ [OnStatusUpdate "All habits processed. Would you like to add a reflection?";
                  Speak REFLECTION_PROMPT] ++ d'
        ∧ currentHabitIndex s' = currentHabitIndex s
        ∧ (speakResult env (speakCount (trace s)) = None →
           startResult env (startCount (trace s)) = None →
           recognition s = true →
           d' = [RecognitionStart]
           ∧ recognitionContext s' = Some ReflectionContext
           ∧ isProcessing s' = isProcessing s)
  end.
Proof.
  intros Hstack. simpl. rewrite Hstack.
  destruct (habitsOf stack !! currentHabitIndex s) as [next|];
    [|intros [= <-]; apply askForReflection_spec].
  rewrite speakText_nonempty by apply habitPrompt_nonempty.
  simpl. rewrite !speakCount_snoc. simpl. rewrite !Nat.add_0_r.
  destruct (speakResult env (speakCount (trace s))) as [msg|] eqn:Hspeak.
  { intros Hs'. apply frame_processNextHabitWithin in Hs'.
    destruct (frame_trace _ _ Hs') as [d Hd]. simpl in Hd.
    eexists. split; [rewrite Hd; by rewrite <-!(assoc_L (++))|done]. }
  unfold listenForResponseWith. simpl.
  destruct (recognition s) eqn:Hrec; simpl.
  2:{ intros [= <-]. simpl. eexists.
      split; [by rewrite <-!(assoc_L (++))|done]. }
  unfold recognitionStart. simpl. rewrite Hrec.
  rewrite !startCount_snoc. simpl. rewrite !Nat.add_0_r.
  destruct (startResult env (startCount (trace s))) as [msg|] eqn:Hstart.
  { intros Hs'. apply frame_processNextHabitWithin in Hs'.
    destruct (frame_trace _ _ Hs') as [d Hd]. simpl in Hd.
    eexists. split; [rewrite Hd; by rewrite <-!(assoc_L (++))|done]. }
  intros [= <-]. simpl. eexists. split; [by rewrite <-!(assoc_L (++))|done].
Qed.

Lemma processNextHabitWithin_S depth env s :
  processNextHabitWithin (S depth) env s
  = match habitStack s with
    | None => Some (setProcessing false (updateStatus "No habit stack available." s))
    | Some stack =>
        match habitsOf stack !! currentHabitIndex s with
        | None => Some (askForReflection env s)
        | Some currentHabit =>
            let s2 := emit (OnHabitRead currentHabit)
                        (updateStatus ("Habit " +:+ Js.ofNat (currentHabitIndex s + 1)
                                         +:+ ": " +:+ text currentHabit) s) in
            match speakText env (habitPrompt currentHabit) s2 with
            | (None, s3) =>
                listenForResponseWith (processNextHabitWithin depth env)
                  env currentHabit s3
            | (Some msg, s3) =>
                let s4 := handleError ("Error processing habit: " +:+ msg) s3 in
                processNextHabitWithin depth env
                  (setIndex (currentHabitIndex s4 + 1) s4)
            end
        end
    end.
Proof. done. Qed.

(** The [catch] of [processNextHabit]: when the prompt of habit [i] cannot
    be spoken, the failure is reported and the session goes on with habit
    [i+1], or with the reflection after the last habit. *)
Lemma unspoken_prompt_moves_on env s stack h msg :
  habitStack s = Some stack →
  habitsOf stack !! currentHabitIndex s = Some h →
  speakResult env (speakCount (trace s)) = Some msg →
  ∃ s' d,
    processNextHabit env s = Some s'
    ∧ trace s'
      = trace s
        ++ [OnStatusUpdate ("Habit " +:+ Js.ofNat (currentHabitIndex s + 1)
                              +:+ ": " +:+ text h);
            OnHabitRead h; Speak (habitPrompt h);
            OnStatusUpdate ("Error: " +:+ userMessageOf ("Failed to speak text: " +:+ msg));
            OnError {| message := userMessageOf ("Failed to speak text: " +:+ msg);
                       technicalDetails := "Failed to speak text: " +:+ msg |};
            OnStatusUpdate ("Error: "
                              +:+ userMessageOf ("Error processing habit: " +:+ msg));
            OnError {| message := userMessageOf ("Error processing habit: " +:+ msg);
                       technicalDetails := "Error processing habit: " +:+ msg |}]
        ++ d
    ∧ responses s' = responses s
    ∧ currentHabitIndex s + 1 ≤ currentHabitIndex s'
    ∧ match habitsOf stack !! (currentHabitIndex s + 1) with
      | Some next =>
          ∃ d', d = [OnStatusUpdate ("Habit " +:+ Js.ofNat (currentHabitIndex s + 1 + 1)
                                       +:+ ": " +:+ text next);
                     OnHabitRead next; Speak (habitPrompt next)] ++ d'
      | None =>
          ∃ d', d = [OnStatusUpdate
                       "All habits processed. Would you like to add a reflection?";
                     Speak REFLECTION_PROMPT] ++ d'
            ∧ currentHabitIndex s' = currentHabitIndex s + 1
      end.
Proof.
  intros Hstack Hh Hspeak.
  change (processNextHabit env s) with (processNextHabitWithin 6 env s).
  rewrite processNextHabitWithin_S, Hstack, Hh. cbv zeta.
  unfold speakText. rewrite decide_False by apply habitPrompt_nonempty.
  change (speakCount (trace (emit ?e (updateStatus ?m s))))
    with (speakCount ((trace s ++ [OnStatusUpdate m]) ++ [e])).
  rewrite !speakCount_snoc. simpl isSpeak. cbv iota. rewrite !Nat.add_0_r, Hspeak.
  set (s1 := setIndex _ _).
  assert (trace s1 = trace s
            ++ [OnStatusUpdate ("Habit " +:+ Js.ofNat (currentHabitIndex s + 1)
                                  +:+ ": " +:+ text h);
                OnHabitRead h; Speak (habitPrompt h);
                OnStatusUpdate ("Error: " +:+ userMessageOf ("Failed to speak text: " +:+ msg));
                OnError {| message := userMessageOf ("Failed to speak text: " +:+ msg);
                           technicalDetails := "Failed to speak text: " +:+ msg |};
                OnStatusUpdate ("Error: "
                                  +:+ userMessageOf ("Error processing habit: " +:+ msg));
                OnError {| message := userMessageOf ("Error processing habit: " +:+ msg);
                           technicalDetails := "Error processing habit: " +:+ msg |}])
    as Ht1 by (subst s1; simpl; by rewrite <-!(assoc_L (++))).
  assert (habitStack s1 = Some stack) as Hstack1 by done.
  assert (currentHabitIndex s1 = currentHabitIndex s + 1) as Hi1 by done.
  assert (responses s1 = responses s) as Hr1 by done.
  clearbody s1.
  destruct (processNextHabitWithin_total 5 env s1) as [s' Hs'].
  { rewrite Hstack1, Hi1. pose proof (habitsOf_length stack). lia. }
  pose proof (frame_processNextHabitWithin 5 env s1 s' Hs') as Hf.
  destruct (frame_extends s s1 s' _ Hf Ht1) as [d Hd].
  exists s', d. split; [done|]. split; [done|].
  split; [by rewrite (frame_responses _ _ Hf)|].
  split; [pose proof (frame_index _ _ Hf) as Hi; lia|].
  pose proof (processNextHabitWithin_spec 4 env s1 stack s' Hstack1 Hs') as Hspec.
  rewrite Hi1 in Hspec.
  destruct (habitsOf stack !! (currentHabitIndex s + 1)) as [next|].
  - destruct Hspec as (d' & Hd' & _). exists d'.
    rewrite Ht1, Hd, <-!(assoc_L (++)) in Hd'. by simplify_list_eq.
  - destruct Hspec as (d' & Hd' & Hi' & _). exists d'. split; [|congruence].
    rewrite Ht1, Hd, <-!(assoc_L (++)) in Hd'. by simplify_list_eq.
Qed.

(** C4. An error while habit [i] is processed does not end the session.
    A recognition error while the session waits for the response to habit
    [i] goes to the error callback, no response is recorded, the habit index
    moves past [i], and the session goes on with habit [i+1] (its prompt is
    spoken and, the prompt spoken and recognition restarted, the session
    listens for it) or, after the last habit, with the reflection prompt.
    The same holds when the prompt of habit [i] cannot be spoken: the failure
    goes to the error callback, nothing is recorded, and the prompt of habit
    [i+1], or the reflection prompt after the last habit, is spoken next. *)
Theorem speech_error_moves_to_next_habit
    (env : Env) (err : string) (s : DailyHabitTracker) (h : Habit)
    (stack : gmap string string) :
  recognitionContext s = Some (HabitContext h) →
  habitStack s = Some stack →
  (let technical := "Speech recognition error: " +:+ err in
    let i := currentHabitIndex s in
    ∃ s' d,
      handleSpeechError env err s = Some s'
      ∧ trace s'
        = trace s
          ++ [OnStatusUpdate ("Error: " +:+ userMessageOf technical);
              OnError {| message := userMessageOf technical;
                         technicalDetails := technical |}] ++ d
      ∧ responses s' = responses s
      ∧ i + 1 ≤ currentHabitIndex s'
      ∧ match habitsOf stack !! (i + 1) with
        | Some next =>
            ∃ d', d = [OnStatusUpdate ("Habit " +:+ Js.ofNat (i + 1 + 1) +:+ ": "
                                         +:+ text next);
                       OnHabitRead next; Speak (habitPrompt next)] ++ d'
              ∧ (speakResult env (speakCount (trace s)) = None →
                 startResult env (startCount (trace s)) = None →
                 recognition s = true →
                 d' = [OnStatusUpdate "Listening for your response..."; RecognitionStart]
                 ∧ currentHabitIndex s' = i + 1
                 ∧ recognitionContext s' = Some (HabitContext next)
                 ∧ isProcessing s' = isProcessing s)
        | None =>
            ∃ d', d = [OnStatusUpdate
                         "All habits processed. Would you like to add a reflection?";
                       Speak REFLECTION_PROMPT] ++ d'
              ∧ currentHabitIndex s' = i + 1
              ∧ (speakResult env (speakCount (trace s)) = None →
                 startResult env (startCount (trace s)) = None →
                 recognition s = true →
                 d' = [RecognitionStart]
                 ∧ recognitionContext s' = Some ReflectionContext
                 ∧ isProcessing s' = isProcessing s)
        end)
  ∧ (∀ t h' msg,
       habitStack t = Some stack →
       habitsOf stack !! currentHabitIndex t = Some h' →
       speakResult env (speakCount (trace t)) = Some msg →
       ∃ t' d,
         processNextHabit env t = Some t'
         ∧ trace t'
           = trace t
             ++ [OnStatusUpdate ("Habit " +:+ Js.ofNat (currentHabitIndex t + 1)
                                   +:+ ": " +:+ text h');
                 OnHabitRead h'; Speak (habitPrompt h');
                 OnStatusUpdate
                   ("Error: " +:+ userMessageOf ("Failed to speak text: " +:+ msg));
                 OnError {| message := userMessageOf ("Failed to speak text: " +:+ msg);
                            technicalDetails := "Failed to speak text: " +:+ msg |};
                 OnStatusUpdate
                   ("Error: " +:+ userMessageOf ("Error processing habit: " +:+ msg));
                 OnError {| message := userMessageOf ("Error processing habit: " +:+ msg);
                            technicalDetails := "Error processing habit: " +:+ msg |}]
             ++ d
         ∧ responses t' = responses t
         ∧ currentHabitIndex t + 1 ≤ currentHabitIndex t'
         ∧ match habitsOf stack !! (currentHabitIndex t + 1) with
           | Some next =>
               ∃ d', d = [OnStatusUpdate
                            ("Habit " +:+ Js.ofNat (currentHabitIndex t + 1 + 1)
                               +:+ ": " +:+ text next);
                          OnHabitRead next; Speak (habitPrompt next)] ++ d'
           | None =>
               ∃ d', d = [OnStatusUpdate
                            "All habits processed. Would you like to add a reflection?";
                          Speak REFLECTION_PROMPT] ++ d'
                 ∧ currentHabitIndex t' = currentHabitIndex t + 1
           end).
Proof.
  intros Hctx Hstack.
  split; [|intros t h' msg; apply unspoken_prompt_moves_on].
  intros technical i.
  unfold handleSpeechError. fold technical.
  change (recognitionContext (handleError technical s)) with (recognitionContext s).
  rewrite Hctx.
  set (s1 := setIndex _ _).
  assert (trace s1 = trace s
            ++ [OnStatusUpdate ("Error: " +:+ userMessageOf technical);
                OnError {| message := userMessageOf technical;
                           technicalDetails := technical |}]) as Ht1
    by (subst s1; simpl; by rewrite <-(assoc_L (++))).
  destruct (processNextHabit_total env s1) as [s' Hs'].
  pose proof (frame_processNextHabit env s1 s' Hs') as Hf.
  destruct (frame_extends s s1 s' _ Hf Ht1) as [d Hd].
  exists s', d. split; [done|]. split; [done|].
  split; [by rewrite (frame_responses _ _ Hf)|].
  split; [pose proof (frame_index _ _ Hf) as Hi; by subst s1|].
  assert (speakCount (trace s1) = speakCount (trace s)) as Hsc
    by (rewrite Ht1; unfold speakCount; rewrite List.filter_app, length_app;
        simpl; lia).
  assert (startCount (trace s1) = startCount (trace s)) as Htc
    by (rewrite Ht1; unfold startCount; rewrite List.filter_app, length_app;
        simpl; lia).
  pose proof (processNextHabitWithin_spec 5 env s1 stack s' Hstack Hs') as Hspec.
  rewrite Hsc, Htc in Hspec.
  change (currentHabitIndex s1) with (i + 1) in Hspec.
  change (recognition s1) with (recognition s) in Hspec.
  change (isProcessing s1) with (isProcessing s) in Hspec.
  destruct (habitsOf stack !! (i + 1)) as [next|].
  - destruct Hspec as (d' & Hd' & Hok). exists d'. split; [|done].
    rewrite Ht1, Hd, <-!(assoc_L (++)) in Hd'. by simplify_list_eq.
  - destruct Hspec as (d' & Hd' & Hok). exists d'. split; [|done].
    rewrite Ht1, Hd, <-!(assoc_L (++)) in Hd'. by simplify_list_eq.
Qed.

Lemma speech_error_moves_to_next_habit_witness :
  recognitionContext listeningFirstOfThree
  = Some (HabitContext {| key := "habit_1"; text := "Drink water" |})
  ∧ habitStack listeningFirstOfThree = Some threeHabits
  ∧ (let env := thirdSpeechFails in
      let s := listeningFirstOfThree in
      let technical := "Speech recognition error: " +:+ "no-speech" in
      let i := currentHabitIndex s in
      ∃ s' d,
        handleSpeechError env "no-speech" s = Some s'
        ∧ trace s'
          = trace s
            ++ [OnStatusUpdate ("Error: " +:+ userMessageOf technical);
                OnError {| message := userMessageOf technical;
                           technicalDetails := technical |}] ++ d
        ∧ responses s' = responses s
        ∧ i + 1 ≤ currentHabitIndex s'
        ∧ match habitsOf threeHabits !! (i + 1) with
          | Some next =>
              ∃ d', d = [OnStatusUpdate ("Habit " +:+ Js.ofNat (i + 1 + 1) +:+ ": "
                                           +:+ text next);
                         OnHabitRead next; Speak (habitPrompt next)] ++ d'
                ∧ (speakResult env (speakCount (trace s)) = None →
                   startResult env (startCount (trace s)) = None →
                   recognition s = true →
                   d' = [OnStatusUpdate "Listening for your response..."; RecognitionStart]
                   ∧ currentHabitIndex s' = i + 1
                   ∧ recognitionContext s' = Some (HabitContext next)
                   ∧ isProcessing s' = isProcessing s)
          | None =>
              ∃ d', d = [OnStatusUpdate
                           "All habits processed. Would you like to add a reflection?";
                         Speak REFLECTION_PROMPT] ++ d'
                ∧ currentHabitIndex s' = i + 1
                ∧ (speakResult env (speakCount (trace s)) = None →
                   startResult env (startCount (trace s)) = None →
                   recognition s = true →
                   d' = [RecognitionStart]
                   ∧ recognitionContext s' = Some ReflectionContext
                   ∧ isProcessing s' = isProcessing s)
          end)
  ∧ (∀ t h' msg,
       habitStack t = Some threeHabits →
       habitsOf threeHabits !! currentHabitIndex t = Some h' →
       speakResult (thirdSpeechFails) (speakCount (trace t)) = Some msg →
       ∃ t' d,
         processNextHabit (thirdSpeechFails) t = Some t'
         ∧ trace t'
           = trace t
             ++ [OnStatusUpdate ("Habit " +:+ Js.ofNat (currentHabitIndex t + 1)
                                   +:+ ": " +:+ text h');
                 OnHabitRead h'; Speak (habitPrompt h');
                 OnStatusUpdate
                   ("Error: " +:+ userMessageOf ("Failed to speak text: " +:+ msg));
                 OnError {| message := userMessageOf ("Failed to speak text: " +:+ msg);
                            technicalDetails := "Failed to speak text: " +:+ msg |};
                 OnStatusUpdate
                   ("Error: " +:+ userMessageOf ("Error processing habit: " +:+ msg));
                 OnError {| message := userMessageOf ("Error processing habit: " +:+ msg);
                            technicalDetails := "Error processing habit: " +:+ msg |}]
             ++ d
         ∧ responses t' = responses t
         ∧ currentHabitIndex t + 1 ≤ currentHabitIndex t'
         ∧ match habitsOf threeHabits !! (currentHabitIndex t + 1) with
           | Some next =>
               ∃ d', d = [OnStatusUpdate
                            ("Habit " +:+ Js.ofNat (currentHabitIndex t + 1 + 1)
                               +:+ ": " +:+ text next);
                          OnHabitRead next; Speak (habitPrompt next)] ++ d'
           | None =>
               ∃ d', d = [OnStatusUpdate
                            "All habits processed. Would you like to add a reflection?";
                          Speak REFLECTION_PROMPT] ++ d'
                 ∧ currentHabitIndex t' = currentHabitIndex t + 1
           end)
  ∧ habitStack secondErrorOfThree = Some threeHabits
  ∧ habitsOf threeHabits !! currentHabitIndex secondErrorOfThree
    = Some {| key := "habit_3"; text := "Read" |}
  ∧ speakResult thirdSpeechFails (speakCount (trace secondErrorOfThree))
    = Some "synthesis-failed".
Proof.
  assert (recognitionContext listeningFirstOfThree
          = Some (HabitContext {| key := "habit_1"; text := "Drink water" |})) as H1
    by reflexivity.
  assert (habitStack listeningFirstOfThree = Some threeHabits) as H2 by reflexivity.
  split; [exact H1|]. split; [exact H2|].
  destruct (speech_error_moves_to_next_habit thirdSpeechFails "no-speech"
              listeningFirstOfThree _ threeHabits H1 H2) as [HA HB].
  split; [exact HA|]. split; [exact HB|].
  split; [reflexivity|]. split; reflexivity.
Defined.

(** C8, as the code runs it. Over the stack of "Drink water" and "Stretch",
    with the answers "yes", "no" and then "skip" to the reflection prompt,
    one payload is posted: its responses are yes for [habit_1] and no for
    [habit_2], and its reflection is the text "skip", not the empty text. *)
Theorem declined_reflection_is_posted_as_skip :
  (λ s, submitted (trace s))
    <$> run (demoEnv demoStack) demoStart
          [Click; SpeechResult "yes"; SpeechResult "no"; SpeechResult "skip"]
  = Some [ {| user_id := "user123"; date := "2024-01-10";
              p_responses := <["habit_1" := "yes"]> (<["habit_2" := "no"]> ∅);
              p_reflection := "skip" |} ].
Proof. by vm_compute. Qed.

(** The reading of C9 word for word: with a fetched stack that has no habit,
    the session is over after the click, with an error reported and no
    prompt spoken. *)
Definition abortsOnEmptyStack (env : Env) (s : DailyHabitTracker) : Prop :=
  ∀ s', startDailyCheck env s = Some s' →
        isProcessing s' = false
        ∧ (∃ info, OnError info ∈ trace s')
        ∧ Speak REFLECTION_PROMPT ∉ trace s'.

(** With an empty stack object fetched, the click leads to the reflection
    prompt: no error is reported and the session is still running. *)
Lemma empty_stack_does_not_abort :
  habitsOf ∅ = []
  ∧ (λ s, (isProcessing s, recognitionContext s, trace s))
      <$> startDailyCheck (demoEnv ∅) demoStart
    = Some (true, Some ReflectionContext,
            [OnStart; OnStatusUpdate "Starting daily habit check...";
             OnStatusUpdate "Fetching your habits for today...";
             GetHabitStack "user123" "2024-01-10";
             OnStatusUpdate "Habits loaded for today.";
             OnStatusUpdate "All habits processed. Would you like to add a reflection?";
             Speak REFLECTION_PROMPT; RecognitionStart])
  ∧ ¬ abortsOnEmptyStack (demoEnv ∅) demoStart.
Proof.
  split; [reflexivity|]. split; [by vm_compute|].
  intros H.
  destruct (startDailyCheck (demoEnv ∅) demoStart) as [s'|] eqn:E;
    [|by vm_compute in E].
  destruct (H s' E) as [Hp _].
  vm_compute in E. injection E as <-. discriminate Hp.
Qed.

Lemma submitted_app l1 l2 : submitted (l1 ++ l2) = submitted l1 ++ submitted l2.
Proof.
  induction l1 as [|ev l1 IH]; [done|]. destruct ev; simpl; by rewrite ?IH.
Qed.

(** A fetch that brings a stack. *)
Lemma fetchHabitStack_ok env s uid stack status statusText errorField err ok :
  getUserId s = Some uid →
  stackResult env = Response status statusText errorField (Json ok err (Some stack)) →
  isOk status = true → ok ≠ Some false →
  fetchHabitStack env s
  = (None, updateStatus "Habits loaded for today."
             (setHabitStack (Some stack)
                (emit (GetHabitStack uid (formattedDate s))
                   (updateStatus "Fetching your habits for today..." s)))).
Proof.
  intros Huid Hfetch Hok Hsucc. unfold fetchHabitStack.
  change (getUserId (updateStatus ?m s)) with (getUserId s).
  rewrite Huid, Hfetch, Hok. by destruct ok as [[|]|].
Qed.

(** C9, amended. When the fetch succeeds with a stack that has no non-empty
    habit slot, the session does not abort: the click leads straight to the
    reflection prompt, with nothing recorded, and (the prompt spoken and
    recognition started) the session listens for the reflection. Whatever is
    then said, nothing is posted: the session ends with the failure
    "No habit responses to submit". *)
Theorem empty_stack_goes_to_reflection
    (env : Env) (s : DailyHabitTracker) (uid : string) (stack : gmap string string)
    (status : nat) (statusText errorField err : string) (ok : option bool) :
  isProcessing s = false → getUserId s = Some uid →
  stackResult env = Response status statusText errorField (Json ok err (Some stack)) →
  isOk status = true → ok ≠ Some false →
  habitsOf stack = [] →
  ∃ s' d,
    startDailyCheck env s = Some s'
    ∧ trace s'
      = trace s
        ++ [OnStart; OnStatusUpdate "Starting daily habit check...";
            OnStatusUpdate "Fetching your habits for today...";
            GetHabitStack uid (formattedDate s);
            OnStatusUpdate "Habits loaded for today.";
            OnStatusUpdate "All habits processed. Would you like to add a reflection?";
            Speak REFLECTION_PROMPT] ++ d
    ∧ responses s' = ∅
    ∧ (speakResult env (speakCount (trace s)) = None →
       startResult env (startCount (trace s)) = None →
       recognition s = true →
       d = [RecognitionStart]
       ∧ isProcessing s' = true
       ∧ recognitionContext s' = Some ReflectionContext
       ∧ ∀ spoken, ∃ s'',
           handleSpeechResult env spoken s' = Some s''
           ∧ submitted (trace s'') = submitted (trace s)
           ∧ isProcessing s'' = false
           ∧ last (trace s'')
             = Some (OnComplete {| c_responses := ∅;
                                   c_reflection := Js.toLowerCase (Js.trim spoken);
                                   success := false;
                                   error := Some "No habit responses to submit" |})).
Proof.
  intros Hproc Huid Hfetch Hok Hsucc Hempty.
  unfold startDailyCheck. rewrite Hproc.
  unfold checkAuthentication. rewrite Huid.
  rewrite (fetchHabitStack_ok env _ uid stack status statusText errorField err ok);
    [|done..].
  set (s1 := setIndex 0 _).
  assert (trace s1 = trace s
            ++ [OnStart; OnStatusUpdate "Starting daily habit check...";
                OnStatusUpdate "Fetching your habits for today...";
                GetHabitStack uid (formattedDate s);
                OnStatusUpdate "Habits loaded for today."]
          ∧ habitStack s1 = Some stack ∧ responses s1 = ∅
          ∧ isProcessing s1 = true ∧ userId s1 = userId s
          ∧ recognition s1 = recognition s ∧ currentHabitIndex s1 = 0) as H1.
  { subst s1. simpl. by rewrite <-!(assoc_L (++)). }
  clearbody s1. destruct H1 as (Ht1 & Hst1 & Hr1 & Hp1 & Hu1 & Hrec1 & Hi1).
  destruct (processNextHabit_total env s1) as [s' Hs'].
  pose proof (frame_processNextHabit env s1 s' Hs') as Hf.
  pose proof (processNextHabitWithin_spec 5 env s1 stack s' Hst1 Hs') as Hspec.
  rewrite Hempty, Hi1 in Hspec. simpl in Hspec.
  destruct Hspec as (d & Hd & _ & Hcond).
  assert (responses s' = ∅) as Hr' by by rewrite (frame_responses _ _ Hf).
  exists s', d. split; [done|].
  split; [rewrite Hd, Ht1; by rewrite <-!(assoc_L (++))|].
  split; [done|].
  intros Hspeak Hstart Hrec.
  assert (speakCount (trace s1) = speakCount (trace s)) as Hsc
    by (rewrite Ht1; unfold speakCount; rewrite List.filter_app, length_app;
        simpl; lia).
  assert (startCount (trace s1) = startCount (trace s)) as Htc
    by (rewrite Ht1; unfold startCount; rewrite List.filter_app, length_app;
        simpl; lia).
  rewrite Hsc, Htc, Hrec1 in Hcond.
  destruct (Hcond Hspeak Hstart Hrec) as (-> & Hctx & Hp').
  split; [done|]. split; [congruence|]. split; [done|].
  intros spoken. unfold handleSpeechResult. rewrite Hctx.
  eexists. split; [reflexivity|].
  unfold submitDailyLog, checkAuthentication.
  change (getUserId (updateStatus ?m (setReflection ?r s'))) with (getUserId s').
  assert (getUserId s' = Some uid) as Hu'.
  { unfold getUserId in *. by rewrite (frame_userId _ _ Hf), Hu1. }
  rewrite Hu'.
  change (getUserId (updateStatus ?m (updateStatus ?m' (setReflection ?r s'))))
    with (getUserId s').
  rewrite Hu'.
  change (responses (updateStatus ?m (updateStatus ?m' (setReflection ?r s'))))
    with (responses s').
  rewrite Hr'. rewrite map_size_empty.
  destruct (decide (0 = 0)) as [_|]; [|done].
  simpl. split; [|split; [done|by rewrite last_snoc, Hr']].
  rewrite !submitted_app. simpl. rewrite !(right_id_L [] (++)).
  rewrite Hd, Ht1, !submitted_app. simpl. by rewrite !(right_id_L [] (++)).
Qed.

Lemma empty_stack_goes_to_reflection_witness :
  isProcessing demoStart = false ∧ getUserId demoStart = Some "user123"
  ∧ stackResult (demoEnv ∅) = Response 200 "OK" "" (Json (Some true) "" (Some ∅))
  ∧ isOk 200 = true ∧ Some true ≠ Some false ∧ habitsOf ∅ = []
  ∧ let env := demoEnv ∅ in
    let s := demoStart in
    ∃ s' d,
      startDailyCheck env s = Some s'
      ∧ trace s'
        = trace s
          ++ [OnStart; OnStatusUpdate "Starting daily habit check...";
              OnStatusUpdate "Fetching your habits for today...";
              GetHabitStack "user123" (formattedDate s);
              OnStatusUpdate "Habits loaded for today.";
              OnStatusUpdate "All habits processed. Would you like to add a reflection?";
              Speak REFLECTION_PROMPT] ++ d
      ∧ responses s' = ∅
      ∧ (speakResult env (speakCount (trace s)) = None →
         startResult env (startCount (trace s)) = None →
         recognition s = true →
         d = [RecognitionStart]
         ∧ isProcessing s' = true
         ∧ recognitionContext s' = Some ReflectionContext
         ∧ ∀ spoken, ∃ s'',
             handleSpeechResult env spoken s' = Some s''
             ∧ submitted (trace s'') = submitted (trace s)
             ∧ isProcessing s'' = false
             ∧ last (trace s'')
               = Some (OnComplete {| c_responses := ∅;
                                     c_reflection := Js.toLowerCase (Js.trim spoken);
                                     success := false;
                                     error := Some "No habit responses to submit" |})).
Proof.
  assert (isProcessing demoStart = false) as H1 by reflexivity.
  assert (getUserId demoStart = Some "user123") as H2 by reflexivity.
  assert (stackResult (demoEnv ∅)
          = Response 200 "OK" "" (Json (Some true) "" (Some ∅))) as H3 by reflexivity.
  assert (isOk 200 = true) as H4 by reflexivity.
  assert (Some true ≠ Some false) as H5 by discriminate.
  assert (habitsOf ∅ = []) as H6 by reflexivity.
  repeat (split; [assumption|]).
  exact (empty_stack_goes_to_reflection (demoEnv ∅) demoStart "user123" ∅
           200 "OK" "" "" (Some true) H1 H2 H3 H4 H5 H6).
Defined.

End TrackerFacts.

(** ** Facts about the goals session *)

Module GoalsFacts.
Import Goals.









End GoalsFacts.

(** ** More facts about the dispatcher *)

Module TTSMore.
Import TTS TTSOps TTSFacts.

(** [speak] rejects at its two guards and nowhere else: for an empty text
    and for a service without providers, and then nothing has happened. Past
    the guards its promise is always fulfilled. *)
Theorem speak_rejects_only_at_guards (w : World) (text : string) (s : TTSService) :
  match (speak w text s).1 with
  | Rejected e =>
      (text = "" ∧ e = "No text provided for speech"
       ∨ text ≠ "" ∧ providerNames s = [] ∧ e = "No TTS providers available")
      ∧ (speak w text s).2 = s
  | Fulfilled => text ≠ "" ∧ providerNames s ≠ []
  end.
Proof.
  unfold speak. destruct (decide (text = "")) as [->|Ht]; [simpl; by auto|].
  unfold hasProviders.
  destruct (providerNames s) as [|n ns] eqn:E; [simpl; by auto|]. simpl "=?". simpl negb.
  cbv iota.
  destruct (tryCurrentProvider w text _) as [[e1|] s2]; [|done].
  destruct (switchToNextProvider s2) as [[|] s3]; [|done].
  by destruct (tryCurrentProvider w text s3) as [[e2|] s4].
Qed.

Lemma register_names s p :
  providerNames (register s p) = providerNames s ++ registeredNames [p].
Proof.
  unfold register, registeredNames.
  change (name <$> [p]) with [name p]. cbn [List.filter].
  destruct (String.eqb_spec (name p) "") as [He|Hne];
    destruct (decide (name p = "")); try done; simpl.
  by rewrite app_nil_r.
Qed.

Lemma registeredNames_cons p ps :
  registeredNames (p :: ps) = registeredNames [p] ++ registeredNames ps.
Proof.
  unfold registeredNames. change (name <$> p :: ps) with (name p :: (name <$> ps)).
  change (name <$> [p]) with [name p]. cbn [List.filter].
  by destruct (negb _).
Qed.

Lemma foldl_register_fields ps s :
  providerNames (foldl register s ps) = providerNames s ++ registeredNames ps
  ∧ currentProviderIndex (foldl register s ps) = currentProviderIndex s
  ∧ isPlaying (foldl register s ps) = isPlaying s
  ∧ trace (foldl register s ps) = trace s.
Proof.
  revert s. induction ps as [|p ps IH]; intros s; simpl.
  - by rewrite app_nil_r.
  - destruct (IH (register s p)) as (-> & -> & -> & ->).
    rewrite register_names, (registeredNames_cons p ps), (assoc_L (++)).
    unfold register. by destruct (decide (name p = "")).
Qed.

Lemma indexOf_spec x l :
  match indexOf x l with
  | Some i => l !! i = Some x ∧ ∀ j, j < i → l !! j ≠ Some x
  | None => x ∉ l
  end.
Proof.
  induction l as [|y l IH]; simpl; [by intros H; inversion H|].
  destruct (decide (x = y)) as [->|Hne]; [split; [done|intros j Hj; lia]|].
  destruct (indexOf x l) as [i|]; simpl.
  - destruct IH as [Hi Hlt]. split; [done|].
    intros [|j] Hj; simpl; [congruence|]. apply Hlt. lia.
  - intros [?|?]%elem_of_cons; done.
Qed.

(** The name of the active provider is the one the index points at. *)
Lemma current_name s :
  wf s → name <$> getCurrentProvider s = providerNames s !! currentProviderIndex s.
Proof.
  intros Hwf. unfold getCurrentProvider.
  destruct (providerNames s) as [|n ns] eqn:E; [done|]. rewrite <-E.
  destruct (providerNames s !! currentProviderIndex s) as [a|] eqn:Ha; [|done].
  destruct (wf_lookup s _ a Hwf Ha) as (p & Hp & Hn). simpl. by rewrite Hp; simpl; rewrite Hn.
Qed.

(** The constructor registers the providers that have a name, in order, and
    makes the default provider the active one when it is registered (the first
    one under that name); with no default, an unregistered default or an
    empty one, the first registered provider is active, and with no provider
    at all there is no active provider. Nothing is playing. *)
Theorem constructor_selects_default (ps : list Provider) (d : option string) :
  let s := constructor ps d in
  providerNames s = registeredNames ps
  ∧ isPlaying s = false ∧ trace s = []
  ∧ (∀ x, d = Some x → x ≠ "" → x ∈ registeredNames ps →
       name <$> getCurrentProvider s = Some x
       ∧ ∀ j, j < currentProviderIndex s → registeredNames ps !! j ≠ Some x)
  ∧ ((d = None ∨ d = Some "" ∨ ∃ x, d = Some x ∧ x ∉ registeredNames ps) →
       currentProviderIndex s = 0
       ∧ name <$> getCurrentProvider s = head (registeredNames ps))
  ∧ (getCurrentProvider s = None ↔ registeredNames ps = []).
Proof.
  intros s. pose proof (constructor_wf ps d) as Hwf. fold s in Hwf.
  destruct (foldl_register_fields ps TTS.empty) as (Hn & Hi & Hp & Ht).
  simpl in Hn, Hi, Hp, Ht.
  set (s0 := foldl register TTS.empty ps) in *.
  assert (providerNames s = registeredNames ps ∧ isPlaying s = false ∧ trace s = [])
    as (Hns & Hps & Hts).
  { subst s. unfold constructor. fold s0. destruct d as [x|]; [|done].
    destruct (decide (x = "")); [done|]. by destruct (indexOf x (providerNames s0)). }
  split; [done|]. split; [done|]. split; [done|].
  assert (∀ i, currentProviderIndex s = i →
               name <$> getCurrentProvider s = registeredNames ps !! i) as Hcur
    by (intros i <-; by rewrite current_name, Hns).
  split; [|split].
  - intros x -> Hx Hin. subst s. unfold constructor in *. fold s0 in Hcur |- *.
    destruct (decide (x = "")); [done|].
    pose proof (indexOf_spec x (providerNames s0)) as Hspec.
    destruct (indexOf x (providerNames s0)) as [i|]; [|by rewrite Hn in Hspec].
    rewrite Hn in Hspec. destruct Hspec as [Hl Hlt].
    split; [by rewrite (Hcur i)|done].
  - intros Hd.
    assert (currentProviderIndex s = 0) as H0.
    { subst s. unfold constructor. fold s0.
      destruct Hd as [->|[->|(x & -> & Hx)]]; [done|done|].
      destruct (decide (x = "")); [done|].
      pose proof (indexOf_spec x (providerNames s0)) as Hspec.
      destruct (indexOf x (providerNames s0)) as [i|]; [|done].
      rewrite Hn in Hspec. destruct Hspec as [Hl _].
      by apply list_elem_of_lookup_2 in Hl. }
    split; [done|]. rewrite (Hcur 0 H0). by destruct (registeredNames ps).
  - rewrite <-Hns. unfold getCurrentProvider.
    destruct (providerNames s) as [|n ns] eqn:E; [done|]. rewrite <-E.
    split; [|by rewrite E].
    intros Hnone. exfalso.
    destruct Hwf as [[Hnil|Hlt] Hinv]; [by rewrite E in Hnil|].
    destruct (lookup_lt_is_Some_2 _ _ Hlt) as [a Ha].
    rewrite Ha in Hnone. simpl in Hnone.
    destruct (Hinv a) as (q & Hq & _); [by eapply list_elem_of_lookup_2|].
    by rewrite Hq in Hnone.
Qed.

(** [stop] is idempotent, does nothing when nothing is playing, and leaves
    a service that has providers not playing and without the audio element
    it was playing. *)
Theorem stop_settles (s : TTSService) :
  stop (stop s) = stop s
  ∧ (isPlaying s = false → stop s = s)
  ∧ (wf s → providerNames s ≠ [] →
     isPlaying (stop s) = false
     ∧ (isPlaying s = true → currentAudio (stop s) = None)).
Proof.
  split; [|split].
  - unfold stop at 2 3. destruct (getCurrentProvider s) as [p|] eqn:Hp.
    + destruct (isPlaying s) eqn:Hpl.
      * unfold stop.
        assert (∀ t, sameConfig s t → getCurrentProvider (setPlaying false t) = Some p)
          as Hc by (intros t Ht; by rewrite (sameConfig_current s), Hp).
        rewrite Hc; [done|]. by destruct (currentAudio s), (hasStop p).
      * unfold stop. by rewrite Hp, Hpl.
    + unfold stop. by rewrite Hp.
  - intros Hpl. unfold stop. rewrite Hpl. by destruct (getCurrentProvider s).
  - intros Hwf Hne.
    assert (∃ p, getCurrentProvider s = Some p) as [p Hp].
    { destruct Hwf as [[?|Hlt] Hinv]; [done|].
      destruct (lookup_lt_is_Some_2 _ _ Hlt) as [a Ha].
      destruct (Hinv a) as (q & Hq & _); [by eapply list_elem_of_lookup_2|].
      exists q. by apply (getCurrentProvider_lookup s a). }
    unfold stop. rewrite Hp. destruct (isPlaying s) eqn:Hpl; [|done].
    split; [done|]. intros _.
    by destruct (currentAudio s) eqn:Ea, (hasStop p).
Qed.

Lemma stop_settles_witness :
  wf fishPlaying ∧ providerNames fishPlaying ≠ []
  ∧ isPlaying fishPlaying = true ∧ currentAudio fishPlaying = Some 7
  ∧ stop (stop fishPlaying) = stop fishPlaying
  ∧ (isPlaying fishPlaying = false → stop fishPlaying = fishPlaying)
  ∧ isPlaying (stop fishPlaying) = false
  ∧ (isPlaying fishPlaying = true → currentAudio (stop fishPlaying) = None).
Proof.
  assert (wf fishPlaying) as Hwf by apply speak_wf, constructor_wf.
  assert (providerNames fishPlaying ≠ []) as Hne by done.
  assert (isPlaying fishPlaying = true) as Hpl by reflexivity.
  assert (currentAudio fishPlaying = Some 7) as Hau by reflexivity.
  destruct (stop_settles fishPlaying) as (H1 & H2 & H3).
  destruct (H3 Hwf Hne) as [H4 H5].
  repeat (split; [assumption|]). exact H5.
Defined.

Lemma wf_current s :
  wf s → providerNames s ≠ [] →
  ∃ a p, providerNames s !! currentProviderIndex s = Some a
         ∧ getCurrentProvider s = Some p ∧ name p = a.
Proof.
  intros Hwf Hne. destruct (Hwf) as [[?|Hlt] _]; [done|].
  destruct (lookup_lt_is_Some_2 _ _ Hlt) as [a Ha].
  destruct (wf_lookup s _ a Hwf Ha) as (p & Hp & Hn).
  exists a, p. split; [done|]. split; [|done].
  by apply (getCurrentProvider_lookup s a).
Qed.

(** The first attempt of a [speak] call, whatever follows. *)
Lemma speak_begins w text s p :
  text ≠ "" → getCurrentProvider s = Some p →
  let s1 := setPlaying true (stop s) in
  getCurrentProvider s1 = Some p
  ∧ attempts (trace s1) = attempts (trace s)
  ∧ speak w text s
    = match tryCurrentProvider w text s1 with
      | (None, s2) => (Fulfilled, s2)
      | (Some error, s2) =>
          match switchToNextProvider s2 with
          | (true, s3) =>
              match tryCurrentProvider w text s3 with
              | (None, s4) => (Fulfilled, s4)
              | (Some secondError, s4) =>
                  (Fulfilled, emit (OnError secondError) (setPlaying false s4))
              end
          | (false, s3) => (Fulfilled, emit (OnError error) (setPlaying false s3))
          end
      end.
Proof.
  intros Ht Hp s1. destruct (stop_spec s) as (Hc & d & Hd & Ha).
  split; [by rewrite (sameConfig_current s s1)|]. split.
  { change (trace s1) with (trace (stop s)). rewrite Hd, attempts_app, Ha.
    apply app_nil_r. }
  unfold speak. destruct (decide (text = "")); [done|].
  unfold hasProviders. unfold getCurrentProvider in Hp.
  by destruct (providerNames s).
Qed.

Lemma changes_app l1 l2 : changes (l1 ++ l2) = changes l1 ++ changes l2.
Proof.
  induction l1 as [|ev l1 IH]; [done|]. destruct ev; simpl; by rewrite ?IH.
Qed.

(** [stop] and a single attempt announce no provider change. *)
Lemma stop_spec' s :
  sameConfig s (stop s)
  ∧ ∃ d, extends s (stop s) d ∧ attempts d = [] ∧ changes d = [].
Proof.
  split; [apply stop_spec|]. unfold stop, extends.
  destruct (getCurrentProvider s) as [p|]; [|exists []; by rewrite app_nil_r].
  destruct (isPlaying s); [|exists []; by rewrite app_nil_r].
  destruct (currentAudio s) as [a|], (hasStop p); simpl.
  - exists [AudioPause a; ProviderStop (name p)]. by rewrite <-(assoc_L (++)).
  - by exists [AudioPause a].
  - by exists [ProviderStop (name p)].
  - exists []. by rewrite app_nil_r.
Qed.

Lemma runCallbacks_spec' cbs s :
  ∃ d, extends s (foldl runCallback s cbs) d ∧ attempts d = [] ∧ changes d = []
       ∧ currentAudio (foldl runCallback s cbs) = currentAudio s
       ∧ isPlaying (foldl runCallback s cbs)
         = match cbs with [] => isPlaying s | _ => false end.
Proof.
  revert s. induction cbs as [|cb cbs IH]; intros s; simpl.
  - exists []. unfold extends. by rewrite app_nil_r.
  - destruct (IH (runCallback s cb)) as (d & Hd & Ha & Hc & Hau & Hpl).
    unfold extends in *. rewrite Hd, Hau, Hpl.
    destruct cb as [|e]; simpl; eexists; rewrite <-(assoc_L (++));
      (split; [reflexivity|]); simpl; by destruct cbs.
Qed.

Lemma tryCurrentProvider_spec' w text s p :
  getCurrentProvider s = Some p →
  let outcome := w (name p) text (length (attempts (trace s))) in
  let r := tryCurrentProvider w text s in
  r.1 = match outcome with Rejects e _ => Some e | Resolves _ _ => None end
  ∧ sameConfig s r.2
  ∧ ∃ d, extends s r.2 (ProviderSpeak (name p) text :: d)
         ∧ attempts d = [] ∧ changes d = [].
Proof.
  intros Hp outcome r. subst r.
  destruct (tryCurrentProvider_spec w text s p Hp) as (H1 & H2 & _).
  split; [exact H1|]. split; [exact H2|]. clear H1 H2.
  unfold tryCurrentProvider. rewrite Hp.
  fold outcome. set (s1 := emit (ProviderSpeak (name p) text) s).
  unfold extends.
  destruct (capability p), outcome as [au cbs|e cbs]; simpl.
  - destruct au as [a|]; simpl.
    + exists [AudioPlay a]. by rewrite <-(assoc_L (++)).
    + exists [OnError "No audio element returned from provider"].
      by rewrite <-(assoc_L (++)).
  - by exists [].
  - destruct (runCallbacks_spec' cbs s1) as (d & Hd & Ha & Hc & _).
    exists d. unfold extends in Hd. rewrite Hd. subst s1. simpl.
    by rewrite <-(assoc_L (++)).
  - destruct (runCallbacks_spec' cbs s1) as (d & Hd & Ha & Hc & _).
    exists d. unfold extends in Hd. rewrite Hd. subst s1. simpl.
    by rewrite <-(assoc_L (++)).
Qed.

(** With a single provider there is no failover: when its [speak] fails it
    is attempted once, the error goes to the call's [onError] callback, the
    promise is fulfilled, nothing is playing and no provider change is
    announced. *)
Theorem speak_single_provider_failure
    (w : World) (text : string) (s : TTSService) (e : Error) (cbs : list Callback) :
  wf s → length (providerNames s) = 1 → text ≠ "" →
  firstOutcome w text s = Some (Rejects e cbs) →
  ∃ a d,
    providerNames s = [a]
    ∧ (speak w text s).1 = Fulfilled
    ∧ trace (speak w text s).2 = trace s ++ d
    ∧ attempts d = [a]
    ∧ last d = Some (OnError e)
    ∧ changes d = []
    ∧ isPlaying (speak w text s).2 = false
    ∧ currentProviderIndex (speak w text s).2 = currentProviderIndex s.
Proof.
  intros Hwf Hlen Htext Hfirst.
  assert (providerNames s ≠ []) as Hne by (intros E; by rewrite E in Hlen).
  destruct (wf_current s Hwf Hne) as (a & p & Ha & Hp & Hn).
  destruct (speak_begins w text s p Htext Hp) as (Hp1 & Hat1 & Hs).
  set (s1 := setPlaying true (stop s)) in *.
  destruct (stop_spec' s) as (Hc0 & d0 & Hd0 & Ha0 & Hch0).
  destruct (tryCurrentProvider_spec' w text s1 p Hp1)
    as (Hr & Hc2 & d1 & Hd1 & Ha1 & Hch1).
  unfold firstOutcome in Hfirst. rewrite Hp in Hfirst. injection Hfirst as Hfirst.
  rewrite Hat1, Hfirst in Hr.
  destruct (tryCurrentProvider w text s1) as [r s2]. simpl in Hr, Hc2, Hd1. subst r.
  assert (sameConfig s s2) as (Hp2 & Hn2 & Hi2)
    by (eapply sameConfig_trans; [exact Hc0|exact Hc2]).
  assert (switchToNextProvider s2 = (false, s2)) as Hsw
    by (unfold switchToNextProvider; by rewrite Hn2, Hlen).
  rewrite Hsw in Hs. rewrite Hs. simpl.
  assert (currentProviderIndex s = 0) as Hi0.
  { apply lookup_lt_Some in Ha. lia. }
  exists a, ((d0 ++ ProviderSpeak (name p) text :: d1) ++ [OnError e]).
  split.
  { destruct (providerNames s) as [|x [|y l]]; try done.
    rewrite Hi0 in Ha. by injection Ha as ->. }
  split; [done|]. split.
  { unfold extends in Hd0, Hd1. rewrite Hd1.
    change (trace s1) with (trace (stop s)). rewrite Hd0.
    by rewrite <-!(assoc_L (++)). }
  split; [rewrite !attempts_app, Ha0; simpl; by rewrite Ha1, Hn|].
  split; [by rewrite last_snoc|]. split; [|done].
  rewrite !changes_app, Hch0. simpl. by rewrite Hch1.
Qed.

Lemma speak_single_provider_failure_witness :
  wf soloService ∧ length (providerNames soloService) = 1 ∧ "Hello" ≠ ""
  ∧ firstOutcome allDown "Hello" soloService = Some (Rejects "WebSpeech is down" [])
  ∧ ∃ a d,
      providerNames soloService = [a]
      ∧ (speak allDown "Hello" soloService).1 = Fulfilled
      ∧ trace (speak allDown "Hello" soloService).2 = trace soloService ++ d
      ∧ attempts d = [a]
      ∧ last d = Some (OnError "WebSpeech is down")
      ∧ changes d = []
      ∧ isPlaying (speak allDown "Hello" soloService).2 = false
      ∧ currentProviderIndex (speak allDown "Hello" soloService).2
        = currentProviderIndex soloService.
Proof.
  assert (wf soloService) as H1 by apply constructor_wf.
  assert (length (providerNames soloService) = 1) as H2 by reflexivity.
  assert ("Hello" ≠ "") as H3 by done.
  assert (firstOutcome allDown "Hello" soloService
          = Some (Rejects "WebSpeech is down" [])) as H4 by reflexivity.
  repeat (split; [assumption|]).
  exact (speak_single_provider_failure allDown "Hello" soloService _ _ H1 H2 H3 H4).
Defined.

(** On failover the provider change is announced to [onProviderChange]
    exactly once in the call, with the failing provider as the previous one
    and the fallback as the new one. *)
Theorem failover_announces_change
    (w : World) (text : string) (s : TTSService) (e : Error) (cbs : list Callback) :
  wf s → 2 ≤ length (providerNames s) → text ≠ "" →
  firstOutcome w text s = Some (Rejects e cbs) →
  ∃ a b d,
    providerNames s !! currentProviderIndex s = Some a
    ∧ providerNames s
        !! ((currentProviderIndex s + 1) mod length (providerNames s)) = Some b
    ∧ trace (speak w text s).2 = trace s ++ d
    ∧ changes d = [(Some a, Some b)].
Proof.
  intros Hwf Hlen Htext Hfirst.
  assert (providerNames s ≠ []) as Hne by (intros E; rewrite E in Hlen; simpl in Hlen; lia).
  destruct (wf_current s Hwf Hne) as (a & p & Ha & Hp & Hn).
  destruct (speak_begins w text s p Htext Hp) as (Hp1 & Hat1 & Hs).
  set (s1 := setPlaying true (stop s)) in *.
  destruct (stop_spec' s) as (Hc0 & d0 & Hd0 & Ha0 & Hch0).
  destruct (tryCurrentProvider_spec' w text s1 p Hp1)
    as (Hr & Hc2 & d1 & Hd1 & Ha1 & Hch1).
  unfold firstOutcome in Hfirst. rewrite Hp in Hfirst. injection Hfirst as Hfirst.
  rewrite Hat1, Hfirst in Hr.
  destruct (tryCurrentProvider w text s1) as [r s2]. simpl in Hr, Hc2, Hd1. subst r.
  assert (sameConfig s s2) as Hc02
    by (eapply sameConfig_trans; [exact Hc0|exact Hc2]).
  destruct (Hc02) as (Hp2 & Hn2 & Hi2).
  set (j := (currentProviderIndex s + 1) mod length (providerNames s)).
  assert (j < length (providerNames s)) as Hj by (apply Nat.mod_upper_bound; lia).
  destruct (lookup_lt_is_Some_2 _ _ Hj) as [b Hb].
  destruct (wf_lookup s _ b Hwf Hb) as (pb & Hpb & Hnb).
  set (s3 := emit (ProviderChanged (Some a) (Some b)) (setIndex j s2)).
  assert (switchToNextProvider s2 = (true, s3)) as Hsw.
  { unfold switchToNextProvider. rewrite Hn2.
    destruct (length (providerNames s) <=? 1) eqn:E; [apply Nat.leb_le in E; lia|].
    rewrite Hi2. fold j. subst s3. f_equal. f_equal. f_equal.
    - rewrite (sameConfig_current s s2 Hc02), Hp. simpl. by rewrite Hn.
    - rewrite (getCurrentProvider_lookup (setIndex j s2) b pb); simpl;
        [by rewrite Hnb|by rewrite Hn2|by rewrite Hp2]. }
  rewrite Hsw in Hs.
  assert (getCurrentProvider s3 = Some pb) as Hp3
    by (apply (getCurrentProvider_lookup s3 b); simpl; [by rewrite Hn2|by rewrite Hp2]).
  destruct (tryCurrentProvider_spec' w text s3 pb Hp3)
    as (_ & _ & d2 & Hd2 & Ha2 & Hch2).
  unfold extends in Hd0, Hd1, Hd2.
  assert (trace s3 = trace s ++ d0 ++ (ProviderSpeak (name p) text :: d1)
                       ++ [ProviderChanged (Some a) (Some b)]) as Ht3.
  { subst s3. simpl. rewrite Hd1. change (trace s1) with (trace (stop s)).
    rewrite Hd0. by rewrite <-!(assoc_L (++)). }
  clearbody s3. exists a, b. rewrite Hs.
  destruct (tryCurrentProvider w text s3) as [[e2|] s4]; simpl in Hd2 |- *.
  - exists (d0 ++ (ProviderSpeak (name p) text :: d1)
               ++ [ProviderChanged (Some a) (Some b)]
               ++ (ProviderSpeak (name pb) text :: d2) ++ [OnError e2]).
    split; [done|]. split; [done|]. split.
    { rewrite Hd2, Ht3. by rewrite <-!(assoc_L (++)). }
    by repeat progress (rewrite ?changes_app, ?Hch0, ?Hch1, ?Hch2; simpl).
  - exists (d0 ++ (ProviderSpeak (name p) text :: d1)
               ++ [ProviderChanged (Some a) (Some b)]
               ++ (ProviderSpeak (name pb) text :: d2)).
    split; [done|]. split; [done|]. split.
    { rewrite Hd2, Ht3. by rewrite <-!(assoc_L (++)). }
    by repeat progress (rewrite ?changes_app, ?Hch0, ?Hch1, ?Hch2; simpl).
Qed.

Lemma failover_announces_change_witness :
  wf trackerService ∧ 2 ≤ length (providerNames trackerService) ∧ "Hello" ≠ ""
  ∧ firstOutcome allDown "Hello" trackerService
    = Some (Rejects "WebSpeech is down" [])
  ∧ ∃ a b d,
      providerNames trackerService !! currentProviderIndex trackerService = Some a
      ∧ providerNames trackerService
          !! ((currentProviderIndex trackerService + 1)
                mod length (providerNames trackerService)) = Some b
      ∧ trace (speak allDown "Hello" trackerService).2 = trace trackerService ++ d
      ∧ changes d = [(Some a, Some b)].
Proof.
  assert (wf trackerService) as H1 by apply constructor_wf.
  assert (2 ≤ length (providerNames trackerService)) as H2 by (vm_compute; lia).
  assert ("Hello" ≠ "") as H3 by done.
  assert (firstOutcome allDown "Hello" trackerService
          = Some (Rejects "WebSpeech is down" [])) as H4 by reflexivity.
  repeat (split; [assumption|]).
  exact (failover_announces_change allDown "Hello" trackerService _ _ H1 H2 H3 H4).
Defined.

Lemma tryCurrentProvider_extends w text s :
  ∃ d, trace (tryCurrentProvider w text s).2 = trace s ++ d.
Proof.
  destruct (getCurrentProvider s) as [p|] eqn:Hp.
  - destruct (tryCurrentProvider_spec w text s p Hp) as (_ & _ & d & Hd & _).
    by eexists.
  - unfold tryCurrentProvider. rewrite Hp. exists []. by rewrite app_nil_r.
Qed.

Lemma switchToNextProvider_extends s :
  ∃ d, trace (switchToNextProvider s).2 = trace s ++ d.
Proof.
  unfold switchToNextProvider. destruct (_ <=? 1).
  - exists []. by rewrite app_nil_r.
  - by eexists.
Qed.

(** Every [speak] call only adds to the trace. *)
Lemma speak_extends w text s : ∃ d, trace (speak w text s).2 = trace s ++ d.
Proof.
  unfold speak. destruct (decide (text = "")); [exists []; by rewrite app_nil_r|].
  destruct (negb (hasProviders s)); [exists []; by rewrite app_nil_r|].
  destruct (stop_spec s) as (_ & d0 & Hd0 & _). unfold extends in Hd0.
  set (s1 := setPlaying true (stop s)).
  assert (trace s1 = trace s ++ d0) as H1 by exact Hd0. clearbody s1.
  destruct (tryCurrentProvider_extends w text s1) as [d1 H2].
  destruct (tryCurrentProvider w text s1) as [[e1|] s2]; simpl in H2 |- *;
    [|exists (d0 ++ d1); by rewrite H2, H1, (assoc_L (++))].
  destruct (switchToNextProvider_extends s2) as [d2 H3].
  destruct (switchToNextProvider s2) as [[|] s3]; simpl in H3.
  - destruct (tryCurrentProvider_extends w text s3) as [d3 H4].
    destruct (tryCurrentProvider w text s3) as [[e2|] s4]; simpl in H4 |- *.
    + exists (d0 ++ d1 ++ d2 ++ d3 ++ [OnError e2]).
      rewrite H4, H3, H2, H1. by rewrite <-!(assoc_L (++)).
    + exists (d0 ++ d1 ++ d2 ++ d3).
      rewrite H4, H3, H2, H1. by rewrite <-!(assoc_L (++)).
  - simpl. exists (d0 ++ d1 ++ d2 ++ [OnError e1]).
    rewrite H3, H2, H1. by rewrite <-!(assoc_L (++)).
Qed.

(** At most one utterance: a [speak] call made while the service is playing
    first stops what is playing (the audio element is paused, the active
    provider's [stop] is called), and only then asks the provider to speak. *)
Theorem speak_stops_previous_playback
    (w : World) (text : string) (s : TTSService) (p : Provider) :
  getCurrentProvider s = Some p → text ≠ "" → isPlaying s = true →
  ∃ d, trace (speak w text s).2
       = trace s
         ++ match currentAudio s with Some au => [AudioPause au] | None => [] end
         ++ (if hasStop p then [ProviderStop (name p)] else [])
         ++ ProviderSpeak (name p) text :: d.
Proof.
  intros Hp Htext Hpl.
  destruct (speak_begins w text s p Htext Hp) as (Hp1 & _ & Hs).
  set (s1 := setPlaying true (stop s)) in *.
  assert (trace s1 = trace s
            ++ match currentAudio s with Some au => [AudioPause au] | None => [] end
            ++ (if hasStop p then [ProviderStop (name p)] else [])) as H1.
  { subst s1. unfold stop. rewrite Hp, Hpl.
    destruct (currentAudio s), (hasStop p); simpl;
      by rewrite <-?(assoc_L (++)), ?app_nil_r. }
  destruct (tryCurrentProvider_spec w text s1 p Hp1) as (_ & _ & d1 & Hd1 & _).
  unfold extends in Hd1. clearbody s1.
  assert (∃ d, trace (speak w text s).2 = trace (tryCurrentProvider w text s1).2 ++ d)
    as [d Hd].
  { rewrite Hs. destruct (tryCurrentProvider w text s1) as [[e1|] s2]; simpl;
      [|exists []; by rewrite app_nil_r].
    destruct (switchToNextProvider_extends s2) as [d2 H3].
    destruct (switchToNextProvider s2) as [[|] s3]; simpl in H3.
    - destruct (tryCurrentProvider_extends w text s3) as [d3 H4].
      destruct (tryCurrentProvider w text s3) as [[e2|] s4]; simpl in H4 |- *.
      + exists (d2 ++ d3 ++ [OnError e2]). rewrite H4, H3.
        by rewrite <-!(assoc_L (++)).
      + exists (d2 ++ d3). rewrite H4, H3. by rewrite <-!(assoc_L (++)).
    - simpl. exists (d2 ++ [OnError e1]). rewrite H3. by rewrite <-!(assoc_L (++)). }
  exists (d1 ++ d). rewrite Hd, Hd1, H1. by rewrite <-!(assoc_L (++)).
Qed.

Lemma speak_stops_previous_playback_witness :
  getCurrentProvider fishPlaying = Some fishAudioProvider ∧ "Two" ≠ ""
  ∧ isPlaying fishPlaying = true
  ∧ ∃ d, trace (speak allUp "Two" fishPlaying).2
         = trace fishPlaying
           ++ match currentAudio fishPlaying with
              | Some au => [AudioPause au]
              | None => []
              end
           ++ (if hasStop fishAudioProvider
               then [ProviderStop (name fishAudioProvider)] else [])
           ++ ProviderSpeak (name fishAudioProvider) "Two" :: d.
Proof.
  assert (getCurrentProvider fishPlaying = Some fishAudioProvider) as H1 by reflexivity.
  assert ("Two" ≠ "") as H2 by done.
  assert (isPlaying fishPlaying = true) as H3 by reflexivity.
  repeat (split; [assumption|]).
  exact (speak_stops_previous_playback allUp "Two" fishPlaying fishAudioProvider H1 H2 H3).
Defined.

(** Whatever happens to a service after its construction (calls of [speak],
    [stop] and [switchToNextProvider], events of the audio element), the
    registered providers stay the ones the constructor registered, every
    registered name keeps its provider and the active index stays within the
    list. *)
Theorem service_keeps_its_providers
    (ps : list Provider) (d : option string) (ops : list Op) :
  let s := runOps (constructor ps d) ops in
  wf s
  ∧ providers s = providers (constructor ps d)
  ∧ providerNames s = registeredNames ps
  ∧ (getCurrentProvider s = None ↔ registeredNames ps = []).
Proof.
  intros s.
  assert (∀ s0, wf s0 → wf (runOps s0 ops)
                        ∧ providers (runOps s0 ops) = providers s0
                        ∧ providerNames (runOps s0 ops) = providerNames s0) as Hrun.
  { unfold runOps. induction ops as [|op ops IH]; intros s0 Hwf; simpl; [done|].
    destruct (apply_config s0 op) as (Hp & Hn & Hi).
    assert (wf (apply s0 op)) as Hwf'.
    { destruct Hwf as [Hidx Hinv]. split; rewrite ?Hp, Hn; [|done].
      destruct Hi as [->|[Hlen ->]]; [done|].
      right. apply Nat.mod_upper_bound. lia. }
    destruct (IH _ Hwf') as (H1 & H2 & H3). split; [done|]. split; congruence. }
  destruct (Hrun _ (constructor_wf ps d)) as (Hwf & Hp & Hn). fold s in Hwf, Hp, Hn.
  destruct (constructor_selects_default ps d) as (Hnames & _).
  split; [done|]. split; [done|]. split; [congruence|].
  rewrite <-Hnames, <-Hn. split.
  - intros Hnone. destruct (providerNames s) as [|x l] eqn:E; [done|]. exfalso.
    destruct (wf_current s Hwf) as (a & p & _ & Hcur & _); [by rewrite E|].
    by rewrite Hcur in Hnone.
  - intros E. unfold getCurrentProvider. by rewrite E.
Qed.

(** Switching runs through the providers in a circle: after [k] switches of
    a service with at least two providers the index is [k] further, modulo
    their number; after as many switches as there are providers the service is
    back at the provider it began with, each switch having been announced. *)
Theorem switching_goes_round (s : TTSService) (k : nat) :
  wf s → 2 ≤ length (providerNames s) →
  let n := length (providerNames s) in
  currentProviderIndex (runOps s (replicate k SwitchToNext))
  = (currentProviderIndex s + k) mod n
  ∧ currentProviderIndex (runOps s (replicate n SwitchToNext)) = currentProviderIndex s
  ∧ length (changes (trace (runOps s (replicate k SwitchToNext))))
    = length (changes (trace s)) + k.
Proof.
  intros Hwf Hlen n.
  assert (currentProviderIndex s < n) as Hi
    by (destruct Hwf as [[E|?] _]; [subst n; rewrite E in Hlen; simpl in Hlen; lia|done]).
  assert (∀ k s0, providerNames s0 = providerNames s → currentProviderIndex s0 < n →
            currentProviderIndex (runOps s0 (replicate k SwitchToNext))
            = (currentProviderIndex s0 + k) mod n
            ∧ length (changes (trace (runOps s0 (replicate k SwitchToNext))))
              = length (changes (trace s0)) + k) as Hgen.
  { clear k. induction k as [|k IH]; intros s0 Hn0 Hi0.
    { simpl. rewrite !Nat.add_0_r. by rewrite Nat.mod_small. }
    change (runOps s0 (replicate (S k) SwitchToNext))
      with (runOps (switchToNextProvider s0).2 (replicate k SwitchToNext)).
    assert (2 ≤ length (providerNames s0)) as Hlen0 by by rewrite Hn0.
    destruct (switchToNextProvider_spec s0 Hlen0) as (_ & _ & Hn1 & Hi1 & _ & ev & Hev & _).
    assert (length (changes (trace (switchToNextProvider s0).2))
            = length (changes (trace s0)) + 1) as Hc1.
    { unfold switchToNextProvider.
      destruct (length (providerNames s0) <=? 1) eqn:E; [apply Nat.leb_le in E; lia|].
      simpl. by rewrite changes_app, length_app. }
    rewrite Hn0 in Hi1. fold n in Hi1.
    destruct (IH (switchToNextProvider s0).2) as [-> ->];
      [congruence|rewrite Hi1; apply Nat.mod_upper_bound; lia|].
    rewrite Hi1, Hc1. split; [|lia].
    rewrite Nat.Div0.add_mod_idemp_l. f_equal. lia. }
  split; [by apply Hgen|]. split; [|by apply Hgen].
  destruct (Hgen n s Logic.eq_refl Hi) as [-> _].
  rewrite <-(Nat.mul_1_l n) at 1. rewrite Nat.Div0.mod_add. by apply Nat.mod_small.
Qed.

Lemma switching_goes_round_witness :
  wf trackerService ∧ 2 ≤ length (providerNames trackerService)
  ∧ let n := length (providerNames trackerService) in
    currentProviderIndex (runOps trackerService (replicate 3 SwitchToNext))
    = (currentProviderIndex trackerService + 3) mod n
    ∧ currentProviderIndex (runOps trackerService (replicate n SwitchToNext))
      = currentProviderIndex trackerService
    ∧ length (changes (trace (runOps trackerService (replicate 3 SwitchToNext))))
      = length (changes (trace trackerService)) + 3.
Proof.
  assert (wf trackerService) as H1 by apply constructor_wf.
  assert (2 ≤ length (providerNames trackerService)) as H2 by (vm_compute; lia).
  split; [exact H1|]. split; [exact H2|].
  exact (switching_goes_round trackerService 3 H1 H2).
Defined.

(** A provider that hands back an audio element: when its [speak] succeeds
    the promise of the service's [speak] is fulfilled at once, while the
    service still counts as playing. With an element, the element is kept and
    played, and its [ended] event ends the playback: [onComplete] is called,
    nothing is playing, and a [stop] has nothing left to do. With no element,
    the call's [onError] is told so, there is no failover, and the service
    keeps counting as playing. *)
Theorem handle_based_playback
    (w : World) (text : string) (s : TTSService) (p : Provider)
    (au : option Audio) (cbs : list Callback) :
  getCurrentProvider s = Some p → capability p = HandleBased → text ≠ "" →
  firstOutcome w text s = Some (Resolves au cbs) →
  let s' := (speak w text s).2 in
  (speak w text s).1 = Fulfilled
  ∧ isPlaying s' = true
  ∧ currentProviderIndex s' = currentProviderIndex s
  ∧ match au with
    | Some a =>
        currentAudio s' = Some a
        ∧ last (trace s') = Some (AudioPlay a)
        ∧ isPlaying (onEnded s') = false
        ∧ currentAudio (onEnded s') = None
        ∧ last (trace (onEnded s')) = Some OnComplete
        ∧ stop (onEnded s') = onEnded s'
    | None =>
        last (trace s') = Some (OnError "No audio element returned from provider")
    end.
Proof.
  intros Hp Hcap Htext Hfirst s'. subst s'.
  destruct (speak_begins w text s p Htext Hp) as (Hp1 & Hat1 & Hs).
  set (s1 := setPlaying true (stop s)) in *.
  assert (currentProviderIndex s1 = currentProviderIndex s) as Hi1
    by (destruct (stop_spec s) as ((_&_&H)&_); exact H).
  assert (isPlaying s1 = true) as Hpl1 by done.
  unfold firstOutcome in Hfirst. rewrite Hp in Hfirst. injection Hfirst as Hfirst.
  unfold tryCurrentProvider in Hs. rewrite Hp1, Hcap, Hat1, Hfirst in Hs.
  rewrite Hs. clearbody s1. simpl. split; [done|].
  destruct au as [a|]; simpl.
  - rewrite last_snoc. repeat (split; [done|]).
    rewrite last_snoc. split; [done|].
    apply stop_settles. done.
  - by rewrite last_snoc.
Qed.

Lemma handle_based_playback_witness :
  getCurrentProvider fishFirstService = Some fishAudioProvider
  ∧ capability fishAudioProvider = HandleBased ∧ "One" ≠ ""
  ∧ firstOutcome allUp "One" fishFirstService = Some (Resolves (Some 7) [CbComplete])
  ∧ let s' := (speak allUp "One" fishFirstService).2 in
    (speak allUp "One" fishFirstService).1 = Fulfilled
    ∧ isPlaying s' = true
    ∧ currentProviderIndex s' = currentProviderIndex fishFirstService
    ∧ currentAudio s' = Some 7
    ∧ last (trace s') = Some (AudioPlay 7)
    ∧ isPlaying (onEnded s') = false
    ∧ currentAudio (onEnded s') = None
    ∧ last (trace (onEnded s')) = Some OnComplete
    ∧ stop (onEnded s') = onEnded s'.
Proof.
  assert (getCurrentProvider fishFirstService = Some fishAudioProvider) as H1
    by reflexivity.
  assert (capability fishAudioProvider = HandleBased) as H2 by reflexivity.
  assert ("One" ≠ "") as H3 by done.
  assert (firstOutcome allUp "One" fishFirstService
          = Some (Resolves (Some 7) [CbComplete])) as H4 by reflexivity.
  repeat (split; [assumption|]).
  exact (handle_based_playback allUp "One" fishFirstService fishAudioProvider
           (Some 7) [CbComplete] H1 H2 H3 H4).
Defined.

(** As the code behaves: when a provider that runs its own callbacks reports
    its failure to the [onError] it was given and then rejects, and the
    fallback hands back an audio element, that element is played while the
    service counts as not playing; a [stop] then does nothing, so the element
    is not paused. The call's [onError] has been told the first error although
    the fallback plays. *)
Theorem fallback_audio_is_not_stoppable
    (w : World) (text : string) (s : TTSService) (p q : Provider)
    (e : Error) (cbs cbs2 : list Callback) (a : Audio) (b : string) :
  wf s → 2 ≤ length (providerNames s) → text ≠ "" →
  getCurrentProvider s = Some p → capability p = SelfManaged →
  firstOutcome w text s = Some (Rejects e (CbError e :: cbs)) →
  providerNames s
    !! ((currentProviderIndex s + 1) mod length (providerNames s)) = Some b →
  providers s !! b = Some q → capability q = HandleBased →
  secondOutcome w text s = Some (Resolves (Some a) cbs2) →
  let s' := (speak w text s).2 in
  (speak w text s).1 = Fulfilled
  ∧ isPlaying s' = false
  ∧ currentAudio s' = Some a
  ∧ last (trace s') = Some (AudioPlay a)
  ∧ OnError e ∈ trace s'
  ∧ stop s' = s'.
Proof.
  intros Hwf Hlen Htext Hp Hcap Hfirst Hb Hq Hcapq Hsecond s'. subst s'.
  destruct (speak_begins w text s p Htext Hp) as (Hp1 & Hat1 & Hs).
  set (s1 := setPlaying true (stop s)) in *.
  assert (providers s1 = providers s ∧ providerNames s1 = providerNames s
          ∧ currentProviderIndex s1 = currentProviderIndex s) as (Hps & Hns & His)
    by (destruct (stop_spec s) as ((?&?&?)&_); done).
  unfold firstOutcome in Hfirst. rewrite Hp in Hfirst. injection Hfirst as Hfirst.
  unfold secondOutcome in Hsecond. rewrite Hb in Hsecond. simpl in Hsecond.
  rewrite Hq in Hsecond. injection Hsecond as Hsecond.
  unfold tryCurrentProvider at 1 in Hs. rewrite Hp1, Hcap, Hat1, Hfirst in Hs.
  set (s2 := foldl runCallback _ _) in Hs.
  destruct (runCallbacks_spec' (CbError e :: cbs) (emit (ProviderSpeak (name p) text) s1))
    as (d & Hd & Had & _ & Hau2 & Hpl2). fold s2 in Hd, Hau2, Hpl2.
  destruct (runCallbacks_spec (CbError e :: cbs) (emit (ProviderSpeak (name p) text) s1))
    as ((Hps2 & Hns2 & Hi2) & _). fold s2 in Hps2, Hns2, Hi2.
  simpl in Hpl2.
  assert (providers s2 = providers s ∧ providerNames s2 = providerNames s
          ∧ currentProviderIndex s2 = currentProviderIndex s) as (Hps' & Hns' & Hi').
  { split; [rewrite Hps2; exact Hps|].
    split; [rewrite Hns2; exact Hns|rewrite Hi2; exact His]. }
  assert (OnError e ∈ trace s2) as Hin2.
  { destruct (runCallbacks_spec cbs (runCallback (emit (ProviderSpeak (name p) text) s1)
                                       (CbError e))) as (_ & d' & Hd' & _).
    unfold extends in Hd'.
    change (trace s2 = trace (runCallback (emit (ProviderSpeak (name p) text) s1)
                                (CbError e)) ++ d') in Hd'.
    rewrite Hd'. simpl. set_solver. }
  unfold extends in Hd. simpl in Hd.
  assert (attempts (trace s2) = attempts (trace s) ++ [name p]) as Hat2.
  { rewrite Hd, !attempts_app, Had.
    change (trace (stop s)) with (trace s1). rewrite Hat1. simpl.
    by rewrite app_nil_r. }
  clearbody s2.
  unfold switchToNextProvider in Hs. rewrite Hns', Hi' in Hs.
  destruct (length (providerNames s) <=? 1) eqn:E; [apply Nat.leb_le in E; lia|].
  set (s3 := emit _ _) in Hs.
  assert (getCurrentProvider s3 = Some q) as Hp3.
  { apply (getCurrentProvider_lookup s3 b); subst s3; simpl.
    - by rewrite Hns'.
    - by rewrite Hps'. }
  assert (attempts (trace s3) = attempts (trace s) ++ [name p]) as Hat3
    by (subst s3; simpl; rewrite attempts_app, Hat2; simpl; by rewrite app_nil_r).
  assert (isPlaying s3 = false) as Hpl3 by done.
  assert (OnError e ∈ trace s3) as Hin3 by (subst s3; simpl; set_solver).
  clearbody s3.
  unfold tryCurrentProvider in Hs. rewrite Hp3, Hcapq, Hat3 in Hs.
  rewrite length_app, Nat.add_1_r in Hs. rewrite Hsecond in Hs.
  rewrite Hs. simpl. split; [done|]. split; [done|]. split; [done|].
  split; [by rewrite last_snoc|]. split; [set_solver|].
  apply stop_settles. done.
Qed.

Lemma fallback_audio_is_not_stoppable_witness :
  wf trackerService ∧ 2 ≤ length (providerNames trackerService) ∧ "Hello" ≠ ""
  ∧ getCurrentProvider trackerService = Some webSpeechProvider
  ∧ capability webSpeechProvider = SelfManaged
  ∧ firstOutcome synthesisFails "Hello" trackerService
    = Some (Rejects "Speech synthesis error: network"
              [CbError "Speech synthesis error: network"])
  ∧ providerNames trackerService
      !! ((currentProviderIndex trackerService + 1)
            mod length (providerNames trackerService)) = Some "FishAudio"
  ∧ providers trackerService !! "FishAudio" = Some fishAudioProvider
  ∧ capability fishAudioProvider = HandleBased
  ∧ secondOutcome synthesisFails "Hello" trackerService = Some (Resolves (Some 7) [])
  ∧ let s' := (speak synthesisFails "Hello" trackerService).2 in
    (speak synthesisFails "Hello" trackerService).1 = Fulfilled
    ∧ isPlaying s' = false
    ∧ currentAudio s' = Some 7
    ∧ last (trace s') = Some (AudioPlay 7)
    ∧ OnError "Speech synthesis error: network" ∈ trace s'
    ∧ stop s' = s'.
Proof.
  assert (wf trackerService) as H1 by apply constructor_wf.
  assert (2 ≤ length (providerNames trackerService)) as H2 by (vm_compute; lia).
  assert ("Hello" ≠ "") as H3 by done.
  assert (getCurrentProvider trackerService = Some webSpeechProvider) as H4
    by reflexivity.
  assert (capability webSpeechProvider = SelfManaged) as H5 by reflexivity.
  assert (firstOutcome synthesisFails "Hello" trackerService
          = Some (Rejects "Speech synthesis error: network"
                    [CbError "Speech synthesis error: network"])) as H6 by reflexivity.
  assert (providerNames trackerService
            !! ((currentProviderIndex trackerService + 1)
                  mod length (providerNames trackerService)) = Some "FishAudio") as H7
    by reflexivity.
  assert (providers trackerService !! "FishAudio" = Some fishAudioProvider) as H8
    by reflexivity.
  assert (capability fishAudioProvider = HandleBased) as H9 by reflexivity.
  assert (secondOutcome synthesisFails "Hello" trackerService
          = Some (Resolves (Some 7) [])) as H10 by reflexivity.
  repeat (split; [assumption|]).
  exact (fallback_audio_is_not_stoppable synthesisFails "Hello" trackerService
           webSpeechProvider fishAudioProvider _ [] [] 7 "FishAudio"
           H1 H2 H3 H4 H5 H6 H7 H8 H9 H10).
Defined.

End TTSMore.

(** ** More facts about the check-in session *)

Module TrackerMore.
Import Tracker TrackerOps TrackerFacts.

(** The key of slot [i] and the habit in it, if the slot is filled. *)
Definition slotKey (i : nat) : string := "habit_" +:+ Js.ofNat i.

Definition slotHabit (stack : gmap string string) (i : nat) : option Habit :=
  match stack !! slotKey i with
  | Some "" | None => None
  | Some t => Some {| key := slotKey i; text := t |}
  end.

Lemma slotHabit_Some stack i h :
  slotHabit stack i = Some h
  ↔ key h = slotKey i ∧ stack !! key h = Some (text h) ∧ text h ≠ "".
Proof.
  unfold slotHabit. destruct h as [k t]. simpl. split.
  - destruct (stack !! slotKey i) as [[|c r]|] eqn:E; try done.
    intros [= <- <-]. by rewrite E.
  - intros (-> & Hs & Ht). rewrite Hs. by destruct t.
Qed.

Lemma omap_keys_sublist stack l :
  sublist (key <$> omap (slotHabit stack) l) (slotKey <$> l).
Proof.
  induction l as [|i l IH]; simpl; [constructor|].
  destruct (slotHabit stack i) as [h|] eqn:E; simpl.
  - apply slotHabit_Some in E as (-> & _). by constructor.
  - by constructor.
Qed.

(** The habits read from a stack are exactly its non-empty slots among
    [habit_1] to [habit_5]: at most five, under different keys, each with the
    text of its slot. *)
Theorem habitsOf_are_the_filled_slots (stack : gmap string string) :
  (∀ h, h ∈ habitsOf stack
        ↔ key h ∈ slotKeys ∧ stack !! key h = Some (text h) ∧ text h ≠ "")
  ∧ NoDup (key <$> habitsOf stack)
  ∧ length (habitsOf stack) ≤ 5.
Proof.
  change (habitsOf stack) with (omap (slotHabit stack) [1; 2; 3; 4; 5]).
  change slotKeys with (slotKey <$> [1; 2; 3; 4; 5]).
  split; [|split].
  - intros h. rewrite list_elem_of_omap, list_elem_of_fmap. split.
    + intros (i & Hi & Hh). apply slotHabit_Some in Hh as (Hk & Hs & Ht).
      split; [by exists i|done].
    + intros ((i & Hk & Hi) & Hs & Ht). exists i. split; [done|].
      by apply slotHabit_Some.
  - apply (sublist_NoDup _ (slotKey <$> [1; 2; 3; 4; 5]));
      [|apply omap_keys_sublist].
    apply (bool_decide_unpack _). by vm_compute.
  - apply habitsOf_length.
Qed.

Lemma fetchCount_snoc l ev :
  fetchCount (l ++ [ev])
  = fetchCount l + match ev with GetHabitStack _ _ => 1 | _ => 0 end.
Proof.
  unfold fetchCount. rewrite List.filter_app, length_app. simpl.
  by destruct ev.
Qed.

(** Count the events of the traces in the goal. *)
Ltac count_events :=
  rewrite ?speakCount_snoc, ?startCount_snoc, ?fetchCount_snoc; simpl; lia.

(** The state in the goal is the one the handler leaves; its fields and the
    counts of its trace are read off. *)
Ltac session_ends :=
  eexists _, _; split; [reflexivity|]; simpl;
  repeat split; first [done | by rewrite last_snoc | count_events].

(** A check is started only for an identified user whose stack is delivered.
    Without a user id nothing is fetched; with one, the stack is asked for
    once. If no stack is delivered (transport failure, time-out, error status,
    unreadable body, [success: false], no [habit_stack]) the session is not
    running afterwards, nothing has been spoken or recorded, the stack the
    tracker had is kept, and the last thing done is a call of the error
    callback. *)
Theorem check_is_not_started (env : Env) (s : DailyHabitTracker) :
  isProcessing s = false →
  getUserId s = None ∨ delivered env = None →
  ∃ s' info,
    startDailyCheck env s = Some s'
    ∧ isProcessing s' = false
    ∧ habitStack s' = habitStack s
    ∧ responses s' = responses s
    ∧ currentHabitIndex s' = currentHabitIndex s
    ∧ speakCount (trace s') = speakCount (trace s)
    ∧ startCount (trace s') = startCount (trace s)
    ∧ fetchCount (trace s')
      = fetchCount (trace s) + match getUserId s with Some _ => 1 | None => 0 end
    ∧ last (trace s') = Some (OnError info).
Proof.
  intros Hproc Hwhy. unfold startDailyCheck. rewrite Hproc.
  unfold checkAuthentication.
  destruct (getUserId s) as [uid|] eqn:Huid; [|session_ends].
  destruct Hwhy as [|Hnone]; [done|].
  unfold fetchHabitStack.
  change (getUserId (updateStatus ?m (updateStatus ?m' (emit ?e (setProcessing ?b s)))))
    with (getUserId s).
  rewrite Huid. unfold delivered in Hnone.
  destruct (stackResult env) as [|msg|status statusText errorField body];
    [session_ends..|].
  destruct (isOk status) eqn:Hok; simpl negb; cbv iota.
  - destruct body as [|ok err [stack|]]; [session_ends| |].
    + destruct ok as [[|]|]; try done; session_ends.
    + destruct ok as [[|]|]; session_ends.
  - destruct (status =? 401); [session_ends|].
    destruct (status =? 400); [session_ends|].
    destruct (status =? 404); [session_ends|].
    destruct (status =? 429); [session_ends|].
    destruct (500 <=? status); session_ends.
Qed.

Lemma check_is_not_started_witness :
  isProcessing demoStart = false
  ∧ (getUserId demoStart = None ∨ delivered noStackEnv = None)
  ∧ ∃ s' info,
      startDailyCheck noStackEnv demoStart = Some s'
      ∧ isProcessing s' = false
      ∧ habitStack s' = habitStack demoStart
      ∧ responses s' = responses demoStart
      ∧ currentHabitIndex s' = currentHabitIndex demoStart
      ∧ speakCount (trace s') = speakCount (trace demoStart)
      ∧ startCount (trace s') = startCount (trace demoStart)
      ∧ fetchCount (trace s')
        = fetchCount (trace demoStart)
          + match getUserId demoStart with Some _ => 1 | None => 0 end
      ∧ last (trace s') = Some (OnError info).
Proof.
  assert (isProcessing demoStart = false) as H1 by reflexivity.
  assert (getUserId demoStart = None ∨ delivered noStackEnv = None) as H2
    by (right; reflexivity).
  split; [exact H1|]. split; [exact H2|].
  exact (check_is_not_started noStackEnv demoStart H1 H2).
Defined.

Lemma delivered_Some env stack :
  delivered env = Some stack →
  ∃ status statusText errorField ok err,
    stackResult env = Response status statusText errorField (Json ok err (Some stack))
    ∧ isOk status = true ∧ ok ≠ Some false.
Proof.
  unfold delivered.
  destruct (stackResult env) as [|msg|status statusText errorField [|ok err [st|]]];
    try done.
  destruct (isOk status) eqn:Hok; [|done].
  destruct ok as [[|]|]; try done; intros [= ->]; by eexists _, _, _, _, _.
Qed.

(** Non-reentrancy: once a click has started a check (the user is
    identified, the stack is delivered, the first prompt is spoken and the
    recognition starts), the session is running, and a second click changes
    nothing: the stack has been asked for once. *)
Theorem second_click_is_ignored
    (env : Env) (s : DailyHabitTracker) (uid : string) (stack : gmap string string) :
  isProcessing s = false → getUserId s = Some uid → delivered env = Some stack →
  speakResult env (speakCount (trace s)) = None →
  startResult env (startCount (trace s)) = None →
  recognition s = true →
  ∃ s',
    run env s [Click] = Some s'
    ∧ run env s [Click; Click] = Some s'
    ∧ isProcessing s' = true
    ∧ fetchCount (trace s') = fetchCount (trace s) + 1.
Proof.
  intros Hproc Huid Hdel Hspeak Hstart Hrec.
  destruct (delivered_Some env stack Hdel)
    as (status & statusText & errorField & ok & err & Hfetch & Hok & Hsucc).
  assert (∃ s', startDailyCheck env s = Some s' ∧ isProcessing s' = true
                ∧ fetchCount (trace s') = fetchCount (trace s) + 1)
    as (s' & Hs' & Hp' & Hf').
  { unfold startDailyCheck. rewrite Hproc. unfold checkAuthentication. rewrite Huid.
    rewrite (fetchHabitStack_ok env _ uid stack status statusText errorField err ok);
      [|done..].
    set (s1 := setIndex 0 _).
    assert (trace s1 = trace s
              ++ [OnStart; OnStatusUpdate "Starting daily habit check...";
                  OnStatusUpdate "Fetching your habits for today...";
                  GetHabitStack uid (formattedDate s);
                  OnStatusUpdate "Habits loaded for today."]
            ∧ habitStack s1 = Some stack ∧ isProcessing s1 = true
            ∧ recognition s1 = recognition s) as (Ht1 & Hst1 & Hp1 & Hrec1)
      by (subst s1; simpl; by rewrite <-!(assoc_L (++))).
    clearbody s1.
    destruct (processNextHabit_total env s1) as [s' Hs'].
    pose proof (processNextHabitWithin_spec 5 env s1 stack s' Hst1 Hs') as Hspec.
    assert (speakCount (trace s1) = speakCount (trace s)) as Hsc
      by (rewrite Ht1; unfold speakCount; rewrite List.filter_app, length_app;
          simpl; lia).
    assert (startCount (trace s1) = startCount (trace s)) as Htc
      by (rewrite Ht1; unfold startCount; rewrite List.filter_app, length_app;
          simpl; lia).
    assert (fetchCount (trace s1) = fetchCount (trace s) + 1) as Hfc
      by (rewrite Ht1; unfold fetchCount; rewrite List.filter_app, length_app;
          simpl; lia).
    rewrite Hsc, Htc, Hrec1 in Hspec.
    exists s'. split; [done|].
    destruct (habitsOf stack !! currentHabitIndex s1) as [h|].
    - destruct Hspec as (d' & Hd' & Hcond).
      destruct (Hcond Hspeak Hstart Hrec) as (-> & _ & _ & Hp').
      split; [congruence|]. rewrite Hd'.
      unfold fetchCount in *. rewrite List.filter_app, length_app. simpl. lia.
    - destruct Hspec as (d' & Hd' & _ & Hcond).
      destruct (Hcond Hspeak Hstart Hrec) as (-> & _ & Hp').
      split; [congruence|]. rewrite Hd'.
      unfold fetchCount in *. rewrite List.filter_app, length_app. simpl. lia. }
  exists s'. simpl. rewrite Hs'. split; [done|]. split; [|done].
  unfold startDailyCheck. by rewrite Hp'.
Qed.

Lemma second_click_is_ignored_witness :
  isProcessing demoStart = false ∧ getUserId demoStart = Some "user123"
  ∧ delivered (demoEnv demoStack) = Some demoStack
  ∧ speakResult (demoEnv demoStack) (speakCount (trace demoStart)) = None
  ∧ startResult (demoEnv demoStack) (startCount (trace demoStart)) = None
  ∧ recognition demoStart = true
  ∧ ∃ s',
      run (demoEnv demoStack) demoStart [Click] = Some s'
      ∧ run (demoEnv demoStack) demoStart [Click; Click] = Some s'
      ∧ isProcessing s' = true
      ∧ fetchCount (trace s') = fetchCount (trace demoStart) + 1.
Proof.
  assert (isProcessing demoStart = false) as H1 by reflexivity.
  assert (getUserId demoStart = Some "user123") as H2 by reflexivity.
  assert (delivered (demoEnv demoStack) = Some demoStack) as H3 by reflexivity.
  assert (speakResult (demoEnv demoStack) (speakCount (trace demoStart)) = None) as H4
    by reflexivity.
  assert (startResult (demoEnv demoStack) (startCount (trace demoStart)) = None) as H5
    by reflexivity.
  assert (recognition demoStart = true) as H6 by reflexivity.
  repeat (split; [assumption|]).
  exact (second_click_is_ignored (demoEnv demoStack) demoStart "user123" demoStack
           H1 H2 H3 H4 H5 H6).
Defined.

Lemma trace_grows_refl (l : list Effect) : l = l ++ [].
Proof. by rewrite app_nil_r. Qed.

Lemma trace_grows_snoc (l l' d : list Effect) ev :
  l' = l ++ d → l' ++ [ev] = l ++ (d ++ [ev]).
Proof. intros ->. by rewrite (assoc_L (++)). Qed.

(** Read off what the state in the goal has added to the trace. *)
Ltac trace_grows :=
  repeat first [eapply trace_grows_snoc | apply trace_grows_refl].

Lemma orElse_empty r : orElse r "" = r.
Proof. unfold orElse. by destruct (decide (r = "")). Qed.

(** The state in the goal is the one [submitDailyLog] leaves. *)
Ltac submit_ends :=
  eexists _, _; split; [simpl; trace_grows|];
  simpl; rewrite ?decide_True, ?decide_False, ?orElse_empty by done;
  repeat split; done.

(** For an identified user [submitDailyLog] ends the session in every case:
    whatever the endpoint or the speech output does, the completion callback
    is called once, as the last thing, with the responses and the reflection
    of the session, with an error message exactly when it reports no success,
    and the session is no longer running. The log is posted once, and not at
    all if no response was recorded. *)
Theorem submit_completes_once (env : Env) (s : DailyHabitTracker) (uid : string) :
  getUserId s = Some uid →
  ∃ d c,
    trace (submitDailyLog env s) = trace s ++ (d ++ [OnComplete c])
    ∧ completions d = []
    ∧ isProcessing (submitDailyLog env s) = false
    ∧ c_responses c = responses s
    ∧ c_reflection c = reflection s
    ∧ (success c = true ↔ error c = None)
    ∧ submitted d
      = if decide (size (responses s) = 0) then []
        else [{| user_id := uid; date := formattedDate s;
                 p_responses := responses s; p_reflection := reflection s |}].
Proof.
  intros Huid. unfold submitDailyLog, checkAuthentication. rewrite Huid.
  change (getUserId (updateStatus ?m s)) with (getUserId s). rewrite Huid.
  change (responses (updateStatus ?m s)) with (responses s).
  destruct (decide (size (responses s) = 0)) as [Hz|Hz]; [submit_ends|].
  destruct (logResult env) as [|msg|status statusText errorField body];
    [submit_ends..|].
  destruct (isOk status); simpl negb; cbv iota.
  - destruct body as [|ok err st]; [submit_ends|].
    destruct ok as [[|]|]; [|submit_ends|];
      unfold speakText; rewrite decide_False by done;
      destruct (speakResult env _); submit_ends.
  - destruct (status =? 401); [submit_ends|].
    destruct (status =? 400); [submit_ends|].
    destruct (status =? 429); [submit_ends|].
    destruct (500 <=? status); submit_ends.
Qed.

Lemma submit_completes_once_witness :
  getUserId demoReflecting = Some "user123"
  ∧ size (responses demoReflecting) = 2
  ∧ ∃ d c,
      trace (submitDailyLog (demoEnv demoStack) demoReflecting)
      = trace demoReflecting ++ (d ++ [OnComplete c])
      ∧ completions d = []
      ∧ isProcessing (submitDailyLog (demoEnv demoStack) demoReflecting) = false
      ∧ c_responses c = responses demoReflecting
      ∧ c_reflection c = reflection demoReflecting
      ∧ (success c = true ↔ error c = None)
      ∧ submitted d
        = if decide (size (responses demoReflecting) = 0) then []
          else [{| user_id := "user123"; date := formattedDate demoReflecting;
                   p_responses := responses demoReflecting;
                   p_reflection := reflection demoReflecting |}].
Proof.
  assert (getUserId demoReflecting = Some "user123") as H by reflexivity.
  split; [exact H|]. split; [by vm_compute|].
  exact (submit_completes_once (demoEnv demoStack) demoReflecting "user123" H).
Defined.

(** How a handler may leave the recognition context: as it was, at the
    reflection, or at a habit of a slot. *)
Definition ctxMoves (s s' : DailyHabitTracker) : Prop :=
  recognitionContext s' = recognitionContext s
  ∨ recognitionContext s' = Some ReflectionContext
  ∨ ∃ h, recognitionContext s' = Some (HabitContext h) ∧ key h ∈ slotKeys.

Lemma ctxMoves_trans s1 s2 s3 : ctxMoves s1 s2 → ctxMoves s2 s3 → ctxMoves s1 s3.
Proof.
  intros H1 [H2|[H2|H2]]; [|by right; left|by right; right].
  unfold ctxMoves in *. by rewrite H2.
Qed.

Lemma ctxMoves_same s s' :
  recognitionContext s' = recognitionContext s → ctxMoves s s'.
Proof. by left. Qed.

Lemma context_speakText env txt s :
  recognitionContext (speakText env txt s).2 = recognitionContext s.
Proof. unfold speakText. by repeat case_match. Qed.

Lemma context_recognitionStart env s :
  recognitionContext (recognitionStart env s).2 = recognitionContext s.
Proof. unfold recognitionStart. by repeat case_match. Qed.

Lemma context_submitDailyLog env s :
  recognitionContext (submitDailyLog env s) = recognitionContext s.
Proof.
  unfold submitDailyLog, checkAuthentication.
  repeat case_match; simplify_eq/=; try done;
    match goal with
    | H : speakText ?e ?t ?x = (_, ?y) |- _ =>
        pose proof (context_speakText e t x) as Hc; rewrite H in Hc; by simpl in Hc
    end.
Qed.

Lemma context_fetchHabitStack env s :
  recognitionContext (fetchHabitStack env s).2 = recognitionContext s
  ∧ responses (fetchHabitStack env s).2 = responses s.
Proof. unfold fetchHabitStack. by repeat case_match. Qed.

Lemma ctxMoves_askForReflection env s : ctxMoves s (askForReflection env s).
Proof.
  unfold askForReflection.
  match goal with
  | |- context [speakText ?e ?t ?x] =>
      pose proof (context_speakText e t x) as Hs;
      destruct (speakText e t x) as [[msg|] s2]; simpl in Hs
  end.
  { left. by rewrite context_submitDailyLog. }
  match goal with
  | |- context [recognitionStart ?e ?x] =>
      pose proof (context_recognitionStart e x) as Hr;
      destruct (recognitionStart e x) as [[msg|] s3]; simpl in Hr
  end.
  - right; left. by rewrite context_submitDailyLog.
  - by right; left.
Qed.

Lemma ctxMoves_listenForResponseWith next env h s s' :
  (∀ t t', next t = Some t' → ctxMoves t t') →
  key h ∈ slotKeys →
  listenForResponseWith next env h s = Some s' → ctxMoves s s'.
Proof.
  intros Hnext Hh. unfold listenForResponseWith.
  destruct (negb (recognition s)); [by intros [= <-]; left|].
  match goal with
  | |- context [recognitionStart ?e ?x] =>
      pose proof (context_recognitionStart e x) as Hr;
      destruct (recognitionStart e x) as [[msg|] s2]; simpl in Hr
  end.
  - intros Hn. apply Hnext in Hn. eapply ctxMoves_trans; [|exact Hn].
    right; right. by exists h.
  - intros [= <-]. right; right. by exists h.
Qed.

Lemma habitsOf_keys stack i h : habitsOf stack !! i = Some h → key h ∈ slotKeys.
Proof.
  intros H. apply list_elem_of_lookup_2 in H. revert H.
  change (habitsOf stack) with (omap (slotHabit stack) [1; 2; 3; 4; 5]).
  change slotKeys with (slotKey <$> [1; 2; 3; 4; 5]).
  rewrite list_elem_of_omap, list_elem_of_fmap.
  intros (j & Hj & Hs). apply slotHabit_Some in Hs as (Hk & _). by exists j.
Qed.

Lemma ctxMoves_processNextHabitWithin depth env s s' :
  processNextHabitWithin depth env s = Some s' → ctxMoves s s'.
Proof.
  revert s s'. induction depth as [|depth IH]; intros s s'; simpl; [done|].
  destruct (habitStack s) as [stack|]; [|by intros [= <-]; left].
  destruct (habitsOf stack !! currentHabitIndex s) as [h|] eqn:Hh;
    [|intros [= <-]; apply ctxMoves_askForReflection].
  apply habitsOf_keys in Hh.
  match goal with
  | |- context [speakText ?e ?t ?x] =>
      pose proof (context_speakText e t x) as Hs;
      destruct (speakText e t x) as [[msg|] s3]; simpl in Hs
  end.
  - intros Hn. apply IH in Hn. eapply ctxMoves_trans; [|exact Hn]. by left.
  - intros Hn. apply ctxMoves_listenForResponseWith in Hn; [|exact IH|done].
    eapply ctxMoves_trans; [|exact Hn]. by left.
Qed.

Lemma recordsValid_moves s s' :
  recordsValid s → responses s' = responses s → ctxMoves s s' → recordsValid s'.
Proof.
  intros [Hr Hc] Hresp Hctx. split; [by rewrite Hresp|].
  intros h Hh. destruct Hctx as [Hctx|[Hctx|(h' & Hctx & Hk)]].
  - apply Hc. by rewrite <-Hctx.
  - congruence.
  - congruence.
Qed.

Lemma recordsValid_processNextHabit env s s' :
  recordsValid s → processNextHabit env s = Some s' → recordsValid s'.
Proof.
  intros Hv Hs'. apply (recordsValid_moves s); [done| |].
  - by destruct (frame_processNextHabit env s s' Hs').
  - by apply (ctxMoves_processNextHabitWithin 6 env).
Qed.

Lemma recordsValid_listenForResponse env h s s' :
  recordsValid s → key h ∈ slotKeys →
  listenForResponse env h s = Some s' → recordsValid s'.
Proof.
  intros Hv Hh Hs'. apply (recordsValid_moves s); [done| |].
  - eapply frame_responses, frame_listenForResponseWith; [|exact Hs'].
    apply frame_processNextHabit.
  - eapply ctxMoves_listenForResponseWith; [|exact Hh|exact Hs'].
    apply (ctxMoves_processNextHabitWithin 6 env).
Qed.

Lemma recordsValid_submitDailyLog env s :
  recordsValid s → recordsValid (submitDailyLog env s).
Proof.
  intros Hv. apply (recordsValid_moves s); [done| |].
  - apply frame_responses, frame_submitDailyLog, frame_refl.
  - left. apply context_submitDailyLog.
Qed.

Lemma classify_answers t r : classify t = Some r → r ∈ answers.
Proof.
  unfold classify, answers. repeat case_match; intros [= <-]; set_solver.
Qed.

Lemma listenForResponse_total env h s : is_Some (listenForResponse env h s).
Proof.
  unfold listenForResponse, listenForResponseWith.
  repeat case_match; try done; apply processNextHabit_total.
Qed.

(** Every handler returns: the nested calls of [processNextHabit] it makes
    stay within the five slots. *)
Lemma step_total env s ev : is_Some (step env s ev).
Proof.
  destruct ev as [|spoken|err|]; simpl.
  - unfold startDailyCheck. repeat case_match; try done.
    apply processNextHabit_total.
  - unfold handleSpeechResult. repeat case_match; try done;
      first [apply processNextHabit_total | apply listenForResponse_total].
  - unfold handleSpeechError. repeat case_match; try done.
    apply processNextHabit_total.
  - unfold handleSpeechEnd. repeat case_match; try done;
      apply listenForResponse_total.
Qed.

Lemma step_valid env s ev s' :
  recordsValid s → step env s ev = Some s' → recordsValid s'.
Proof.
  intros Hv. destruct ev as [|spoken|err|]; simpl.
  - unfold startDailyCheck. destruct (isProcessing s); [by intros [= <-]|].
    unfold checkAuthentication. destruct (getUserId s); [|by intros [= <-]].
    match goal with
    | |- context [fetchHabitStack ?e ?x] =>
        destruct (context_fetchHabitStack e x) as [Hc Hr];
        destruct (fetchHabitStack e x) as [[msg|] s3]; simpl in Hc, Hr
    end.
    + intros [= <-]. by apply (recordsValid_moves s); [| |left].
    + apply recordsValid_processNextHabit. split; simpl.
      * intros k v. by rewrite lookup_empty.
      * rewrite Hc. apply Hv.
  - unfold handleSpeechResult.
    destruct (recognitionContext s) as [[h|]|] eqn:Hctx; [| |by intros [= <-]].
    + assert (key h ∈ slotKeys) as Hh by by apply Hv.
      destruct (classify _) as [r|] eqn:Hcl.
      * apply recordsValid_processNextHabit. split; simpl.
        -- intros k v. destruct (decide (k = key h)) as [->|Hne].
           ++ rewrite lookup_insert_eq. intros [= <-]. split; [done|].
              by apply classify_answers in Hcl.
           ++ rewrite lookup_insert_ne by done. apply Hv.
        -- rewrite Hctx. by intros h' [= <-].
      * match goal with
        | |- context [speakText ?e ?t ?x] =>
            pose proof (context_speakText e t x) as Hs;
            pose proof (frame_speakText e t x x (frame_refl x)) as Hf;
            destruct (speakText e t x) as [[msg|] s1]; simpl in Hs, Hf
        end.
        -- intros [= <-]. by apply (recordsValid_moves s); [|apply Hf|left].
        -- apply recordsValid_listenForResponse; [|done].
           by apply (recordsValid_moves s); [|apply Hf|left].
    + intros [= <-]. apply recordsValid_submitDailyLog.
      by apply (recordsValid_moves s); [| |left].
  - unfold handleSpeechError.
    change (recognitionContext (handleError ?m s)) with (recognitionContext s).
    assert (recordsValid (handleError ("Speech recognition error: " +:+ err) s))
      as Hv1 by by apply (recordsValid_moves s); [| |left].
    destruct (recognitionContext s) as [[h|]|] eqn:Hctx; [| |by intros [= <-]].
    + apply recordsValid_processNextHabit.
      by apply (recordsValid_moves s); [| |left].
    + intros [= <-]. by apply recordsValid_submitDailyLog.
  - unfold handleSpeechEnd. destruct (isProcessing s); [|by intros [= <-]].
    destruct (recognitionContext s) as [[h|]|] eqn:Hctx; try by intros [= <-].
    assert (key h ∈ slotKeys) as Hh by by apply Hv.
    destruct (responses s !! key h) as [[|c r]|]; try by intros [= <-].
    + apply recordsValid_listenForResponse; [|done].
      by apply (recordsValid_moves s); [| |left].
    + apply recordsValid_listenForResponse; [|done].
      by apply (recordsValid_moves s); [| |left].
Qed.

(** Whatever the user does and whatever the collaborators answer, in any
    order: every event is handled to the end, and the tracker's records stay
    in order: each recorded response is "yes", "no" or "skip" and is filed
    under one of [habit_1] to [habit_5], and the habit being listened for is
    the habit of such a slot. *)
Theorem records_stay_valid (env : Env) (s : DailyHabitTracker) (evs : list Event) :
  recordsValid s →
  ∃ s', run env s evs = Some s' ∧ recordsValid s'.
Proof.
  revert s. induction evs as [|ev evs IH]; intros s Hv; simpl; [by exists s|].
  destruct (step_total env s ev) as [s1 Hs1]. rewrite Hs1.
  apply IH. by apply (step_valid env s ev).
Qed.

Lemma records_stay_valid_witness :
  recordsValid demoStart
  ∧ ∃ s', run (demoEnv demoStack) demoStart
            [Click; SpeechResult "Yes!"; SpeechEnd; SpeechResult "maybe";
             SpeechError "no-speech"; SpeechResult "skip"] = Some s'
          ∧ recordsValid s'.
Proof.
  assert (recordsValid demoStart) as H.
  { split; simpl; [|done]. intros k v. by rewrite lookup_empty. }
  split; [exact H|].
  exact (records_stay_valid (demoEnv demoStack) demoStart _ H).
Defined.

Lemma reprompt_step env s h spoken :
  recognitionContext s = Some (HabitContext h) → recognition s = true →
  speakResult env (speakCount (trace s)) = None →
  startResult env (startCount (trace s)) = None →
  classify (Js.toLowerCase (Js.trim spoken)) = None →
  handleSpeechResult env spoken s
  = Some (emit RecognitionStart
            (setContext (HabitContext h)
               (updateStatus "Listening for your response..."
                  (emit (Speak SORRY_PROMPT) s)))).
Proof.
  intros Hctx Hrec Hspeak Hstart Hcl. unfold handleSpeechResult.
  rewrite Hctx, Hcl. unfold speakText. rewrite decide_False by done.
  rewrite Hspeak. unfold listenForResponse, listenForResponseWith. simpl.
  rewrite Hrec. simpl. unfold recognitionStart. simpl. rewrite Hrec.
  rewrite !startCount_snoc. simpl. rewrite !Nat.add_0_r. by rewrite Hstart.
Qed.

(** There is no limit to the re-prompts: as long as the speech output and the
    recognition work, each answer that is neither yes, no nor skip is met by
    the apology and another round of listening for the same habit; nothing is
    recorded and the session does not move on, however often this happens. *)
Theorem reprompts_have_no_limit
    (env : Env) (s : DailyHabitTracker) (h : Habit) (spoken : list string) :
  recognitionContext s = Some (HabitContext h) → recognition s = true →
  (∀ k, speakResult env k = None) → (∀ k, startResult env k = None) →
  Forall (λ t, classify (Js.toLowerCase (Js.trim t)) = None) spoken →
  ∃ s',
    run env s (SpeechResult <$> spoken) = Some s'
    ∧ responses s' = responses s
    ∧ currentHabitIndex s' = currentHabitIndex s
    ∧ recognitionContext s' = Some (HabitContext h)
    ∧ isProcessing s' = isProcessing s
    ∧ speakCount (trace s') = speakCount (trace s) + length spoken
    ∧ startCount (trace s') = startCount (trace s) + length spoken
    ∧ submitted (trace s') = submitted (trace s).
Proof.
  intros Hctx Hrec Hspeak Hstart Hall. revert s Hctx Hrec.
  induction Hall as [|t spoken Ht Hall IH]; intros s Hctx Hrec; simpl.
  { exists s. repeat split; first [done | lia]. }
  rewrite (reprompt_step env s h t) by done.
  match goal with
  | |- context [run env ?s1 _] =>
      destruct (IH s1) as (s' & Hrun & Hr & Hi & Hc & Hp & Hsp & Hst & Hsub);
      [done..|]
  end.
  exists s'. split; [done|]. simpl in *.
  rewrite Hr, Hi, Hc, Hp, Hsp, Hst, Hsub.
  rewrite !speakCount_snoc, !startCount_snoc, !submitted_app. simpl.
  rewrite ?app_nil_r. repeat split; first [done | lia].
Qed.

Lemma reprompts_have_no_limit_witness :
  recognitionContext demoListening
  = Some (HabitContext {| key := "habit_1"; text := "Drink water" |})
  ∧ recognition demoListening = true
  ∧ (∀ k, speakResult (demoEnv demoStack) k = None)
  ∧ (∀ k, startResult (demoEnv demoStack) k = None)
  ∧ Forall (λ t, classify (Js.toLowerCase (Js.trim t)) = None)
           ["maybe"; "Kind of"; "  later "]
  ∧ ∃ s',
      run (demoEnv demoStack) demoListening
        (SpeechResult <$> ["maybe"; "Kind of"; "  later "]) = Some s'
      ∧ responses s' = responses demoListening
      ∧ currentHabitIndex s' = currentHabitIndex demoListening
      ∧ recognitionContext s'
        = Some (HabitContext {| key := "habit_1"; text := "Drink water" |})
      ∧ isProcessing s' = isProcessing demoListening
      ∧ speakCount (trace s') = speakCount (trace demoListening) + 3
      ∧ startCount (trace s') = startCount (trace demoListening) + 3
      ∧ submitted (trace s') = submitted (trace demoListening).
Proof.
  assert (recognitionContext demoListening
          = Some (HabitContext {| key := "habit_1"; text := "Drink water" |})) as H1
    by reflexivity.
  assert (recognition demoListening = true) as H2 by reflexivity.
  assert (∀ k, speakResult (demoEnv demoStack) k = None) as H3 by reflexivity.
  assert (∀ k, startResult (demoEnv demoStack) k = None) as H4 by reflexivity.
  assert (Forall (λ t, classify (Js.toLowerCase (Js.trim t)) = None)
                 ["maybe"; "Kind of"; "  later "]) as H5
    by (repeat constructor).
  repeat (split; [assumption|]).
  exact (reprompts_have_no_limit (demoEnv demoStack) demoListening _ _ H1 H2 H3 H4 H5).
Defined.

Lemma habitsOf_NoDup stack : NoDup (key <$> habitsOf stack).
Proof.
  change (habitsOf stack) with (omap (slotHabit stack) [1; 2; 3; 4; 5]).
  apply (sublist_NoDup _ (slotKey <$> [1; 2; 3; 4; 5])); [|apply omap_keys_sublist].
  apply (bool_decide_unpack _). by vm_compute.
Qed.

(** The state after [processNextHabit] when the voice works: the next habit
    has been read out, or the reflection asked for, and the recognition
    listens. *)
Lemma processNextHabit_listens env s stack :
  voiceWorks env → habitStack s = Some stack → recognition s = true →
  ∃ s',
    processNextHabit env s = Some s'
    ∧ habitStack s' = Some stack ∧ recognition s' = true
    ∧ responses s' = responses s ∧ userId s' = userId s
    ∧ currentHabitIndex s' = currentHabitIndex s
    ∧ recognitionContext s' = contextAt stack (currentHabitIndex s)
    ∧ isProcessing s' = isProcessing s
    ∧ submitted (trace s') = submitted (trace s).
Proof.
  intros [Hspeak Hstart] Hst Hrec.
  destruct (processNextHabit_total env s) as [s' Hs'].
  destruct (frame_processNextHabit env s s' Hs') as [Hf1 Hf2 Hf3 Hf4 _ _ _ _].
  pose proof (processNextHabitWithin_spec 5 env s stack s' Hst Hs') as Hspec.
  exists s'. unfold contextAt.
  destruct (habitsOf stack !! currentHabitIndex s) as [h|].
  - destruct Hspec as (d' & Hd' & Hcond).
    destruct (Hcond (Hspeak _) (Hstart _) Hrec) as (-> & Hi & Hc & Hp).
    split_and!; try congruence. rewrite Hd', !submitted_app. simpl.
    by rewrite app_nil_r.
  - destruct Hspec as (d' & Hd' & Hi & Hcond).
    destruct (Hcond (Hspeak _) (Hstart _) Hrec) as (-> & Hc & Hp).
    split_and!; try congruence. rewrite Hd', !submitted_app. simpl.
    by rewrite app_nil_r.
Qed.

Lemma answer_is_recorded env s stack h spoken r :
  voiceWorks env → habitStack s = Some stack → recognition s = true →
  recognitionContext s = Some (HabitContext h) → understoodAs spoken r →
  ∃ s',
    handleSpeechResult env spoken s = Some s'
    ∧ habitStack s' = Some stack ∧ recognition s' = true
    ∧ responses s' = <[key h := r]> (responses s) ∧ userId s' = userId s
    ∧ currentHabitIndex s' = S (currentHabitIndex s)
    ∧ recognitionContext s' = contextAt stack (S (currentHabitIndex s))
    ∧ isProcessing s' = isProcessing s
    ∧ submitted (trace s') = submitted (trace s).
Proof.
  intros Henv Hst Hrec Hctx Hcl. unfold handleSpeechResult. rewrite Hctx, Hcl.
  match goal with
  | |- context [processNextHabit env ?t] =>
      destruct (processNextHabit_listens env t stack Henv)
        as (s' & Hs' & H1 & H2 & H3 & H4 & H5 & H6 & H7 & H8); [done..|]
  end.
  exists s'. simpl in *. rewrite Nat.add_1_r in *.
  split_and!; try done.
  rewrite H8, !submitted_app. simpl. by rewrite !app_nil_r.
Qed.

(** The responses after the answers [rs] to the habits [hs], one by one. *)
Lemma answers_are_recorded env stack spoken rs :
  voiceWorks env → Forall2 understoodAs spoken rs →
  ∀ s,
    habitStack s = Some stack → recognition s = true →
    recognitionContext s = contextAt stack (currentHabitIndex s) →
    currentHabitIndex s + length spoken ≤ length (habitsOf stack) →
    ∃ s',
      run env s (SpeechResult <$> spoken) = Some s'
      ∧ habitStack s' = Some stack ∧ recognition s' = true
      ∧ userId s' = userId s
      ∧ currentHabitIndex s' = currentHabitIndex s + length spoken
      ∧ recognitionContext s' = contextAt stack (currentHabitIndex s')
      ∧ isProcessing s' = isProcessing s
      ∧ submitted (trace s') = submitted (trace s)
      ∧ responses s'
        = foldl (λ m hr, <[key hr.1 := hr.2]> m) (responses s)
            (zip (drop (currentHabitIndex s) (habitsOf stack)) rs).
Proof.
  intros Henv Hall. induction Hall as [|a r spoken rs Har Hall IH];
    intros s Hst Hrec Hctx Hlen.
  { exists s. cbn [length]. rewrite Nat.add_0_r. split_and!; try done.
    by destruct (drop _ _). }
  rewrite fmap_cons. cbn [run step length] in *.
  destruct (habitsOf stack !! currentHabitIndex s) as [h|] eqn:Hh;
    [|apply lookup_ge_None in Hh; lia].
  unfold contextAt in Hctx. rewrite Hh in Hctx.
  destruct (answer_is_recorded env s stack h a r Henv Hst Hrec Hctx Har)
    as (s1 & -> & H1 & H2 & H3 & H4 & H5 & H6 & H7 & H8).
  destruct (IH s1) as (s' & Hrun & K1 & K2 & K3 & K4 & K5 & K6 & K7 & K8);
    [done|done|by rewrite H6, H5|lia|].
  exists s'. split_and!; [done|done|done|congruence|lia|done|congruence|congruence|].
  by rewrite K8, H3, H5, (drop_S _ _ _ Hh).
Qed.

Lemma record_all (hs : list Habit) (rs : list string) (m : gmap string string) :
  NoDup (key <$> hs) →
  foldl (λ m hr, <[key hr.1 := hr.2]> m) m (zip hs rs)
  = list_to_map (zip (key <$> hs) rs) ∪ m.
Proof.
  revert rs m. induction hs as [|h hs IH]; intros rs m Hnd; simpl.
  { by rewrite (left_id_L ∅ (∪)). }
  destruct rs as [|r rs]; simpl; [by rewrite (left_id_L ∅ (∪))|].
  apply NoDup_cons in Hnd as [Hh Hnd]. rewrite IH by done.
  rewrite <-insert_union_l. symmetry. apply insert_union_r.
  apply not_elem_of_list_to_map_1. intros Hin. apply Hh.
  apply list_elem_of_fmap in Hin as ([k v] & -> & Hin).
  by apply elem_of_zip_l in Hin.
Qed.

(** The check-in when everything works and every answer is understood: the
    click fetches the stack and reads out the first habit, each answer is
    recorded for the habit it was given to and the next habit is read out,
    and after the answer to the last habit the tracker holds exactly one
    response for each habit of the stack, under the habit's key, is asking
    for the reflection, and has not posted anything yet. *)
Theorem every_habit_gets_its_answer
    (env : Env) (s : DailyHabitTracker) (uid : string)
    (stack : gmap string string) (spoken rs : list string) :
  isProcessing s = false → getUserId s = Some uid → recognition s = true →
  delivered env = Some stack → voiceWorks env →
  Forall2 understoodAs spoken rs →
  length spoken = length (habitsOf stack) →
  ∃ s',
    run env s (Click :: (SpeechResult <$> spoken)) = Some s'
    ∧ responses s' = list_to_map (zip (key <$> habitsOf stack) rs)
    ∧ currentHabitIndex s' = length (habitsOf stack)
    ∧ recognitionContext s' = Some ReflectionContext
    ∧ isProcessing s' = true
    ∧ submitted (trace s') = submitted (trace s).
Proof.
  intros Hproc Huid Hrec Hdel Henv Hall Hlen.
  destruct (delivered_Some env stack Hdel)
    as (status & statusText & errorField & ok & err & Hfetch & Hok & Hsucc).
  cbn [run step]. unfold startDailyCheck. rewrite Hproc.
  unfold checkAuthentication. rewrite Huid.
  rewrite (fetchHabitStack_ok env _ uid stack status statusText errorField err ok);
    [|done..].
  match goal with
  | |- context [processNextHabit env ?t] =>
      destruct (processNextHabit_listens env t stack Henv)
        as (s1 & -> & H1 & H2 & H3 & H4 & H5 & H6 & H7 & H8); [done..|]
  end.
  simpl in H3, H5, H6, H7, H8.
  destruct (answers_are_recorded env stack spoken rs Henv Hall s1)
    as (s' & Hrun & K1 & K2 & K3 & K4 & K5 & K6 & K7 & K8);
    [done|done|by rewrite H6, H5|lia|].
  exists s'. split_and!.
  - done.
  - rewrite K8, H3, H5, drop_0, (record_all _ _ _ (habitsOf_NoDup stack)).
    by rewrite (right_id_L ∅ (∪)).
  - rewrite K4, H5. simpl. lia.
  - rewrite K5, K4, H5. unfold contextAt.
    by rewrite (proj2 (lookup_ge_None _ _)) by (simpl; lia).
  - by rewrite K6, H7.
  - rewrite K7, H8, <-!(assoc_L (++)), submitted_app. simpl. by rewrite app_nil_r.
Qed.

Lemma every_habit_gets_its_answer_witness :
  isProcessing demoStart = false ∧ getUserId demoStart = Some "user123"
  ∧ recognition demoStart = true
  ∧ delivered (demoEnv demoStack) = Some demoStack
  ∧ voiceWorks (demoEnv demoStack)
  ∧ Forall2 understoodAs ["Yeah, I did"; " NOPE "] ["yes"; "no"]
  ∧ length ["Yeah, I did"; " NOPE "] = length (habitsOf demoStack)
  ∧ ∃ s',
      run (demoEnv demoStack) demoStart
        (Click :: (SpeechResult <$> ["Yeah, I did"; " NOPE "])) = Some s'
      ∧ responses s' = list_to_map (zip (key <$> habitsOf demoStack) ["yes"; "no"])
      ∧ currentHabitIndex s' = length (habitsOf demoStack)
      ∧ recognitionContext s' = Some ReflectionContext
      ∧ isProcessing s' = true
      ∧ submitted (trace s') = submitted (trace demoStart).
Proof.
  assert (isProcessing demoStart = false) as H1 by reflexivity.
  assert (getUserId demoStart = Some "user123") as H2 by reflexivity.
  assert (recognition demoStart = true) as H3 by reflexivity.
  assert (delivered (demoEnv demoStack) = Some demoStack) as H4 by reflexivity.
  assert (voiceWorks (demoEnv demoStack)) as H5 by (by split).
  assert (Forall2 understoodAs ["Yeah, I did"; " NOPE "] ["yes"; "no"]) as H6
    by (repeat constructor).
  assert (length ["Yeah, I did"; " NOPE "] = length (habitsOf demoStack)) as H7
    by reflexivity.
  repeat (split; [assumption|]).
  exact (every_habit_gets_its_answer (demoEnv demoStack) demoStart "user123"
           demoStack _ _ H1 H2 H3 H4 H5 H6 H7).
Defined.

End TrackerMore.

(** ** Facts about [categorizeHabits] *)

Module PromptsFacts.
Import Prompts.

Lemma answeredWith_nil r hs : answeredWith r hs [] = [].
Proof. by destruct hs. Qed.

(** The loop invariant of the [forEach]. *)
Lemma forEachFrom_spec rs hs i acc :
  forEachFrom rs i hs acc
  = {| completed := completed acc ++ answeredWith "yes" hs (drop i rs);
       notCompleted := notCompleted acc ++ answeredWith "no" hs (drop i rs);
       skipped := skipped acc ++ answeredWith "skip" hs (drop i rs) |}.
Proof.
  revert i acc. induction hs as [|h hs IH]; intros i acc; simpl.
  { destruct acc. simpl. by rewrite !app_nil_r. }
  rewrite IH. unfold visit. destruct (rs !! i) as [r|] eqn:E.
  - rewrite (drop_S _ _ _ E).
    destruct (decide (r = "yes")) as [->|Hy]; simpl.
    { by rewrite <-(assoc_L (++)). }
    destruct (decide (r = "no")) as [->|Hn]; simpl.
    { by rewrite <-(assoc_L (++)). }
    destruct (decide (r = "skip")) as [->|Hs]; simpl; [|done].
    by rewrite <-(assoc_L (++)).
  - apply lookup_ge_None in E.
    rewrite (drop_ge rs i), (drop_ge rs (S i)) by lia.
    by rewrite !answeredWith_nil.
Qed.

(** [categorizeHabits] sorts the habits by the response at the same position:
    each category lists, in the order of [habits], the habits whose response
    is exactly "yes", "no" or "skip". A habit with any other response, or
    beyond the end of [responses], is in no category. *)
Theorem categorizeHabits_sorts_by_response (habits responses : list string) :
  completed (categorizeHabits habits responses) = answeredWith "yes" habits responses
  ∧ notCompleted (categorizeHabits habits responses)
    = answeredWith "no" habits responses
  ∧ skipped (categorizeHabits habits responses)
    = answeredWith "skip" habits responses.
Proof. unfold categorizeHabits. by rewrite forEachFrom_spec. Qed.

Lemma answeredWith_partition hs rs :
  length hs ≤ length rs → Forall isAnswer (take (length hs) rs) →
  answeredWith "yes" hs rs ++ answeredWith "no" hs rs ++ answeredWith "skip" hs rs
  ≡ₚ hs.
Proof.
  revert rs. induction hs as [|h hs IH]; intros [|r rs] Hlen Hall; simpl in *;
    [done|done|lia|].
  apply Forall_cons in Hall as [Hr Hall].
  specialize (IH rs ltac:(lia) Hall).
  destruct Hr as [-> | [-> | ->]]; simpl.
  - by rewrite IH.
  - by rewrite <-Permutation_middle, IH.
  - by rewrite (assoc_L (++)), <-Permutation_middle, <-(assoc_L (++)), IH.
Qed.

(** When every habit has a response and each response is yes, no or skip,
    the three categories together hold each habit exactly once. *)
Theorem categorizeHabits_partitions (habits responses : list string) :
  length habits ≤ length responses →
  Forall isAnswer (take (length habits) responses) →
  completed (categorizeHabits habits responses)
    ++ notCompleted (categorizeHabits habits responses)
    ++ skipped (categorizeHabits habits responses)
  ≡ₚ habits.
Proof.
  intros Hlen Hall. unfold categorizeHabits. rewrite forEachFrom_spec. simpl.
  by apply answeredWith_partition.
Qed.

Lemma categorizeHabits_partitions_witness :
  length ["Drink water"; "Stretch"; "Read"] ≤ length ["no"; "yes"; "skip"; "yes"]
  ∧ Forall isAnswer (take (length ["Drink water"; "Stretch"; "Read"])
                          ["no"; "yes"; "skip"; "yes"])
  ∧ completed (categorizeHabits ["Drink water"; "Stretch"; "Read"]
                                ["no"; "yes"; "skip"; "yes"])
      ++ notCompleted (categorizeHabits ["Drink water"; "Stretch"; "Read"]
                                        ["no"; "yes"; "skip"; "yes"])
      ++ skipped (categorizeHabits ["Drink water"; "Stretch"; "Read"]
                                   ["no"; "yes"; "skip"; "yes"])
    ≡ₚ ["Drink water"; "Stretch"; "Read"].
Proof.
  assert (length ["Drink water"; "Stretch"; "Read"]
          ≤ length ["no"; "yes"; "skip"; "yes"]) as H1 by (simpl; lia).
  assert (Forall isAnswer (take (length ["Drink water"; "Stretch"; "Read"])
                                ["no"; "yes"; "skip"; "yes"])) as H2
    by (simpl; repeat constructor; unfold isAnswer; auto).
  split; [exact H1|]. split; [exact H2|].
  exact (categorizeHabits_partitions _ _ H1 H2).
Defined.

End PromptsFacts.

(** ** Facts about the choice of a voice *)

Module WebSpeechFacts.
Import WebSpeech.

Lemma prefix_refl s : String.prefix s s = true.
Proof.
  induction s as [|c s IH]; simpl; [done|].
  by destruct (Ascii.ascii_dec c c).
Qed.

Lemma includes_refl s : Js.includes s s = true.
Proof.
  destruct s as [|c s]; [done|].
  change (Js.includes (String c s) (String c s))
    with (String.prefix (String c s) (String c s) || Js.includes s (String c s)).
  by rewrite prefix_refl.
Qed.

Lemma exact_is_partial n v : exactMatch n v = true → partialMatch n v = true.
Proof.
  unfold exactMatch, partialMatch. intros H. apply bool_decide_eq_true in H.
  rewrite H. apply includes_refl.
Qed.

Lemma find_elem_of {A} (f : A → bool) (l : list A) x :
  List.find f l = Some x → x ∈ l ∧ f x = true.
Proof. intros H. apply List.find_some in H as [H1 H2]. by apply list_elem_of_In in H1. Qed.

Lemma find_none_elem_of {A} (f : A → bool) (l : list A) x :
  List.find f l = None → x ∈ l → f x = false.
Proof. intros H Hx. apply (List.find_none f l H). by apply list_elem_of_In. Qed.

Lemma find_is_Some {A} (f : A → bool) (l : list A) x :
  x ∈ l → f x = true → is_Some (List.find f l).
Proof.
  intros Hx Hf. destruct (List.find f l) eqn:E; [done|].
  rewrite (find_none_elem_of f l x E Hx) in Hf. done.
Qed.

Lemma choose_None n l vs : choose n l vs = None ↔ vs = [].
Proof.
  split; [|by intros ->]. destruct vs as [|first vs]; [done|].
  unfold choose. by repeat case_match.
Qed.

Lemma choose_prefers (n : option string) (l : string) (vs : list Voice) :
  vs ≠ [] →
  ∃ v,
    choose n l vs = Some v ∧ v ∈ vs
    ∧ (∀ m u, n = Some m → u ∈ vs → exactMatch m u = true → exactMatch m v = true)
    ∧ (∀ m u, n = Some m → u ∈ vs → partialMatch m u = true → partialMatch m v = true)
    ∧ ((∀ m u, n = Some m → u ∈ vs → partialMatch m u = false) →
       (∀ u, u ∈ vs → langMatch l u = true → langMatch l v = true)
       ∧ ((∀ u, u ∈ vs → langMatch l u = false) → vs !! 0 = Some v)).
Proof.
  intros Hvs. destruct vs as [|first vs']; [done|]. clear Hvs.
  set (vs := first :: vs').
  assert (∃ v, (match List.find (langMatch l) vs with
                | Some v => Some v
                | None => Some first
                end) = Some v
               ∧ v ∈ vs
               ∧ (∀ u, u ∈ vs → langMatch l u = true → langMatch l v = true)
               ∧ ((∀ u, u ∈ vs → langMatch l u = false) → vs !! 0 = Some v))
    as (w & Hw & Hwin & Hwlang & Hwfirst).
  { destruct (List.find (langMatch l) vs) as [v|] eqn:E.
    - apply find_elem_of in E as [Hin Hl]. exists v. split_and!; try done.
      intros Hnone. by rewrite (Hnone v Hin) in Hl.
    - exists first. split_and!; [done|by left| |done].
      intros u Hu Hl. by rewrite (find_none_elem_of _ _ u E Hu) in Hl. }
  change (choose n l vs) with
    (match (match n with
            | Some m =>
                match List.find (exactMatch m) vs with
                | Some v => Some v
                | None => List.find (partialMatch m) vs
                end
            | None => None
            end) with
     | Some v => Some v
     | None => match List.find (langMatch l) vs with
               | Some v => Some v
               | None => Some first
               end
     end).
  destruct n as [m|]; [|exists w; by split_and!].
  destruct (List.find (exactMatch m) vs) as [v|] eqn:Ee.
  { apply find_elem_of in Ee as [Hin He]. exists v.
    split_and!; try done.
    - by intros m' u [= <-] _ _.
    - intros m' u [= <-] _ _. by apply exact_is_partial.
    - intros Hno. specialize (Hno m v eq_refl Hin).
      by rewrite (exact_is_partial _ _ He) in Hno. }
  destruct (List.find (partialMatch m) vs) as [v|] eqn:Ep.
  { apply find_elem_of in Ep as [Hin Hp]. exists v.
    split_and!; try done.
    - intros m' u [= <-] Hu He.
      by rewrite (find_none_elem_of _ _ u Ee Hu) in He.
    - by intros m' u [= <-] _ _.
    - intros Hno. specialize (Hno m v eq_refl Hin). by rewrite Hp in Hno. }
  exists w. split_and!; try done.
  - intros m' u [= <-] Hu He. by rewrite (find_none_elem_of _ _ u Ee Hu) in He.
  - intros m' u [= <-] Hu Hp. by rewrite (find_none_elem_of _ _ u Ep Hu) in Hp.
Qed.

(** Among the voices at hand (those it had, or else those it loads)
    [findVoice] always finds one, and by this order of preference: a voice
    whose name is the wanted name, up to case; else the first voice whose name
    contains it; else a voice of the provider's language, up to case; else
    the first voice. A voice of the exact name is taken even when a voice
    before it contains the name. *)
Theorem findVoice_prefers (getVoices : nat → list Voice) (p : WebSpeechProvider) :
  voices (findVoice getVoices p).2 ≠ [] →
  ∃ v,
    (findVoice getVoices p).1 = Some v
    ∧ v ∈ voices (findVoice getVoices p).2
    ∧ (∀ m u, voiceName p = Some m → u ∈ voices (findVoice getVoices p).2 →
              exactMatch m u = true → exactMatch m v = true)
    ∧ (∀ m u, voiceName p = Some m → u ∈ voices (findVoice getVoices p).2 →
              partialMatch m u = true → partialMatch m v = true)
    ∧ ((∀ m u, voiceName p = Some m → u ∈ voices (findVoice getVoices p).2 →
               partialMatch m u = false) →
       (∀ u, u ∈ voices (findVoice getVoices p).2 →
             langMatch (p_lang p) u = true → langMatch (p_lang p) v = true)
       ∧ ((∀ u, u ∈ voices (findVoice getVoices p).2 →
                langMatch (p_lang p) u = false) →
          voices (findVoice getVoices p).2 !! 0 = Some v)).
Proof.
  unfold findVoice. simpl.
  destruct (voices p) eqn:E; simpl; rewrite ?E; apply choose_prefers.
Qed.

Lemma findVoice_prefers_witness :
  let p := {| voiceName := Some "SAMANTHA"; p_lang := "fr-ca";
              voices := [samanthaEnhanced; amelie; samantha];
              calls := 1; waits := 0 |} in
  voices (findVoice slowBrowser p).2 ≠ []
  ∧ ∃ v,
      (findVoice slowBrowser p).1 = Some v
      ∧ v ∈ voices (findVoice slowBrowser p).2
      ∧ (∀ m u, voiceName p = Some m → u ∈ voices (findVoice slowBrowser p).2 →
                exactMatch m u = true → exactMatch m v = true)
      ∧ (∀ m u, voiceName p = Some m → u ∈ voices (findVoice slowBrowser p).2 →
                partialMatch m u = true → partialMatch m v = true)
      ∧ ((∀ m u, voiceName p = Some m → u ∈ voices (findVoice slowBrowser p).2 →
                 partialMatch m u = false) →
         (∀ u, u ∈ voices (findVoice slowBrowser p).2 →
               langMatch (p_lang p) u = true → langMatch (p_lang p) v = true)
         ∧ ((∀ u, u ∈ voices (findVoice slowBrowser p).2 →
                  langMatch (p_lang p) u = false) →
            voices (findVoice slowBrowser p).2 !! 0 = Some v)).
Proof.
  intros p.
  assert (voices (findVoice slowBrowser p).2 ≠ []) as H by done.
  split; [exact H|].
  exact (findVoice_prefers slowBrowser p H).
Defined.

Lemma findVoice_cases getVoices p :
  (voices p ≠ []
   ∧ findVoice getVoices p = (choose (voiceName p) (p_lang p) (voices p), p))
  ∨ (voices p = []
     ∧ findVoice getVoices p
       = (choose (voiceName p) (p_lang p) (getVoices (calls p)),
          loadVoices getVoices p)).
Proof.
  unfold findVoice. destruct (voices p) as [|first rest] eqn:E.
  - by right.
  - left. split; [done|]. by rewrite E.
Qed.

Lemma choose_Some_nonempty n l vs v : choose n l vs = Some v → vs ≠ [].
Proof. by intros H ->. Qed.

(** What the loop of [findVoiceWithRetry] does in [k] turns. *)
Lemma retry_spec getVoices k p :
  ∃ v p',
    retry getVoices k p = (v, p')
    ∧ match v with
      | Some voice =>
          ∃ j, calls p ≤ j ∧ calls p' = S j
               ∧ getVoices j ≠ []
               ∧ (∀ i, calls p ≤ i < j → getVoices i = [])
               ∧ choose (voiceName p) (p_lang p) (getVoices j) = Some voice
               ∧ waits p < waits p' ≤ waits p + k
      | None =>
          waits p' = waits p + k ∧ calls p' = calls p + 2 * k
          ∧ ∀ i, calls p ≤ i < calls p' → getVoices i = []
      end.
Proof.
  revert p. induction k as [|k IH]; intros p.
  { exists None, p. simpl. split_and!; try done; try lia. }
  cbn [retry].
  destruct (findVoice_cases getVoices (loadVoices getVoices (wait p)))
    as [[Hne ->]|[He ->]]; simpl in *.
  - destruct (choose (voiceName p) (p_lang p) (getVoices (calls p))) as [v|] eqn:Ec;
      [|by apply choose_None in Ec].
    exists (Some v), (loadVoices getVoices (wait p)). split; [done|].
    exists (calls p). simpl. split_and!; try done; try lia.
  - destruct (choose (voiceName p) (p_lang p) (getVoices (S (calls p)))) as [v|] eqn:Ec.
    + exists (Some v), (loadVoices getVoices (loadVoices getVoices (wait p))).
      split; [done|]. exists (S (calls p)). simpl.
      split_and!; try done; try lia.
      * by apply choose_Some_nonempty in Ec.
      * intros i Hi. by replace i with (calls p) by lia.
    + apply choose_None in Ec.
      destruct (IH (loadVoices getVoices (loadVoices getVoices (wait p))))
        as (v & p' & Hr & Hv).
      exists v, p'. split; [done|]. simpl in Hv. destruct v as [voice|].
      * destruct Hv as (j & Hj & Hc & Hn & Hempty & Hch & Hw).
        exists j. split_and!; try done; try lia.
        intros i Hi. destruct (decide (i = calls p)) as [->|]; [done|].
        destruct (decide (i = S (calls p))) as [->|]; [done|].
        apply Hempty. lia.
      * destruct Hv as (Hw & Hc & Hempty). split_and!; try lia.
        intros i Hi. destruct (decide (i = calls p)) as [->|]; [done|].
        destruct (decide (i = S (calls p))) as [->|]; [done|].
        apply Hempty. lia.
Qed.

(** [findVoiceWithRetry] on a provider that has no voices yet. It asks the
    browser for its voices until an answer is not empty, and chooses among the
    voices of the first such answer. It gives up after [maxRetries] delays;
    by then it has asked once and then twice after each delay, all in vain.
    When it finds a voice it has waited for as many delays as there were
    retries, at most [maxRetries]. *)
Theorem findVoiceWithRetry_takes_first_voices
    (getVoices : nat → list Voice) (maxRetries : nat) (p : WebSpeechProvider) :
  voices p = [] →
  ∃ v p',
    findVoiceWithRetry getVoices maxRetries p = (v, p')
    ∧ match v with
      | Some voice =>
          ∃ j, calls p ≤ j ∧ calls p' = S j
               ∧ getVoices j ≠ []
               ∧ (∀ i, calls p ≤ i < j → getVoices i = [])
               ∧ choose (voiceName p) (p_lang p) (getVoices j) = Some voice
               ∧ voice ∈ getVoices j
               ∧ waits p' ≤ waits p + maxRetries
      | None =>
          waits p' = waits p + maxRetries
          ∧ calls p' = calls p + 1 + 2 * maxRetries
          ∧ ∀ i, calls p ≤ i < calls p' → getVoices i = []
      end.
Proof.
  intros Hp. unfold findVoiceWithRetry.
  destruct (findVoice_cases getVoices p) as [[Hne _]|[_ ->]]; [done|].
  destruct (choose (voiceName p) (p_lang p) (getVoices (calls p))) as [v|] eqn:Ec.
  - exists (Some v), (loadVoices getVoices p). split; [done|].
    exists (calls p). simpl. split_and!; try done; try lia.
    + by apply choose_Some_nonempty in Ec.
    + destruct (choose_prefers (voiceName p) (p_lang p) (getVoices (calls p)))
        as (w & Hw & Hin & _); [by apply choose_Some_nonempty in Ec|].
      congruence.
  - apply choose_None in Ec.
    destruct (retry_spec getVoices maxRetries (loadVoices getVoices p))
      as (v & p' & Hr & Hv).
    exists v, p'. split; [done|]. simpl in Hv. destruct v as [voice|].
    + destruct Hv as (j & Hj & Hc & Hn & Hempty & Hch & Hw).
      exists j. split_and!; try done; try lia.
      * intros i Hi. destruct (decide (i = calls p)) as [->|]; [done|].
        apply Hempty. lia.
      * destruct (choose_prefers (voiceName p) (p_lang p) (getVoices j) Hn)
          as (w & Hw' & Hin & _).
        congruence.
    + destruct Hv as (Hw & Hc & Hempty). split_and!; try lia.
      intros i Hi. destruct (decide (i = calls p)) as [->|]; [done|].
      apply Hempty. lia.
Qed.

Lemma findVoiceWithRetry_takes_first_voices_witness :
  let p := constructor slowBrowser (Some "samantha") None in
  voices p = []
  ∧ ∃ v p',
      findVoiceWithRetry slowBrowser 5 p = (v, p')
      ∧ match v with
        | Some voice =>
            ∃ j, calls p ≤ j ∧ calls p' = S j
                 ∧ slowBrowser j ≠ []
                 ∧ (∀ i, calls p ≤ i < j → slowBrowser i = [])
                 ∧ choose (voiceName p) (p_lang p) (slowBrowser j) = Some voice
                 ∧ voice ∈ slowBrowser j
                 ∧ waits p' ≤ waits p + 5
        | None =>
            waits p' = waits p + 5
            ∧ calls p' = calls p + 1 + 2 * 5
            ∧ ∀ i, calls p ≤ i < calls p' → slowBrowser i = []
        end.
Proof.
  intros p.
  assert (voices p = []) as H by reflexivity.
  split; [exact H|].
  exact (findVoiceWithRetry_takes_first_voices slowBrowser 5 p H).
Defined.

End WebSpeechFacts.

(** ** More facts about the voice goals input *)

Module GoalsMore.
Import Goals GoalsOps.

Lemma append_cons c s t : String c s +:+ t = String c (s +:+ t).
Proof. done. Qed.

Lemma append_nil_r s : s +:+ "" = s.
Proof. induction s as [|c s IH]; [done|]. by rewrite append_cons, IH. Qed.

Lemma append_assoc s t u : (s +:+ t) +:+ u = s +:+ (t +:+ u).
Proof. induction s as [|c s IH]; [done|]. by rewrite !append_cons, IH. Qed.

Lemma rev_cons c s : Js.rev (String c s) = Js.rev s +:+ String c "".
Proof. done. Qed.

Lemma rev_append s t : Js.rev (s +:+ t) = Js.rev t +:+ Js.rev s.
Proof.
  induction s as [|c s IH].
  - change ("" +:+ t) with t. change (Js.rev "") with "". by rewrite append_nil_r.
  - rewrite append_cons, !rev_cons, IH. by rewrite append_assoc.
Qed.

Lemma rev_involutive s : Js.rev (Js.rev s) = s.
Proof.
  induction s as [|c s IH]; [done|].
  rewrite rev_cons, rev_append, IH. done.
Qed.

Lemma dropWhile_clean s : startsClean (Js.dropWhile Js.isSpace s).
Proof.
  induction s as [|c s IH]; [done|]. simpl.
  by destruct (Js.isSpace c) eqn:E.
Qed.

Lemma clean_dropWhile s : startsClean s → Js.dropWhile Js.isSpace s = s.
Proof. destruct s as [|c s]; [done|]. simpl. by intros ->. Qed.

Lemma dropWhile_suffix s : ∃ w, s = w +:+ Js.dropWhile Js.isSpace s.
Proof.
  induction s as [|c s [w IH]]; [by exists ""|]. simpl.
  destruct (Js.isSpace c).
  - exists (String c w). by rewrite append_cons, <-IH.
  - by exists "".
Qed.

Lemma startsClean_append s t : startsClean (s +:+ t) → startsClean s.
Proof. by destruct s. Qed.

Lemma trim_clean s :
  startsClean (Js.trim s) ∧ startsClean (Js.rev (Js.trim s)).
Proof.
  unfold Js.trim, Js.trimEnd, Js.trimStart.
  set (a := Js.dropWhile Js.isSpace s).
  assert (startsClean a) as Ha by apply dropWhile_clean.
  split; [|rewrite rev_involutive; apply dropWhile_clean].
  destruct (dropWhile_suffix (Js.rev a)) as [w Hw].
  apply (f_equal Js.rev) in Hw. rewrite rev_involutive, rev_append in Hw.
  rewrite Hw in Ha. by apply startsClean_append in Ha.
Qed.

Lemma clean_trim s : startsClean s → startsClean (Js.rev s) → Js.trim s = s.
Proof.
  intros H1 H2. unfold Js.trim, Js.trimEnd, Js.trimStart.
  by rewrite (clean_dropWhile s H1), (clean_dropWhile _ H2), rev_involutive.
Qed.

Lemma trim_idempotent s : Js.trim (Js.trim s) = Js.trim s.
Proof. destruct (trim_clean s). by apply clean_trim. Qed.

Lemma nonEmpty_ne s : Js.nonEmpty s = true ↔ s ≠ "".
Proof. by destruct s. Qed.

Lemma slice0_subseteq {A} (l : list A) n x : x ∈ Js.slice0 l n → x ∈ l.
Proof.
  unfold Js.slice0. destruct (n <? 0)%Z; intros H;
    by apply elem_of_take in H as (i & H & _); apply list_elem_of_lookup_2 in H.
Qed.

Lemma cleaned_goals (fragments : list string) (maxGoals : Z) goal :
  goal ∈ Js.slice0 (List.filter Js.nonEmpty (map Js.trim fragments)) maxGoals →
  goal ≠ "" ∧ Js.trim goal = goal.
Proof.
  intros H%slice0_subseteq. apply list_elem_of_In, List.filter_In in H as [H Hne].
  apply List.in_map_iff in H as (fragment & <- & _).
  split; [by apply nonEmpty_ne|apply trim_idempotent].
Qed.

Lemma goals_clean (maxGoals : Z) (transcript : string) :
  Forall (λ goal, goal ≠ "" ∧ Js.trim goal = goal)
         (processTranscriptIntoGoals maxGoals transcript).
Proof.
  unfold processTranscriptIntoGoals.
  match goal with
  | |- context [Js.slice0 (List.filter Js.nonEmpty (map Js.trim ?fragments)) _] =>
      pose proof (cleaned_goals fragments maxGoals) as Hclean;
      destruct (Js.slice0 (List.filter Js.nonEmpty (map Js.trim fragments)) maxGoals)
        as [|g gs]
  end.
  - destruct (Js.nonEmpty (Js.trim transcript)) eqn:E; [|constructor].
    repeat constructor; [by apply nonEmpty_ne|apply trim_idempotent].
  - apply Forall_forall. intros goal Hin. by apply Hclean.
Qed.

Lemma goals_of_speech (maxGoals : Z) (transcript : string) :
  processTranscriptIntoGoals maxGoals transcript = [] → Js.trim transcript = "".
Proof.
  unfold processTranscriptIntoGoals.
  destruct (Js.slice0 _ _); [|done].
  by destruct (Js.trim transcript).
Qed.

(** Every goal [processTranscriptIntoGoals] returns is a piece of text with
    no white space at either end, and none is empty; only a blank transcript
    gives no goal, whatever [maxGoals] is. So when the recognition ends,
    the confirmation that [handleEnd] asks for always lists at least one
    goal. *)
Theorem goals_are_trimmed (maxGoals : Z) (transcript : string) :
  Forall (λ goal, goal ≠ "" ∧ Js.trim goal = goal)
         (processTranscriptIntoGoals maxGoals transcript)
  ∧ (processTranscriptIntoGoals maxGoals transcript = [] → Js.trim transcript = "")
  ∧ (∀ s r, last (trace (handleEnd s)) = Some (OnFinalResult r) →
            goals r ≠ []
            ∧ Forall (λ goal, goal ≠ "" ∧ Js.trim goal = goal) (goals r)).
Proof.
  split; [apply goals_clean|]. split; [apply goals_of_speech|].
  intros s r. unfold handleEnd.
  destruct (Js.nonEmpty (Js.trim _)) eqn:E; simpl; rewrite last_snoc; [|done].
  intros [= <-]. simpl. split; [|apply goals_clean].
  intros H%goals_of_speech. apply nonEmpty_ne in E. done.
Qed.

Lemma finals_app l1 l2 : finals (l1 ++ l2) = finals l1 ++ finals l2.
Proof.
  induction l1 as [|[t [|]] l1 IH]; simpl; [done| |done]. by rewrite IH.
Qed.

(** The loop of [handleResult], from any point on. *)
Lemma handleResult_loop results interim final st :
  ∃ st',
    foldl (λ '(interim, final, st) '(t, isFinal),
             if isFinal : bool
             then (interim, final +:+ t,
                   setLastResults (lastResults st ++ [Js.trim t]) st)
             else (interim +:+ t, final, st))
          (interim, final, st) results
    = (interim +:+ concatS (interims results),
       final +:+ concatS (finals results), st')
    ∧ lastResults st' = lastResults st ++ (Js.trim <$> finals results)
    ∧ userId st' = userId st ∧ maxGoals st' = maxGoals st
    ∧ recognition st' = recognition st ∧ isListening st' = isListening st
    ∧ trace st' = trace st.
Proof.
  revert interim final st.
  induction results as [|[t [|]] results IH]; intros interim final st; simpl.
  - exists st. rewrite !append_nil_r, app_nil_r. by split_and!.
  - destruct (IH interim (final +:+ t)
                (setLastResults (lastResults st ++ [Js.trim t]) st))
      as (st' & -> & Hl & Hu & Hm & Hr & Hi & Ht).
    exists st'. rewrite append_assoc. split; [done|]. simpl in *.
    rewrite Hl, <-(assoc_L (++)). by split_and!.
  - destruct (IH (interim +:+ t) final st) as (st' & -> & Hrest).
    exists st'. by rewrite append_assoc.
Qed.

Lemma handleResult_spec results s :
  lastResults (handleResult results s)
  = lastResults s ++ (Js.trim <$> finals results)
  ∧ userId (handleResult results s) = userId s
  ∧ maxGoals (handleResult results s) = maxGoals s
  ∧ recognition (handleResult results s) = recognition s
  ∧ isListening (handleResult results s) = isListening s
  ∧ trace (handleResult results s)
    = trace s
      ++ [OnTranscripts (concatS (interims results)) (concatS (finals results))
            (Js.join (lastResults s ++ (Js.trim <$> finals results)) " "
               +:+ " " +:+ concatS (interims results))].
Proof.
  unfold handleResult.
  destruct (handleResult_loop results "" "" s)
    as (st' & -> & Hl & Hu & Hm & Hr & Hi & Ht).
  simpl. rewrite Hl, Ht. by split_and!.
Qed.

Lemma run_app s l1 l2 : run s (l1 ++ l2) = run (run s l1) l2.
Proof. revert s. induction l1 as [|[env ev] l1 IH]; intros s; simpl; [done|apply IH]. Qed.

Lemma run_results env rss s :
  lastResults (run s ((λ rs, (env, RecResult rs)) <$> rss))
  = lastResults s ++ (Js.trim <$> finals (concat rss))
  ∧ maxGoals (run s ((λ rs, (env, RecResult rs)) <$> rss)) = maxGoals s.
Proof.
  revert s. induction rss as [|rs rss IH]; intros s.
  { simpl. by rewrite app_nil_r. }
  rewrite fmap_cons. cbn [run step concat].
  destruct (IH (handleResult rs s)) as [-> ->].
  destruct (handleResult_spec rs s) as (-> & _ & -> & _).
  by rewrite finals_app, fmap_app, (assoc_L (++)).
Qed.

(** What is heard in one round of listening. When the recognition starts,
    what was heard before is forgotten; of the results of the events that
    follow, each final one is trimmed and kept, in order, and the interim
    ones are only passed on to the page; when the recognition ends, the
    kept pieces joined by single spaces are the transcript, and, unless it
    is blank, the transcript and its goals are handed to the page for
    confirmation as the last thing done. *)
Theorem utterance_is_its_final_results
    (env : Env) (s : VoiceGoalsInput) (rss : list (list (string * bool))) :
  let heard := Js.trim <$> finals (concat rss) in
  let s' := run s ((env, RecStart) :: ((λ rs, (env, RecResult rs)) <$> rss)
                     ++ [(env, RecEnd)]) in
  lastResults s' = heard
  ∧ isListening s' = false
  ∧ last (trace s')
    = Some (if Js.nonEmpty (Js.trim (Js.join heard " "))
            then OnFinalResult
                   {| transcript := Js.join heard " ";
                      goals := processTranscriptIntoGoals (maxGoals s)
                                 (Js.join heard " ");
                      requiresConfirmation := true |}
            else OnStopListening).
Proof.
  intros heard s'. subst s'. cbn [run step]. rewrite run_app.
  destruct (run_results env rss (handleStart s)) as [Hl Hm].
  simpl in Hl, Hm. fold heard in Hl.
  set (s1 := run (handleStart s) _) in *. clearbody s1.
  cbn [run step]. unfold handleEnd. simpl. rewrite Hl, Hm.
  destruct (Js.nonEmpty (Js.trim (Js.join heard " "))); simpl;
    rewrite last_snoc; by split_and!.
Qed.

(** The call in the goal has come to its end: read off what it did. *)
Ltac submission_ends :=
  try eexists; simpl; rewrite <-?(assoc_L (++)); reflexivity.

(** What [sendConfirmedGoals] does with the goals the page confirmed (with
    the default [onAuthRequired]). Without a user id the page gets one
    [auth_required] error and nothing is sent. An empty list of goals, or a
    week start that is an invalid date, fails before anything is sent. Else
    the goals are posted once, as they were confirmed, with the user id, the
    week start and the first [maxGoals] of them as [goal_1], [goal_2], ...;
    if the endpoint accepts them its response data is passed to [onResult]
    and no error is reported. Every failure is reported to the page twice
    with the same cause: as a [backend_error] by [sendGoalsToBackend] and
    then as a [process_error] by [sendConfirmedGoals]; an [auth_required]
    error comes before the two exactly when the endpoint answered 401. *)
Theorem submission_failure_is_reported_twice
    (env : Env) (gs : list string) (s : VoiceGoalsInput) :
  match getUserId s with
  | None => trace (sendConfirmedGoals env gs s) = trace s ++ [OnError authRequired]
  | Some uid =>
      match gs with
      | [] =>
          trace (sendConfirmedGoals env gs s)
          = trace s ++ [OnError (backendError "Goals must be a non-empty array");
                        OnError (processError "Goals must be a non-empty array")]
      | _ :: _ =>
          match weekStartFormatted (zone env) (now env) with
          | None =>
              trace (sendConfirmedGoals env gs s)
              = trace s ++ [OnError (backendError (invalidTime env));
                            OnError (processError (invalidTime env))]
          | Some weekStart =>
              let payload :=
                {| user_id := uid; week_start := weekStart; p_goals := gs;
                   goal_fields := take (Z.to_nat (maxGoals s)) gs |} in
              match accepted env with
              | Some data =>
                  trace (sendConfirmedGoals env gs s)
                  = trace s ++ [PostGoals payload; OnResult data]
              | None =>
                  ∃ cause,
                    trace (sendConfirmedGoals env gs s)
                    = trace s ++ [PostGoals payload]
                        ++ (if unauthorized env then [OnError authRequired] else [])
                        ++ [OnError (backendError cause);
                            OnError (processError cause)]
              end
          end
      end
  end.
Proof.
  unfold sendConfirmedGoals, sendGoalsToBackend, accepted, unauthorized.
  destruct (getUserId s) as [uid|] eqn:Huid; [|done].
  destruct gs as [|g gs]; [submission_ends|].
  destruct (weekStartFormatted (zone env) (now env)) as [weekStart|];
    [|submission_ends].
  cbv zeta.
  destruct (postResult env) as [|msg|status statusText errorField body];
    [submission_ends..|].
  destruct (isOk status) eqn:Hok; simpl negb; cbv iota.
  - assert ((status =? 401) = false) as ->.
    { apply Nat.eqb_neq. intros ->. done. }
    destruct body as [syntaxError|[[|]|] bodyError data]; submission_ends.
  - destruct (status =? 401) eqn:E401.
    { destruct body; submission_ends. }
    destruct (status =? 400); [destruct body; submission_ends|].
    destruct (status =? 429); [destruct body; submission_ends|].
    destruct (500 <=? status); destruct body; submission_ends.
Qed.

End GoalsMore.

(** ** Segmentation, confirmation and week start of the voice goals input *)

Module GoalsFlow.
Import Goals GoalsOps GoalsFacts GoalsMore.



















(** C7, as the code runs it. In a zone nine hours ahead of UTC, on the
    morning of Wednesday 2024-01-10, the most recent Sunday is 2024-01-07;
    the week start posted with the goals is 2024-01-06, a Saturday: the
    Sunday is found in local time, but it is written out as the UTC date of
    that moment, which is still the day before. Five hours behind UTC, on
    the evening of Sunday 2024-01-07, the week start posted is 2024-01-08,
    the Monday after. *)
Theorem week_start_is_written_as_utc_date :
  getDay nineAhead wednesdayMorning = 3%Z
  ∧ isoDate (LocalTime nineAhead wednesdayMorning) = "2024-01-10"
  ∧ localSunday nineAhead wednesdayMorning = "2024-01-07"
  ∧ week_start
      <$> posts (trace (sendConfirmedGoals (acceptingEnv nineAhead wednesdayMorning)
                          ["Exercise daily"] (constructor None (Some "user123"))))
    = ["2024-01-06"]
  ∧ getDay fiveBehind sundayEvening = 0%Z
  ∧ localSunday fiveBehind sundayEvening = "2024-01-07"
  ∧ week_start
      <$> posts (trace (sendConfirmedGoals (acceptingEnv fiveBehind sundayEvening)
                          ["Exercise daily"] (constructor None (Some "user123"))))
    = ["2024-01-08"].
Proof. by vm_compute. Qed.

End GoalsFlow.
